(** * Fiscal oracle (split payment, LC 214/2025): tax engine and signer

    A shallow embedding of [src/oracle/fiscal_oracle.py] and the proofs of
    its specification.

    - [Py]         : the fragment of CPython's numeric semantics the module
                     relies on: unbounded [int], IEEE-754 binary64 [float]
                     (Rocq's [SpecFloat] at precision 53 and maximal
                     exponent 1024), exceptions.
    - [TaxEngine]  : the rate tables and the two tax computations.
    - [Oracle]     : the signer, parameterised by the Ethereum primitives it
                     imports ([EthLib]).
    - [FloatFacts] : rounding lemmas for [float(n)], [n * x], [a / b] and
                     [int(x)].
    - the properties of the specification, one section per property.
    - [Report], [Cli] : the formatting of amounts, the two reports and the
                     command-line run, with the properties of the tax
                     engine, the signer and the reports that the code shows
                     beyond its specification (sections 8 to 12).

    Python [str] values are represented by their UTF-8 byte sequence, held in
    a Rocq [string]. *)

From Stdlib Require Import ZArith Lia List String Ascii Bool.
From Stdlib Require Strings.Byte.
From Stdlib Require Import SpecFloat DecimalString.
From stdpp Require Import gmap strings.

Local Open Scope Z_scope.

(* ===================================================================== *)
(** ** Python values, exceptions and arithmetic *)
(* ===================================================================== *)

Module Py.

Inductive exn : Type :=
| OverflowError
| ValueError
| ZeroDivisionError
| KeyError
| TypeError
| InvalidAddress.

(** Outcome of evaluating an expression: a value, or a raised exception. *)
Inductive result (A : Type) : Type :=
| Ok (a : A)
| Raise (e : exn).
Arguments Ok {A} a.
Arguments Raise {A} e.

Definition bind {A B : Type} (m : result A) (k : A -> result B) : result B :=
  match m with
  | Ok a => k a
  | Raise e => Raise e
  end.

Definition map {A B : Type} (f : A -> B) (m : result A) : result B :=
  bind m (fun a => Ok (f a)).

(** [float] is IEEE-754 binary64. *)
Definition prec : Z := 53.
Definition emax : Z := 1024.
Definition float : Type := spec_float.

(** A Python number as stored in a dictionary slot: [0] and [0.0] differ. *)
Inductive number : Type :=
| PyInt (n : Z)
| PyFloat (f : float).

(** [float(n)] for an [int] [n]: round to nearest, ties to even;
    "int too large to convert to float" when the rounded value does not
    fit. *)
Definition float_of_int (n : Z) : result float :=
  match binary_normalize prec emax n 0 false with
  | S754_infinity _ => Raise OverflowError
  | f => Ok f
  end.

(** [x * y] on two floats: never raises, may produce [inf] or [nan]. *)
Definition float_mul (x y : float) : float := SFmul prec emax x y.

(** [n * y] with [n : int] and [y : float]: [n] is converted first. *)
Definition int_mul_float (n : Z) (y : float) : result float :=
  bind (float_of_int n) (fun x => Ok (float_mul x y)).

(** [int(x)] for a float [x]: truncation toward zero. *)
Definition int_of_float (x : float) : result Z :=
  match x with
  | S754_zero _ => Ok 0
  | S754_finite s m e => Ok (cond_Zopp s (Z.shiftl (Zpos m) e))
  | S754_infinity _ => Raise OverflowError
  | S754_nan => Raise ValueError
  end.

(** The sign and magnitude of a non-zero [int] as an (unnormalised)
    binary float with exponent 0. *)
Definition exact_of_int (n : Z) : float :=
  match n with
  | Z0 => S754_zero false
  | Zpos p => S754_finite false p 0
  | Zneg p => S754_finite true p 0
  end.

(** [a / b] on two [int]s (true division): the correctly rounded quotient;
    "division by zero" and "integer division result too large for a
    float" are raised. *)
Definition int_truediv (a b : Z) : result float :=
  if b =? 0 then Raise ZeroDivisionError
  else if a =? 0 then Ok (S754_zero (b <? 0))
  else
    match SFdiv prec emax (exact_of_int a) (exact_of_int b) with
    | S754_infinity _ => Raise OverflowError
    | f => Ok f
    end.

(** A decimal literal [n/d] with both [n] and [d] exactly representable:
    the nearest double. *)
Definition literal (n d : Z) : float :=
  SFdiv prec emax (binary_normalize prec emax n 0 false)
                  (binary_normalize prec emax d 0 false).

(** [d[k]]: subscripting raises [KeyError] on a missing key. *)
Definition getitem {V : Type} (d : gmap string V) (k : string) : result V :=
  match d !! k with
  | Some v => Ok v
  | None => Raise KeyError
  end.

(** [d.get(k, dflt)]. *)
Definition get {V : Type} (d : gmap string V) (k : string) (dflt : V) : V :=
  default dflt (d !! k).

End Py.

Import Py.

Notation "'let!' x ':=' m 'in' k" := (Py.bind m (fun x => k))
  (at level 10, x name, m at level 100, k at level 200).

(* ===================================================================== *)
(** ** 1. TaxEngine *)
(* ===================================================================== *)

Module TaxEngine.

(** One entry of [SECTOR_RATES]: a dictionary with exactly the three keys
    ["CBS"], ["IBS_ESTADO"] and ["IBS_MUNICIPIO"]. *)
Record rates : Type := {
  CBS : float;
  IBS_ESTADO : float;
  IBS_MUNICIPIO : float
}.

Definition f_0_0865 : float := Eval vm_compute in literal 865 10000.
Definition f_0_1115 : float := Eval vm_compute in literal 1115 10000.
Definition f_0_0470 : float := Eval vm_compute in literal 470 10000.
Definition f_0_0433 : float := Eval vm_compute in literal 433 10000.
Definition f_0_0558 : float := Eval vm_compute in literal 558 10000.
Definition f_0_0235 : float := Eval vm_compute in literal 235 10000.
Definition f_0_0 : float := S754_zero false.

Definition DEFAULT_RATES : rates :=
  {| CBS := f_0_0865; IBS_ESTADO := f_0_1115; IBS_MUNICIPIO := f_0_0470 |}.

Definition SECTOR_RATES : gmap string rates :=
  list_to_map
    [ ("PADRAO",
        {| CBS := f_0_0865; IBS_ESTADO := f_0_1115; IBS_MUNICIPIO := f_0_0470 |});
      ("SAUDE",
        {| CBS := f_0_0433; IBS_ESTADO := f_0_0558; IBS_MUNICIPIO := f_0_0235 |});
      ("EDUCACAO",
        {| CBS := f_0_0433; IBS_ESTADO := f_0_0558; IBS_MUNICIPIO := f_0_0235 |});
      ("TRANSPORTE_COLETIVO",
        {| CBS := f_0_0433; IBS_ESTADO := f_0_0558; IBS_MUNICIPIO := f_0_0235 |});
      ("CESTA_BASICA",
        {| CBS := f_0_0; IBS_ESTADO := f_0_0; IBS_MUNICIPIO := f_0_0 |});
      ("COMBUSTIVEIS",
        {| CBS := f_0_0865; IBS_ESTADO := f_0_1115; IBS_MUNICIPIO := f_0_0470 |}) ].

Definition SIMPLIFIED_RATES_BPS : gmap string Z :=
  list_to_map
    [ ("PADRAO", 2650);
      ("SAUDE", 1325);
      ("EDUCACAO", 1325);
      ("TRANSPORTE_COLETIVO", 1325);
      ("CESTA_BASICA", 0);
      ("COMBUSTIVEIS", 2650) ].

(** The dictionary returned by [calculate_standard]. *)
Record standard_tax : Type := {
  gross_amount : Z;
  cbs_amount : Z;
  ibs_state_amount : Z;
  ibs_city_amount : Z;
  total_tax : Z;
  credit_offset : Z;
  net_tax : Z;
  net_to_seller : Z;
  effective_rate : number;
  sector : string
}.

(** The dictionary returned by [calculate_simplified]. *)
Record simplified_tax : Type := {
  s_gross_amount : Z;
  s_rate_bps : Z;
  s_tax_amount : Z;
  s_net_to_seller : Z;
  s_effective_rate : number;
  s_sector : string
}.

Definition calculate_standard
    (gross_amount_wei : Z) (sector : string) (seller_credits_wei : Z)
    : result standard_tax :=
  let! padrao := getitem SECTOR_RATES "PADRAO" in
  let rates := get SECTOR_RATES sector padrao in
  let! cbs_f := int_mul_float gross_amount_wei (CBS rates) in
  let! cbs_amount := int_of_float cbs_f in
  let! ibs_state_f := int_mul_float gross_amount_wei (IBS_ESTADO rates) in
  let! ibs_state_amount := int_of_float ibs_state_f in
  let! ibs_city_f := int_mul_float gross_amount_wei (IBS_MUNICIPIO rates) in
  let! ibs_city_amount := int_of_float ibs_city_f in
  let total_tax := cbs_amount + ibs_state_amount + ibs_city_amount in
  let credit_offset := Z.min seller_credits_wei total_tax in
  let net_tax := total_tax - credit_offset in
  let net_to_seller := gross_amount_wei - net_tax in
  let! effective_rate :=
    (if gross_amount_wei >? 0
     then Py.map PyFloat (int_truediv total_tax gross_amount_wei)
     else Ok (PyInt 0)) in
  Ok {| gross_amount := gross_amount_wei;
        cbs_amount := cbs_amount;
        ibs_state_amount := ibs_state_amount;
        ibs_city_amount := ibs_city_amount;
        total_tax := total_tax;
        credit_offset := credit_offset;
        net_tax := net_tax;
        net_to_seller := net_to_seller;
        effective_rate := effective_rate;
        sector := sector |}.

Definition calculate_simplified (gross_amount_wei : Z) (sector : string)
    : result simplified_tax :=
  let rate_bps := get SIMPLIFIED_RATES_BPS sector 2650 in
  let! tax_f := int_truediv (gross_amount_wei * rate_bps) 10000 in
  let! tax_amount := int_of_float tax_f in
  let net_to_seller := gross_amount_wei - tax_amount in
  let! effective_rate := int_truediv rate_bps 10000 in
  Ok {| s_gross_amount := gross_amount_wei;
        s_rate_bps := rate_bps;
        s_tax_amount := tax_amount;
        s_net_to_seller := net_to_seller;
        s_effective_rate := PyFloat effective_rate;
        s_sector := sector |}.

End TaxEngine.

Import TaxEngine.

(* ===================================================================== *)
(** ** 2. FiscalOracle *)
(* ===================================================================== *)

Definition bytes : Type := list Byte.byte.

Definition byte_of_Z (n : Z) : Byte.byte :=
  match Byte.of_N (Z.to_N (n mod 256)) with
  | Some b => b
  | None => Byte.x00
  end.

(** [n.to_bytes(len, "big")] without the range check: the [len] low-order
    bytes of [n], most significant first. *)
Fixpoint be_bytes (len : nat) (n : Z) : bytes :=
  match len with
  | O => []
  | S k => byte_of_Z (n / 256 ^ Z.of_nat k) :: be_bytes k n
  end.

(** [s.encode("utf-8")]. *)
Definition utf8 (s : string) : bytes := list_byte_of_string s.

Definition hex_digit (n : Z) : ascii :=
  ascii_of_nat (Z.to_nat (if n <? 10 then 48 + n else 87 + n)).

(** [b.hex()]: two lower-case digits per byte, no prefix. *)
Fixpoint hex (b : bytes) : string :=
  match b with
  | [] => EmptyString
  | x :: rest =>
      let n := Z.of_N (Byte.to_N x) in
      String (hex_digit (n / 16)) (String (hex_digit (n mod 16)) (hex rest))
  end.

(** The primitives imported from [web3] and [eth_account]. *)
Class EthLib : Type := {
  (** Keccak-256 of a byte string. *)
  keccak256 : bytes -> bytes;
  (** validation and decoding of a hexadecimal address *)
  address_bytes : string -> option bytes;
  address_bytes_length :
    forall s b, address_bytes s = Some b -> length b = 20%nat;
  (** [Account.from_key(k).address]; [None] when [k] is not a valid key *)
  address_of_key : string -> option string;
  (** recoverable ECDSA signature (r, s, v) of a digest under a key *)
  ecdsa_sign : string -> bytes -> bytes
}.

Module Oracle.
Section WithLib.
Context {lib : EthLib}.

Inductive abi_type : Type := T_string | T_address | T_uint256.

(** The Python values handed to the encoder. *)
Inductive abi_value : Type :=
| V_str (s : string)
| V_int (n : Z).

(** Modelled from the spec: the packed (non-padded, concatenation-style)
    encoding of one field, as [Web3.solidity_keccak] builds it: a string is
    its UTF-8 bytes, an address its 20 bytes, a [uint256] 32 big-endian
    bytes. A value that does not fit its type is rejected. *)
Definition encode_packed_one (t : abi_type) (v : abi_value) : result bytes :=
  match t, v with
  | T_string, V_str s => Ok (utf8 s)
  | T_address, V_str s =>
      match address_bytes s with
      | Some b => Ok b
      | None => Raise InvalidAddress
      end
  | T_uint256, V_int n =>
      if (0 <=? n) && (n <? 2 ^ 256) then Ok (be_bytes 32 n)
      else Raise ValueError
  | _, _ => Raise TypeError
  end.

Fixpoint encode_packed (ts : list abi_type) (vs : list abi_value)
    : result bytes :=
  match ts, vs with
  | [], [] => Ok []
  | t :: ts', v :: vs' =>
      let! b := encode_packed_one t v in
      let! rest := encode_packed ts' vs' in
      Ok (b ++ rest)
  | _, _ => Raise ValueError
  end.

(** [Web3.solidity_keccak(abi_types, values)]. *)
Definition solidity_keccak (ts : list abi_type) (vs : list abi_value)
    : result bytes :=
  let! packed := encode_packed ts vs in
  Ok (keccak256 packed).

(** [eth_account.messages.SignableMessage]. *)
Record SignableMessage : Type := {
  version : bytes;
  header : bytes;
  body : bytes
}.

Definition decimal (n : nat) : string :=
  NilEmpty.string_of_uint (Nat.to_uint n).

(** Modelled from the spec: [encode_defunct] wraps the digest in the
    "Ethereum Signed Message" preamble (version byte [E], header
    [thereum Signed Message:\n] followed by the decimal length of the
    body). The digest travels as [message_hash.hex()] and is decoded back
    by the [hexstr=] argument; the body is the digest itself. *)
Definition encode_defunct (digest : bytes) : SignableMessage :=
  {| version := utf8 "E";
     header := utf8 "thereum Signed Message:" ++ [Byte.x0a]
               ++ utf8 (decimal (length digest));
     body := digest |}.

(** [eth_account.Account], reduced to what the oracle reads from it. *)
Record Account : Type := {
  key : string;
  acct_address : string
}.

Definition from_key (private_key : string) : result Account :=
  match address_of_key private_key with
  | Some a => Ok {| key := private_key; acct_address := a |}
  | None => Raise ValueError
  end.

(** Modelled from the spec: [account.sign_message] hashes
    [0x19 ++ version ++ header ++ body] and signs that digest; the result
    is the 65-byte signature. *)
Definition sign_message (a : Account) (m : SignableMessage) : bytes :=
  ecdsa_sign (key a)
    (keccak256 (Byte.x19 :: version m ++ header m ++ body m)).

Inductive mode_t : Type := STANDARD | SIMPLIFIED.

Record SignedInvoice : Type := {
  invoice_id : string;
  seller : string;
  si_gross_amount : Z;
  si_cbs_amount : Z;
  si_ibs_state_amount : Z;
  si_ibs_city_amount : Z;
  si_credit_offset : Z;
  signature : string;
  signer_address : string;
  timestamp : string;
  mode : mode_t;
  rate_bps : Z
}.

(** The attributes of a [FiscalOracle] instance. *)
Record FiscalOracle : Type := {
  private_key : string;
  account : Account;
  address : string;
  signatures_issued : Z
}.

(** [FiscalOracle.__init__]; [token_hex] is the value drawn from
    [secrets.token_hex(32)] when no key is supplied. *)
Definition init (private_key : option string) (token_hex : string)
    : result FiscalOracle :=
  let k :=
    match private_key with
    | Some k => if String.eqb k "" then "0x" ++ token_hex else k
    | None => "0x" ++ token_hex
    end%string in
  let! acct := from_key k in
  Ok {| private_key := k;
        account := acct;
        address := acct_address acct;
        signatures_issued := 0 |}.

(** A method call: the outcome and the instance after the call. An
    exception leaves the attributes as they were when it was raised. *)
Definition method (A : Type) : Type := FiscalOracle -> result A * FiscalOracle.

(** [now] is the value of [datetime.now().isoformat()] at the call. *)
Definition authorize_standard
    (invoice_id seller_address : string) (gross_amount_wei : Z)
    (sector : string) (seller_credits_wei : Z) (now : string)
    : method SignedInvoice :=
  fun self =>
  match
    (let! tax := calculate_standard gross_amount_wei sector seller_credits_wei in
     let! message_hash :=
       solidity_keccak
         [T_string; T_address; T_uint256; T_uint256; T_uint256; T_uint256; T_uint256]
         [V_str invoice_id;
          V_str seller_address;
          V_int gross_amount_wei;
          V_int (cbs_amount tax);
          V_int (ibs_state_amount tax);
          V_int (ibs_city_amount tax);
          V_int (credit_offset tax)] in
     let message := encode_defunct message_hash in
     let signed := sign_message (account self) message in
     Ok (tax, signed))
  with
  | Raise e => (Raise e, self)
  | Ok (tax, signed) =>
      let self' :=
        {| private_key := private_key self;
           account := account self;
           address := address self;
           signatures_issued := signatures_issued self + 1 |} in
      (Ok {| invoice_id := invoice_id;
             seller := seller_address;
             si_gross_amount := gross_amount_wei;
             si_cbs_amount := cbs_amount tax;
             si_ibs_state_amount := ibs_state_amount tax;
             si_ibs_city_amount := ibs_city_amount tax;
             si_credit_offset := credit_offset tax;
             signature := ("0x" ++ hex signed)%string;
             signer_address := address self';
             timestamp := now;
             mode := STANDARD;
             rate_bps := 0 |},
       self')
  end.

Definition authorize_simplified
    (invoice_id seller_address : string) (gross_amount_wei : Z)
    (sector : string) (now : string)
    : method SignedInvoice :=
  fun self =>
  match
    (let! tax := calculate_simplified gross_amount_wei sector in
     let! message_hash :=
       solidity_keccak
         [T_string; T_address; T_uint256; T_uint256; T_string]
         [V_str invoice_id;
          V_str seller_address;
          V_int gross_amount_wei;
          V_int (s_rate_bps tax);
          V_str "SIMPLIFIED"] in
     let message := encode_defunct message_hash in
     let signed := sign_message (account self) message in
     Ok (tax, signed))
  with
  | Raise e => (Raise e, self)
  | Ok (tax, signed) =>
      let self' :=
        {| private_key := private_key self;
           account := account self;
           address := address self;
           signatures_issued := signatures_issued self + 1 |} in
      (Ok {| invoice_id := invoice_id;
             seller := seller_address;
             si_gross_amount := gross_amount_wei;
             si_cbs_amount := 0;
             si_ibs_state_amount := 0;
             si_ibs_city_amount := 0;
             si_credit_offset := 0;
             signature := ("0x" ++ hex signed)%string;
             signer_address := address self';
             timestamp := now;
             mode := SIMPLIFIED;
             rate_bps := s_rate_bps tax |},
       self')
  end.

End WithLib.
End Oracle.

Import Oracle.

(* ===================================================================== *)
(** ** 3. Vocabulary of the statements *)
(* ===================================================================== *)

(** The least [int] that [float()] rejects: half-way between the largest
    double and [2 ^ 1024]. *)
Definition float_limit : Z := 2 ^ 1024 - 2 ^ 970.

(** [x == 0] on a number. *)
Definition is_zero (x : number) : bool :=
  match x with
  | PyInt n => n =? 0
  | PyFloat (S754_zero _) => true
  | PyFloat _ => false
  end.

(** What [binary_round_aux] returns for the mantissa and exponent left by
    its second alignment. *)
Definition finish (s : bool) (m2 e2 : Z) : spec_float :=
  match m2 with
  | Z0 => S754_zero s
  | Zpos p => if e2 <=? emax - prec then S754_finite s p e2 else S754_infinity s
  | Zneg _ => S754_nan
  end.

(** The table entry [calculate_standard] works with, and the basis-point
    rate [calculate_simplified] works with. *)
Definition rates_for (sector : string) : rates := get SECTOR_RATES sector DEFAULT_RATES.
Definition bps_for (sector : string) : Z := get SIMPLIFIED_RATES_BPS sector 2650.

Definition reduced_rates : rates :=
  {| CBS := f_0_0433; IBS_ESTADO := f_0_0558; IBS_MUNICIPIO := f_0_0235 |}.
Definition zero_rates : rates :=
  {| CBS := f_0_0; IBS_ESTADO := f_0_0; IBS_MUNICIPIO := f_0_0 |}.

(** A rate the tables may hold, with its value [mr * 2 ^ er]: zero, or a
    normalised double below one. *)
Inductive table_rate : float -> Z -> Z -> Prop :=
| table_rate_zero : table_rate (S754_zero false) 0 0
| table_rate_finite (mr : positive) (er : Z) :
    2 ^ 52 <= Zpos mr < 2 ^ 53 -> -1000 <= er <= -54 ->
    table_rate (S754_finite false mr er) (Zpos mr) er.

(** [T] is the share [int(g * rate)]: how it is computed, and how far it
    can be from the product of [g] and the stored rate [mr * 2 ^ er]. *)
Definition share_of (g : Z) (rate : float) (T : Z) : Prop :=
  (exists f, int_mul_float g rate = Ok f /\ int_of_float f = Ok T)
  /\ exists mr er,
       table_rate rate mr er /\ 0 <= T
       /\ 2 ^ 104 * (T * 2 ^ (- er)) <= (2 ^ 52 + 1) ^ 2 * (g * mr)
       /\ (2 ^ 52 - 1) ^ 2 * (g * mr) <= 2 ^ 104 * ((T + 1) * 2 ^ (- er)).

(** [T] is the withheld amount [int(g * bps / 10000)]: how it is computed,
    and how far it can be from the exact quotient. *)
Definition withheld_of (g bps T : Z) : Prop :=
  (exists f, int_truediv (g * bps) 10000 = Ok f /\ int_of_float f = Ok T)
  /\ 0 <= T
  /\ 2 ^ 52 * (T * 10000) <= (2 ^ 52 + 1) * (g * bps)
  /\ (2 ^ 52 - 1) * (g * bps) <= (2 ^ 52 + 1) * ((T + 1) * 10000).

(** The specification's formula for a share, [floor(gross * num / den)],
    the rate being the decimal [num / den]. *)
Definition floor_share (gross num den : Z) : Z := gross * num / den.

(** What a dictionary returned by [calculate_standard] satisfies. *)
Record standard_eqs (g : Z) (sec : string) (credits : Z) (r : standard_tax) : Prop := {
  se_cbs : exists f, int_mul_float g (CBS (rates_for sec)) = Ok f
                     /\ int_of_float f = Ok (cbs_amount r);
  se_state : exists f, int_mul_float g (IBS_ESTADO (rates_for sec)) = Ok f
                       /\ int_of_float f = Ok (ibs_state_amount r);
  se_city : exists f, int_mul_float g (IBS_MUNICIPIO (rates_for sec)) = Ok f
                      /\ int_of_float f = Ok (ibs_city_amount r);
  se_total : total_tax r = cbs_amount r + ibs_state_amount r + ibs_city_amount r;
  se_offset : credit_offset r = Z.min credits (total_tax r);
  se_net_tax : net_tax r = total_tax r - credit_offset r;
  se_net : net_to_seller r = g - net_tax r;
  se_rate : if g >? 0
            then exists f, int_truediv (total_tax r) g = Ok f
                           /\ effective_rate r = PyFloat f
            else effective_rate r = PyInt 0;
  se_gross : gross_amount r = g;
  se_sector : sector r = sec
}.

(** What a dictionary returned by [calculate_simplified] satisfies. *)
Record simplified_eqs (g : Z) (sec : string) (r : simplified_tax) : Prop := {
  sm_bps : s_rate_bps r = bps_for sec;
  sm_tax : exists f, int_truediv (g * bps_for sec) 10000 = Ok f
                     /\ int_of_float f = Ok (s_tax_amount r);
  sm_net : s_net_to_seller r = g - s_tax_amount r;
  sm_rate : exists f, int_truediv (bps_for sec) 10000 = Ok f
                      /\ s_effective_rate r = PyFloat f;
  sm_gross : s_gross_amount r = g;
  sm_sector : s_sector r = sec
}.

(** A result dictionary with its ["sector"] entry replaced. *)
Definition with_sector (s : string) (r : standard_tax) : standard_tax :=
  {| gross_amount := gross_amount r;
     cbs_amount := cbs_amount r;
     ibs_state_amount := ibs_state_amount r;
     ibs_city_amount := ibs_city_amount r;
     total_tax := total_tax r;
     credit_offset := credit_offset r;
     net_tax := net_tax r;
     net_to_seller := net_to_seller r;
     effective_rate := effective_rate r;
     sector := s |}.

Definition s_with_sector (s : string) (r : simplified_tax) : simplified_tax :=
  {| s_gross_amount := s_gross_amount r;
     s_rate_bps := s_rate_bps r;
     s_tax_amount := s_tax_amount r;
     s_net_to_seller := s_net_to_seller r;
     s_effective_rate := s_effective_rate r;
     s_sector := s |}.

Definition uint256 (n : Z) : Prop := 0 <= n < 2 ^ 256.

(** The wire layout of the specification's encoding contract, standard
    regime: string, 20-byte address, five 32-byte big-endian integers. *)
Definition packed_standard (id : string) (addr : bytes) (g cbs st ct off : Z) : bytes :=
  utf8 id ++ addr ++ be_bytes 32 g ++ be_bytes 32 cbs ++ be_bytes 32 st
  ++ be_bytes 32 ct ++ be_bytes 32 off.

(** The same for the simplified regime: string, address, two integers and
    the literal tag. *)
Definition packed_simplified (id : string) (addr : bytes) (g bps : Z) : bytes :=
  utf8 id ++ addr ++ be_bytes 32 g ++ be_bytes 32 bps ++ utf8 "SIMPLIFIED".

(** The [signature] string issued for a payload: hash, wrap, hash, sign,
    render in hexadecimal. *)
Definition personal_sign {lib : EthLib} (a : Account) (payload : bytes) : string :=
  ("0x" ++ hex (sign_message a (encode_defunct (keccak256 payload))))%string.

(** One call on a signer instance. *)
Inductive request : Type :=
| Standard (nfe who : string) (g : Z) (sec : string) (credits : Z) (now : string)
| Simplified (nfe who : string) (g : Z) (sec : string) (now : string).

Definition serve {lib : EthLib} (rq : request) : method SignedInvoice :=
  match rq with
  | Standard nfe who g sec credits now => authorize_standard nfe who g sec credits now
  | Simplified nfe who g sec now => authorize_simplified nfe who g sec now
  end.

Definition returned {A : Type} (res : result A) : Z :=
  match res with
  | Ok _ => 1
  | Raise _ => 0
  end.

(** A sequence of calls on one instance: the instance afterwards and the
    number of calls that returned an authorization. *)
Fixpoint serve_all {lib : EthLib} (rqs : list request) (self : FiscalOracle)
    : FiscalOracle * Z :=
  match rqs with
  | [] => (self, 0)
  | rq :: rest =>
      let '(res, self') := serve rq self in
      let '(final, n) := serve_all rest self' in
      (final, returned res + n)
  end.

(** Decoding of hexadecimal text, for the instance below. *)
Definition nibble (c : ascii) : option Z :=
  let n := Z.of_nat (nat_of_ascii c) in
  if (48 <=? n) && (n <=? 57) then Some (n - 48)
  else if (97 <=? n) && (n <=? 102) then Some (n - 87)
  else if (65 <=? n) && (n <=? 70) then Some (n - 55)
  else None.

Fixpoint unhex (k : nat) (s : string) : option bytes :=
  match k, s with
  | O, EmptyString => Some []
  | S k', String a (String b rest) =>
      match nibble a, nibble b, unhex k' rest with
      | Some x, Some y, Some r => Some (byte_of_Z (16 * x + y) :: r)
      | _, _, _ => None
      end
  | _, _ => None
  end.

Definition parse_address (s : string) : option bytes :=
  match s with
  | String "0" (String "x" rest) => unhex 20 rest
  | _ => None
  end.

(** A plain instance of the primitives, on which the signer can be run:
    addresses are ["0x"] followed by 40 hexadecimal digits (no checksum),
    the hash and the signature return their input. *)
Definition plain_lib : EthLib :=
  {| keccak256 := fun b => b;
     address_bytes := parse_address;
     address_bytes_length := ltac:(
       assert (H : forall k s b, unhex k s = Some b -> length b = k);
       [ induction k as [| k IH]; intros s b;
         [ destruct s; cbn; [intros [= <-]; reflexivity | discriminate]
         | destruct s as [| a [| c rest]]; cbn [unhex]; try discriminate;
           destruct (nibble a); try discriminate;
           destruct (nibble c); try discriminate;
           destruct (unhex k rest) as [r|] eqn:E; try discriminate;
           intros [= <-]; cbn [length]; f_equal; exact (IH rest r E) ]
       | intros s b; unfold parse_address;
         destruct s as [| a [| c rest]]; try discriminate;
         destruct a as [[] [] [] [] [] [] [] []]; try discriminate;
         destruct c as [[] [] [] [] [] [] [] []]; try discriminate;
         apply H ]);
     address_of_key := fun k => Some k;
     ecdsa_sign := fun _ d => d |}.

Definition plain_oracle : FiscalOracle :=
  {| private_key := "0x01";
     account := {| key := "0x01"; acct_address := "0x01" |};
     address := "0x01";
     signatures_issued := 0 |}.

Definition demo_seller : string := "0x1234567890123456789012345678901234567890".
Definition demo_seller_bytes : bytes :=
  be_bytes 20 0x1234567890123456789012345678901234567890.

(** Two calls, one per regime, whose packed payloads coincide: the
    identifier of the second is the identifier of the first followed by the
    bytes of its address, amount and federal share and two bytes of its
    state share (all below 128, hence a well-formed text). *)
Module Replay.
Definition std_id : string := "NFe1".
Definition std_seller : string := "0x1111111111111111111111111111111111111111".
Definition std_gross : Z := 3321258476537109691194896076372433371660288.
Definition std_credits : Z := 3204046730580199490974205252.
Definition simp_id : string :=
  string_of_list_byte
    (utf8 std_id ++ be_bytes 20 0x1111111111111111111111111111111111111111
     ++ be_bytes 32 std_gross
     ++ be_bytes 32 287288858220459972195137999896271912960000
     ++ [Byte.x00; Byte.x00]).
Definition simp_seller : string := "0x0000000000000000000000000440460b5b28db80".
Definition simp_gross : Z := 129122189190238384.
End Replay.

(* ===================================================================== *)
(** ** 3a. Formatting and report *)
(* ===================================================================== *)

Module Report.

(** [round(n / d)] to the nearest integer, ties to the even one
    ([0 <= n], [0 < d]). *)
Definition round_half_even (n d : Z) : Z :=
  let q := n / d in
  match 2 * (n mod d) ?= d with
  | Lt => q
  | Gt => q + 1
  | Eq => if Z.even q then q else q + 1
  end.

(** The magnitude [m * 2 ^ e] in hundredths, correctly rounded: what the
    format specification [.2f] prints of a double, without the point. *)
Definition hundredths (m : positive) (e : Z) : Z :=
  if 0 <=? e then Zpos m * 100 * 2 ^ e
  else round_half_even (Zpos m * 100) (2 ^ (- e)).

(** Decimal digits of a non-negative [int]. *)
Definition digits (n : Z) : string :=
  NilZero.string_of_uint (N.to_uint (Z.to_N n)).

(** The thousands separator of the [,] option, on the reversed digits. *)
Fixpoint group3 (rev_digits : list ascii) : list ascii :=
  match rev_digits with
  | a :: b :: c :: rest =>
      match rest with
      | [] => [a; b; c]
      | _ :: _ => a :: b :: c :: ","%char :: group3 rest
      end
  | short => short
  end.

Definition thousands (s : string) : string :=
  string_of_list_ascii (rev (group3 (rev (list_ascii_of_string s)))).

(** A count of hundredths as [i.ff], the integral part grouped or not. *)
Definition point2 (comma : bool) (n : Z) : string :=
  let i := digits (n / 100) in
  ((if comma then thousands i else i) ++ "."
   ++ digits (n mod 100 / 10) ++ digits (n mod 10))%string.

(** [format(x, ".2f")] and [format(x, ",.2f")] for a float [x]. *)
Definition format_2f (comma : bool) (x : float) : string :=
  match x with
  | S754_nan => "nan"
  | S754_infinity s => if s then "-inf" else "inf"
  | S754_zero s => (if s then "-" else "") ++ point2 comma 0
  | S754_finite s m e => (if s then "-" else "") ++ point2 comma (hundredths m e)
  end%string.

(** The same for a number that may be an [int]: it is converted first. *)
Definition format_number_2f (x : number) : result string :=
  match x with
  | PyInt n => let! f := float_of_int n in Ok (format_2f false f)
  | PyFloat f => Ok (format_2f false f)
  end.

(** [x * 100] for a dictionary slot. *)
Definition times_100 (x : number) : number :=
  match x with
  | PyInt n => PyInt (n * 100)
  | PyFloat f => PyFloat (float_mul f (binary_normalize prec emax 100 0 false))
  end.

Definition wei_to_brl (wei : Z) : result string :=
  let! value := int_truediv wei (10 ^ 18) in
  Ok ("R$ " ++ format_2f true value)%string.

(** Code points of a [str]: in UTF-8 every byte in [0x80, 0xC0) continues
    the code point of the byte before it. *)
Definition continuation (a : ascii) : bool :=
  let n := Z.of_nat (nat_of_ascii a) in (128 <=? n) && (n <? 192).

Fixpoint chars (s : string) : list string :=
  match s with
  | EmptyString => []
  | String a rest =>
      match chars rest with
      | String b g :: gs =>
          if continuation b then String a (String b g) :: gs
          else String a EmptyString :: String b g :: gs
      | gs => String a EmptyString :: gs
      end
  end.

Definition join (cs : list string) : string :=
  fold_right String.append EmptyString cs.

(** [s[:n]] and [s[-n:]] for [0 < n]. *)
Definition first_chars (n : nat) (s : string) : string :=
  join (firstn n (chars s)).
Definition last_chars (n : nat) (s : string) : string :=
  let cs := chars s in join (skipn (length cs - n) cs).

(** [c * n] for a one-character string. *)
Definition repeat_char (c : ascii) (n : nat) : string :=
  string_of_list_ascii (repeat c n).

(** Console output of a sequence of [print] calls: the lines written, and
    the exception that stopped the sequence if evaluating an argument
    raised. *)
Fixpoint prints (args : list (result string)) : list string * result unit :=
  match args with
  | [] => ([], Ok tt)
  | Ok line :: rest => let '(out, r) := prints rest in (line :: out, r)
  | Raise e :: _ => ([], Raise e)
  end.

Definition rule : string := repeat_char "-" 70.

Definition abbreviated (n m : nat) (s : string) : string :=
  (first_chars n s ++ "..." ++ last_chars m s)%string.

Definition print_standard_report (result : SignedInvoice) (tax_details : standard_tax)
    : list string * Py.result unit :=
  let total_tax :=
    si_cbs_amount result + si_ibs_state_amount result + si_ibs_city_amount result in
  let net_tax := total_tax - si_credit_offset result in
  let net_seller := si_gross_amount result - net_tax in
  prints
    [ Ok "";
      Ok rule;
      Ok "  AUTORIZAÇÃO DE SPLIT PADRÃO (Art. 32)";
      Ok rule;
      Ok ("  NF-e:                " ++ invoice_id result);
      Ok ("  Vendedor:            " ++ abbreviated 10 8 (seller result));
      Ok ("  Timestamp:           " ++ timestamp result);
      Ok ("  Setor:               " ++ sector tax_details);
      Ok "";
      Py.map (append "  Valor bruto:         ") (wei_to_brl (si_gross_amount result));
      Py.map (append "  ├─ CBS (União):      ") (wei_to_brl (si_cbs_amount result));
      Py.map (append "  ├─ IBS Estado:       ") (wei_to_brl (si_ibs_state_amount result));
      Py.map (append "  ├─ IBS Município:    ") (wei_to_brl (si_ibs_city_amount result));
      Py.map (append "  ├─ Total tributo:    ") (wei_to_brl total_tax);
      Py.map (append "  ├─ Créditos comp.:   ") (wei_to_brl (si_credit_offset result));
      Py.map (append "  ├─ Tributo líquido:  ") (wei_to_brl net_tax);
      Py.map (append "  └─ Vendedor recebe:  ") (wei_to_brl net_seller);
      Ok "";
      Py.map (fun r => "  Alíquota efetiva:    " ++ r ++ "%")
        (format_number_2f (times_100 (effective_rate tax_details)));
      Ok ("  Assinatura:          " ++ abbreviated 20 16 (signature result));
      Ok ("  Oráculo:             " ++ abbreviated 10 8 (signer_address result));
      Ok rule ]%string.

Definition print_simplified_report (result : SignedInvoice) (tax_details : simplified_tax)
    : list string * Py.result unit :=
  prints
    [ Ok "";
      Ok rule;
      Ok "  AUTORIZAÇÃO DE SPLIT SIMPLIFICADO (Art. 33)";
      Ok rule;
      Ok ("  NF-e:                " ++ invoice_id result);
      Ok ("  Vendedor:            " ++ abbreviated 10 8 (seller result));
      Ok ("  Timestamp:           " ++ timestamp result);
      Ok ("  Setor:               " ++ s_sector tax_details);
      Ok "";
      Py.map (append "  Valor bruto:         ") (wei_to_brl (si_gross_amount result));
      Py.map (fun r => "  Alíquota fixa:       " ++ r ++ "%")
        (Py.map (format_2f false) (int_truediv (rate_bps result) 100));
      Py.map (append "  ├─ Tributo retido:   ") (wei_to_brl (s_tax_amount tax_details));
      Py.map (append "  └─ Vendedor recebe:  ") (wei_to_brl (s_net_to_seller tax_details));
      Ok "";
      Ok "  Destino tributo:     Conta de conciliação (repartição a posteriori)";
      Ok ("  Assinatura:          " ++ abbreviated 20 16 (signature result));
      Ok ("  Oráculo:             " ++ abbreviated 10 8 (signer_address result));
      Ok rule ]%string.

End Report.

Import Report.

(* ===================================================================== *)
(** ** 3b. The command-line run *)
(* ===================================================================== *)

Module Cli.

(** A computation that prints: the arguments of its [print] calls so far,
    in order, and its outcome. An exception ends it. *)
Definition out (A : Type) : Type := (list string * result A)%type.

Definition out_bind {A B : Type} (m : out A) (k : A -> out B) : out B :=
  match m with
  | (printed, Ok a) => let '(more, r) := k a in (printed ++ more, r)
  | (printed, Raise e) => (printed, Raise e)
  end.

Definition print (s : string) : out unit := ([s], Ok tt).

Definition lift {A : Type} (r : result A) : out A := ([], r).

(** A method call on the instance held in a local variable. *)
Definition call {A : Type} (m : method A) (self : FiscalOracle)
    : out (A * FiscalOracle) :=
  match m self with
  | (Ok a, self') => ([], Ok (a, self'))
  | (Raise e, _) => ([], Raise e)
  end.

Notation "'run!' x ':=' m 'in' k" := (out_bind m (fun x => k))
  (at level 10, x name, m at level 100, k at level 200).
Notation "'run!' ' p ':=' m 'in' k" := (out_bind m (fun x => let 'p := x in k))
  (at level 10, p strict pattern, m at level 100, k at level 200).

Definition double_rule : string := repeat_char "=" 70.

(** [str(n)] for an [int]. *)
Definition str_int (n : Z) : string :=
  if n <? 0 then ("-" ++ digits (- n))%string else digits n.

(** [Web3.to_wei(n, 'ether')] for an [int] [n]. *)
Definition to_wei_ether (n : Z) : Z := n * 10 ^ 18.

Definition print_header : out unit :=
  prints
    [ Ok "";
      Ok double_rule;
      Ok "  ORÁCULO FISCAL SIMULADO — SEFAZ / RFB";
      Ok "  Split Payment Tributário — LC 214/2025";
      Ok "  Prova de Conceito — Fevereiro/2026";
      Ok double_rule ].

Definition print_fraud_demo (oracle : FiscalOracle) : out unit :=
  prints
    [ Ok "";
      Ok rule;
      Ok "  DEMONSTRAÇÃO DE SEGURANÇA — TENTATIVA DE FRAUDE";
      Ok rule;
      Ok "";
      Ok "  Cenário: Comprador tenta submeter ao contrato inteligente os";
      Ok "  mesmos dados, mas com CBS alterada de R$ 86,50 para R$ 0,00.";
      Ok "";
      Ok "  O que acontece:";
      Ok "  1. O contrato recalcula o hash dos dados RECEBIDOS";
      Ok "  2. Compara com a assinatura do oráculo (dados ORIGINAIS)";
      Ok "  3. Hashes divergem → ECDSA.recover retorna endereço errado";
      Ok "  4. Endereço não tem FISCAL_ORACLE_ROLE → REVERT";
      Ok "";
      Ok "  Resultado: Transação REJEITADA automaticamente.";
      Ok "  Mensagem:  'Assinatura fiscal invalida'";
      Ok "";
      Ok "  Conclusão: Sonegação por inadimplência = tecnicamente impossível";
      Ok rule ].

Section Run.
Context {lib : EthLib}.

(** [main]; [token_hex] is the value drawn by [secrets.token_hex(32)] and
    [now1] .. [now5] are the five readings of the clock. *)
Definition main (token_hex now1 now2 now3 now4 now5 : string) : out unit :=
  run! _ := print_header in
  run! oracle := lift (init None token_hex) in
  run! _ := print (String "010" "  Oráculo inicializado: " ++ address oracle) in
  run! _ := print "  (Registre este endereço no contrato via registerFiscalOracle)" in
  let vendedor := "0x1234567890123456789012345678901234567890" in
  let valor_1 := to_wei_ether 1000 in
  run! tax_1 := lift (calculate_standard valor_1 "PADRAO" 0) in
  run! '(auth_1, oracle) :=
    call (authorize_standard "NFe35260112345678000195550010000000011234567890"
            vendedor valor_1 "PADRAO" 0 now1) oracle in
  run! _ := print_standard_report auth_1 tax_1 in
  let creditos := to_wei_ether 50 in
  run! tax_2 := lift (calculate_standard valor_1 "PADRAO" creditos) in
  run! '(auth_2, oracle) :=
    call (authorize_standard "NFe35260112345678000195550010000000021234567890"
            vendedor valor_1 "PADRAO" creditos now2) oracle in
  run! _ := print_standard_report auth_2 tax_2 in
  run! tax_3 := lift (calculate_standard valor_1 "SAUDE" 0) in
  run! '(auth_3, oracle) :=
    call (authorize_standard "NFe35260112345678000195550010000000031234567890"
            vendedor valor_1 "SAUDE" 0 now3) oracle in
  run! _ := print_standard_report auth_3 tax_3 in
  let valor_4 := to_wei_ether 200 in
  run! tax_4 := lift (calculate_simplified valor_4 "PADRAO") in
  run! '(auth_4, oracle) :=
    call (authorize_simplified "NFe35260112345678000195650010000000041234567890"
            vendedor valor_4 "PADRAO" now4) oracle in
  run! _ := print_simplified_report auth_4 tax_4 in
  run! tax_5 := lift (calculate_simplified valor_4 "CESTA_BASICA") in
  run! '(auth_5, oracle) :=
    call (authorize_simplified "NFe35260112345678000195650010000000051234567890"
            vendedor valor_4 "CESTA_BASICA" now5) oracle in
  run! _ := print_simplified_report auth_5 tax_5 in
  run! _ := print_fraud_demo oracle in
  prints
    [ Ok "";
      Ok double_rule;
      Ok ("  RESUMO: " ++ str_int (signatures_issued oracle)
          ++ " autorizações emitidas pelo oráculo");
      Ok double_rule;
      Ok "" ]%string.

End Run.

End Cli.

Import Cli.

(* ===================================================================== *)
(** ** 3c. Further vocabulary *)
(* ===================================================================== *)

(** The [int] a big-endian byte string denotes. *)
Definition be_value (b : bytes) : Z :=
  fold_left (fun acc x => acc * 256 + Z.of_N (Byte.to_N x)) b 0.

(** A sequence of calls on one instance: the outcome of each call, in
    order, and the instance afterwards. *)
Fixpoint serve_each {lib : EthLib} (rqs : list request) (self : FiscalOracle)
    : list (result SignedInvoice) * FiscalOracle :=
  match rqs with
  | [] => ([], self)
  | rq :: rest =>
      let '(res, self') := serve rq self in
      let '(out, final) := serve_each rest self' in
      (res :: out, final)
  end.

(** How many of a sequence of outcomes are values. *)
Fixpoint returned_calls {A : Type} (outs : list (result A)) : Z :=
  match outs with
  | [] => 0
  | res :: rest => returned res + returned_calls rest
  end.

(** What an authorization repeats of the request it answers. *)
Definition echoes (rq : request) (inv : SignedInvoice) : Prop :=
  match rq with
  | Standard nfe who g sec credits now =>
      invoice_id inv = nfe /\ seller inv = who /\ si_gross_amount inv = g
      /\ timestamp inv = now /\ mode inv = STANDARD /\ rate_bps inv = 0
  | Simplified nfe who g sec now =>
      invoice_id inv = nfe /\ seller inv = who /\ si_gross_amount inv = g
      /\ timestamp inv = now /\ mode inv = SIMPLIFIED
      /\ rate_bps inv = get SIMPLIFIED_RATES_BPS sec 2650
      /\ si_cbs_amount inv = 0 /\ si_ibs_state_amount inv = 0
      /\ si_ibs_city_amount inv = 0 /\ si_credit_offset inv = 0
  end.

(** The text after ["R$ "] for an amount of [n] hundredths. *)
Definition brl_of_cents (n : Z) : string := ("R$ " ++ point2 true n)%string.

(* ===================================================================== *)
(** ** 4. Facts about binary64 rounding *)
(* ===================================================================== *)

Module FloatFacts.


(** *** Number of binary digits *)

Lemma digits2_pos_bounds (p : positive) :
  2 ^ (Zpos (digits2_pos p) - 1) <= Zpos p < 2 ^ Zpos (digits2_pos p).
Proof.
  induction p as [p IH | p IH |]; cbn [digits2_pos].
  - rewrite Pos2Z.inj_succ.
    replace (Z.succ (Zpos (digits2_pos p)) - 1) with (Z.succ (Zpos (digits2_pos p) - 1)) by lia.
    rewrite !Z.pow_succ_r by lia. lia.
  - rewrite Pos2Z.inj_succ.
    replace (Z.succ (Zpos (digits2_pos p)) - 1) with (Z.succ (Zpos (digits2_pos p) - 1)) by lia.
    rewrite !Z.pow_succ_r by lia. lia.
  - cbn. lia.
Qed.

Lemma Zdigits2_bounds (m : Z) :
  0 < m -> 2 ^ (Zdigits2 m - 1) <= m < 2 ^ Zdigits2 m.
Proof.
  destruct m as [| p | p]; try lia. intros _. apply digits2_pos_bounds.
Qed.

Lemma Zdigits2_pos (m : Z) : 0 < m -> 0 < Zdigits2 m.
Proof. destruct m; cbn; lia. Qed.

Lemma Zdigits2_nonneg (m : Z) : 0 <= m -> 0 <= Zdigits2 m.
Proof. destruct m; cbn; lia. Qed.

(** The digit count is determined by the enclosing powers of two. *)
Lemma Zdigits2_unique (m d : Z) :
  2 ^ (d - 1) <= m < 2 ^ d -> 0 < m -> Zdigits2 m = d.
Proof.
  intros [Hlo Hhi] Hm.
  pose proof (Zdigits2_bounds m Hm) as [Hl Hh].
  pose proof (Zdigits2_pos m Hm) as Hd.
  assert (Hdpos : 0 < d).
  { destruct (Z_lt_le_dec 0 d) as [|Hle]; [assumption|].
    exfalso. destruct (Z.eq_dec d 0) as [->|Hne].
    - cbn in Hhi. lia.
    - rewrite (Z.pow_neg_r 2 d) in Hhi by lia. lia. }
  destruct (Z.lt_trichotomy (Zdigits2 m) d) as [Hlt | [Heq | Hgt]]; [|assumption|].
  - exfalso.
    assert (2 ^ Zdigits2 m <= 2 ^ (d - 1)) by (apply Z.pow_le_mono_r; lia). lia.
  - exfalso.
    assert (2 ^ d <= 2 ^ (Zdigits2 m - 1)) by (apply Z.pow_le_mono_r; lia). lia.
Qed.

Lemma Zdigits2_le (m d : Z) : 0 <= d -> 0 <= m < 2 ^ d -> Zdigits2 m <= d.
Proof.
  intros Hd [Hm Hhi].
  destruct (Z.eq_dec m 0) as [->|Hne]; [cbn; lia|].
  pose proof (Zdigits2_bounds m ltac:(lia)) as [Hl _].
  destruct (Z_le_gt_dec (Zdigits2 m) d) as [|Hgt]; [assumption|].
  exfalso.
  assert (2 ^ d <= 2 ^ (Zdigits2 m - 1)) by (apply Z.pow_le_mono_r; lia). lia.
Qed.

(** *** Iterated right shift with guard and sticky bits *)

Lemma iter_pos_nat {A : Type} (f : A -> A) (p : positive) (x : A) :
  SpecFloat.iter_pos f p x = Nat.iter (Pos.to_nat p) f x.
Proof.
  revert x. induction p as [p IH | p IH |]; intros x; cbn [SpecFloat.iter_pos].
  - rewrite !IH. rewrite Pos2Nat.inj_xI.
    replace (S (2 * Pos.to_nat p))%nat with (Pos.to_nat p + (Pos.to_nat p + 1))%nat by lia.
    rewrite !Nat.iter_add. reflexivity.
  - rewrite !IH. rewrite Pos2Nat.inj_xO.
    replace (2 * Pos.to_nat p)%nat with (Pos.to_nat p + Pos.to_nat p)%nat by lia.
    rewrite Nat.iter_add. reflexivity.
  - reflexivity.
Qed.

Lemma shr_1_m (r : shr_record) :
  0 <= shr_m r -> shr_m (shr_1 r) = shr_m r / 2.
Proof.
  destruct r as [m g s]; cbn [shr_m]. intros Hm.
  destruct m as [| [p | p |] | p]; cbn [shr_1 shr_m]; try lia.
  - reflexivity.
  - apply Z.div_unique with (r := 1); [lia | rewrite (Pos2Z.inj_xI p); lia].
  - apply Z.div_unique with (r := 0); [lia | rewrite (Pos2Z.inj_xO p); lia].
  - reflexivity.
Qed.

Lemma shr_1_r (r : shr_record) :
  0 <= shr_m r -> shr_r (shr_1 r) = Z.odd (shr_m r).
Proof.
  destruct r as [m g s]; cbn [shr_m]. intros Hm.
  destruct m as [| [p | p |] | p]; cbn [shr_1 shr_r]; try reflexivity; lia.
Qed.

Lemma shr_1_s (r : shr_record) :
  shr_s (shr_1 r) = shr_r r || shr_s r.
Proof.
  destruct r as [m g s].
  destruct m as [| [p | p |] | [p | p |]]; reflexivity.
Qed.

Lemma iter_shr_m (k : nat) (r : shr_record) :
  0 <= shr_m r ->
  shr_m (Nat.iter k shr_1 r) = shr_m r / 2 ^ Z.of_nat k.
Proof.
  intros Hm. induction k as [| k IH].
  - cbn. rewrite Z.div_1_r. reflexivity.
  - change (Nat.iter (S k) shr_1 r) with (shr_1 (Nat.iter k shr_1 r)).
    rewrite shr_1_m.
    + rewrite IH, Nat2Z.inj_succ, Z.pow_succ_r by lia.
      rewrite Z.div_div by lia. f_equal. lia.
    + rewrite IH. apply Z.div_pos; lia.
Qed.

Lemma shr_record_of_loc_m (m : Z) (l : location) :
  shr_m (shr_record_of_loc m l) = m.
Proof. destruct l as [| []]; reflexivity. Qed.

(** [shr] divides the mantissa by [2 ^ n]; the guard bit afterwards is the
    last bit shifted out. *)
Lemma shr_spec (r : shr_record) (e n : Z) :
  0 <= shr_m r ->
  exists r',
    shr r e n = (r', e + Z.max 0 n)
    /\ shr_m r' = shr_m r / 2 ^ Z.max 0 n
    /\ (n <= 0 -> r' = r)
    /\ (0 < n -> shr_r r' = Z.odd (shr_m r / 2 ^ (n - 1))).
Proof.
  intros Hm. destruct n as [| p | p]; cbn [shr].
  - exists r. rewrite Z.max_id, Z.add_0_r. cbn. rewrite Z.div_1_r.
    repeat split; auto; lia.
  - exists (SpecFloat.iter_pos shr_1 p r).
    replace (Z.max 0 (Zpos p)) with (Zpos p) by lia.
    rewrite iter_pos_nat.
    repeat split.
    + rewrite iter_shr_m by assumption. rewrite positive_nat_Z. reflexivity.
    + lia.
    + intros _. destruct (Pos2Nat.is_succ p) as [k Hk]. rewrite Hk.
      change (Nat.iter (S k) shr_1 r) with (shr_1 (Nat.iter k shr_1 r)).
      rewrite shr_1_r, iter_shr_m by (try rewrite iter_shr_m by assumption;
                                      try apply Z.div_pos; lia).
      f_equal. f_equal. f_equal. lia.
  - exists r. replace (Z.max 0 (Zneg p)) with 0 by lia.
    rewrite Z.add_0_r. cbn. rewrite Z.div_1_r. repeat split; auto; lia.
Qed.

Lemma round_nearest_even_cases (m : Z) (l : location) :
  round_nearest_even m l = m \/ round_nearest_even m l = m + 1.
Proof.
  destruct l as [| []]; cbn; auto. destruct (Z.even m); auto.
Qed.

Lemma round_nearest_even_down (r : shr_record) :
  shr_r r = false ->
  round_nearest_even (shr_m r) (loc_of_shr_record r) = shr_m r.
Proof. destruct r as [m g s]; cbn. intros ->. destruct s; reflexivity. Qed.

(** A half not reached leaves the last bit shifted out clear. *)
Lemma below_half_even (m n : Z) :
  0 < n -> 0 <= m -> m mod 2 ^ n < 2 ^ (n - 1) ->
  Z.odd (m / 2 ^ (n - 1)) = false.
Proof.
  intros Hn Hm Hlt.
  assert (Hp : 0 < 2 ^ (n - 1)) by (apply Z.pow_pos_nonneg; lia).
  assert (Hpow : 2 ^ n = 2 ^ (n - 1) * 2).
  { replace n with (Z.succ (n - 1)) at 1 by lia. rewrite Z.pow_succ_r by lia. lia. }
  pose proof (Z.div_mod m (2 ^ n) ltac:(lia)) as Hdm.
  pose proof (Z.mod_pos_bound m (2 ^ n) ltac:(lia)) as Hb.
  assert (Hq : m / 2 ^ (n - 1) = 2 * (m / 2 ^ n)).
  { symmetry. apply Z.div_unique with (r := m mod 2 ^ n); [lia|].
    rewrite Hdm at 1. rewrite Hpow. lia. }
  rewrite Hq. rewrite Z.odd_mul. reflexivity.
Qed.

(** [binary_round_aux] on a non-negative mantissa: one alignment shift by
    [n1], a rounding step that adds 0 or 1, and a second alignment shift
    by [n2]. *)
Lemma binary_round_aux_spec (s : bool) (m e : Z) (lx : location) :
  0 <= m ->
  let n1 := Z.max 0 (fexp prec emax (Zdigits2 m + e) - e) in
  exists m1,
    (m1 = m / 2 ^ n1 \/ m1 = m / 2 ^ n1 + 1)
    /\ (lx = loc_Exact -> n1 = 0 \/ m mod 2 ^ n1 < 2 ^ (n1 - 1) ->
        m1 = m / 2 ^ n1)
    /\ let e1 := e + n1 in
       let n2 := Z.max 0 (fexp prec emax (Zdigits2 m1 + e1) - e1) in
       binary_round_aux prec emax s m e lx = finish s (m1 / 2 ^ n2) (e1 + n2).
Proof.
  intros Hm n1.
  unfold binary_round_aux, shr_fexp.
  destruct (shr_spec (shr_record_of_loc m lx) e
              (fexp prec emax (Zdigits2 m + e) - e)) as (r1 & E1 & Hm1 & Hid1 & Hr1).
  { rewrite shr_record_of_loc_m. assumption. }
  rewrite E1. rewrite shr_record_of_loc_m in Hm1, Hr1. fold n1 in Hm1 |- *.
  set (m1 := round_nearest_even (shr_m r1) (loc_of_shr_record r1)).
  assert (Hq : 0 <= shr_m r1).
  { rewrite Hm1. apply Z.div_pos; [assumption|]. apply Z.pow_pos_nonneg; lia. }
  assert (Hm1nn : 0 <= m1).
  { destruct (round_nearest_even_cases (shr_m r1) (loc_of_shr_record r1)) as [H|H];
      fold m1 in H; lia. }
  exists m1. split; [|split].
  - rewrite <- Hm1. apply round_nearest_even_cases.
  - intros -> Hcase. rewrite <- Hm1. unfold m1.
    destruct (Z_le_gt_dec (fexp prec emax (Zdigits2 m + e) - e) 0) as [Hle|Hgt].
    + rewrite (Hid1 Hle). reflexivity.
    + apply round_nearest_even_down. rewrite Hr1 by lia.
      destruct Hcase as [H0|Hlt]; [unfold n1 in H0; lia|].
      replace (fexp prec emax (Zdigits2 m + e) - e) with n1 by (unfold n1; lia).
      apply below_half_even; [unfold n1; lia | assumption | assumption].
  - cbv zeta.
    destruct (shr_spec (shr_record_of_loc m1 loc_Exact) (e + n1)
                (fexp prec emax (Zdigits2 m1 + (e + n1)) - (e + n1)))
      as (r2 & E2 & Hm2 & _ & _).
    { cbn. assumption. }
    rewrite E2. cbn [shr_record_of_loc shr_m] in Hm2. rewrite Hm2.
    reflexivity.
Qed.

Lemma fexp_normal (x : Z) : -1021 <= x -> fexp prec emax x = x - 53.
Proof. unfold fexp, emin, prec, emax. lia. Qed.

Lemma pow2_split (a b : Z) : 0 <= a -> 0 <= b -> 2 ^ (a + b) = 2 ^ a * 2 ^ b.
Proof. intros. apply Z.pow_add_r; assumption. Qed.

(** Dropping the low [d - 53] bits of a [d]-digit number leaves 53 digits. *)
Lemma div_pow2_53 (m : Z) :
  0 < m -> 53 < Zdigits2 m ->
  2 ^ 52 <= m / 2 ^ (Zdigits2 m - 53) < 2 ^ 53.
Proof.
  intros Hm Hd.
  pose proof (Zdigits2_bounds m Hm) as [Hlo Hhi].
  assert (Hp : 0 < 2 ^ (Zdigits2 m - 53)) by (apply Z.pow_pos_nonneg; lia).
  split.
  - apply Z.div_le_lower_bound; [assumption|].
    rewrite Z.mul_comm, <- pow2_split by lia.
    replace (52 + (Zdigits2 m - 53)) with (Zdigits2 m - 1) by lia. assumption.
  - apply Z.div_lt_upper_bound; [assumption|].
    rewrite Z.mul_comm, <- pow2_split by lia.
    replace (53 + (Zdigits2 m - 53)) with (Zdigits2 m) by lia. assumption.
Qed.

(** Rounding in the normal range: the mantissa loses its low [n1] bits, is
    incremented or not, and is renormalised when the increment carries
    into a 54th bit. An exact value below the half-way point is rounded
    down. *)
Lemma round_normal (s : bool) (m e : Z) (lx : location) :
  0 < m -> -1074 <= Zdigits2 m + e - 53 ->
  let n1 := Z.max 0 (Zdigits2 m - 53) in
  let q := m / 2 ^ n1 in
  exists m1,
    (m1 = q \/ m1 = q + 1)
    /\ (lx = loc_Exact -> n1 = 0 \/ m mod 2 ^ n1 < 2 ^ (n1 - 1) -> m1 = q)
    /\ binary_round_aux prec emax s m e lx =
         if m1 <? 2 ^ 53 then finish s m1 (e + n1)
         else finish s (2 ^ 52) (e + n1 + 1).
Proof.
  intros Hm Hnorm n1 q.
  destruct (binary_round_aux_spec s m e lx ltac:(lia))
    as (m1 & Hcases & Hdown & Heq).
  cbv zeta in Heq.
  rewrite (fexp_normal (Zdigits2 m + e)) in Hcases, Hdown, Heq by lia.
  replace (Zdigits2 m + e - 53 - e) with (Zdigits2 m - 53) in Hcases, Hdown, Heq by lia.
  fold n1 in Hcases, Hdown, Heq. fold q in Hcases, Hdown.
  exists m1. split; [assumption|]. split; [auto|].
  rewrite Heq. clear Heq.
  pose proof (Zdigits2_bounds m Hm) as [Hlo Hhi].
  assert (Hq : 0 < q < 2 ^ 53 /\ (53 <= Zdigits2 m -> 2 ^ 52 <= q)).
  { destruct (Z_le_gt_dec (Zdigits2 m) 53) as [Hle|Hgt].
    - assert (Hn1 : n1 = 0) by (unfold n1; lia).
      unfold q. rewrite Hn1. cbn [Z.pow]. rewrite Z.div_1_r.
      assert (2 ^ Zdigits2 m <= 2 ^ 53) by (apply Z.pow_le_mono_r; lia).
      split; [lia|]. intros H53. replace (Zdigits2 m) with 53 in Hlo by lia.
      exact Hlo.
    - assert (Hn1 : n1 = Zdigits2 m - 53) by (unfold n1; lia).
      pose proof (div_pow2_53 m Hm ltac:(lia)) as Hq.
      rewrite <- Hn1 in Hq. fold q in Hq. lia. }
  destruct Hq as [Hq _].
  assert (He1 : -1074 <= e + n1) by (unfold n1; lia).
  destruct (Z.ltb_spec m1 (2 ^ 53)) as [Hlt|Hge].
  - assert (Hd1 : Zdigits2 m1 <= 53) by (apply Zdigits2_le; lia).
    replace (Z.max 0 (fexp prec emax (Zdigits2 m1 + (e + n1)) - (e + n1))) with 0
      by (unfold fexp, emin, prec, emax; lia).
    cbn [Z.pow]. rewrite Z.div_1_r, Z.add_0_r. reflexivity.
  - assert (Hm1 : m1 = 2 ^ 53) by lia.
    assert (Hd1 : Zdigits2 m1 = 54) by (rewrite Hm1; reflexivity).
    rewrite Hd1, (fexp_normal (54 + (e + n1))) by lia.
    replace (Z.max 0 (54 + (e + n1) - 53 - (e + n1))) with 1 by lia.
    rewrite Hm1. f_equal; lia.
Qed.

Lemma round_exact (s : bool) (m e : Z) :
  0 < m -> -1074 <= Zdigits2 m + e - 53 ->
  let n1 := Z.max 0 (Zdigits2 m - 53) in
  let q := m / 2 ^ n1 in
  exists m1,
    (m1 = q \/ m1 = q + 1)
    /\ (n1 = 0 \/ m mod 2 ^ n1 < 2 ^ (n1 - 1) -> m1 = q)
    /\ binary_round_aux prec emax s m e loc_Exact =
         if m1 <? 2 ^ 53 then finish s m1 (e + n1)
         else finish s (2 ^ 52) (e + n1 + 1).
Proof.
  intros Hm Hnorm n1 q.
  destruct (round_normal s m e loc_Exact Hm Hnorm) as (m1 & Hc & Hd & Heq).
  exists m1. auto.
Qed.

Lemma pos_iter_xO (p k : positive) :
  Zpos (Pos.iter xO p k) = Zpos p * 2 ^ Zpos k.
Proof.
  induction k as [| k IH] using Pos.peano_ind.
  - cbn. lia.
  - rewrite Pos.iter_succ, Pos2Z.inj_xO, IH, Pos2Z.inj_succ, Z.pow_succ_r by lia.
    lia.
Qed.

(** [float(g)] for a positive [g] below the overflow threshold: a
    normalised double within a relative error of [2 ^ -52] of [g]. *)
Lemma float_of_int_pos (g : Z) :
  0 < g < float_limit ->
  exists mg eg,
    float_of_int g = Ok (S754_finite false mg eg)
    /\ 2 ^ 52 <= Zpos mg < 2 ^ 53
    /\ -52 <= eg <= 971
    /\ (2 ^ 52 - 1) * (g * 2 ^ 52) <= 2 ^ 52 * (Zpos mg * 2 ^ (eg + 52))
       <= (2 ^ 52 + 1) * (g * 2 ^ 52).
Proof.
  intros [Hpos Hlim]. destruct g as [| p | p]; try lia.
  unfold float_of_int, binary_normalize, binary_round.
  set (d := Zpos (digits2_pos p)).
  pose proof (digits2_pos_bounds p) as [Hlo Hhi]. fold d in Hlo, Hhi.
  assert (Hd : 1 <= d) by (unfold d; lia).
  assert (Hd1024 : d <= 1024).
  { destruct (Z_le_gt_dec d 1024) as [|Hgt]; [assumption|]. exfalso.
    assert (2 ^ 1024 <= 2 ^ (d - 1)) by (apply Z.pow_le_mono_r; lia).
    unfold float_limit in Hlim. lia. }
  rewrite (fexp_normal (d + 0)) by lia.
  unfold shl_align.
  destruct (d + 0 - 53 - 0) as [| k | k] eqn:Hk.
  - (* exactly 53 digits *)
    destruct (round_exact false (Zpos p) 0 Hpos) as (m1 & _ & Hdown & Heq).
    { cbn [Zdigits2]. fold d. lia. }
    cbn [Zdigits2] in Hdown, Heq. fold d in Hdown, Heq.
    replace (Z.max 0 (d - 53)) with 0 in Hdown, Heq by lia.
    rewrite (Hdown (or_introl eq_refl)) in Heq.
    cbn [Z.pow] in Heq. rewrite Z.div_1_r in Heq.
    assert (Hd53 : d = 53) by lia. rewrite Hd53 in Hlo, Hhi.
    destruct (Z.ltb_spec (Zpos p) (2 ^ 53)); [|lia].
    rewrite Heq. cbn.
    exists p, 0. repeat split; lia.
  - (* more than 53 digits: the low bits are rounded away *)
    assert (Hn1 : Z.max 0 (d - 53) = d - 53) by lia.
    destruct (round_exact false (Zpos p) 0 Hpos) as (m1 & Hcases & Hdown & Heq).
    { cbn [Zdigits2]. fold d. lia. }
    cbn [Zdigits2] in Hcases, Hdown, Heq. fold d in Hcases, Hdown, Heq.
    rewrite Hn1 in Hcases, Hdown, Heq.
    pose proof (div_pow2_53 (Zpos p) Hpos) as Hq.
    cbn [Zdigits2] in Hq. fold d in Hq. specialize (Hq ltac:(lia)).
    set (n1 := d - 53) in *. set (q := Zpos p / 2 ^ n1) in *.
    assert (HA : 0 < 2 ^ n1) by (apply Z.pow_pos_nonneg; unfold n1; lia).
    assert (HqA : q * 2 ^ n1 <= Zpos p < q * 2 ^ n1 + 2 ^ n1).
    { pose proof (Z.div_mod (Zpos p) (2 ^ n1) ltac:(lia)) as Hdm.
      pose proof (Z.mod_pos_bound (Zpos p) (2 ^ n1) HA) as Hmb.
      fold q in Hdm. lia. }
    assert (HgA : 2 ^ 52 * 2 ^ n1 <= Zpos p).
    { rewrite <- pow2_split by (unfold n1; lia).
      replace (52 + n1) with (d - 1) by (unfold n1; lia). assumption. }
    assert (Hm1A : Zpos p - 2 ^ n1 <= m1 * 2 ^ n1 <= Zpos p + 2 ^ n1) by nia.
    assert (Hbound : (2 ^ 52 - 1) * (Zpos p * 2 ^ 52)
                     <= 2 ^ 52 * (m1 * 2 ^ n1 * 2 ^ 52)
                     <= (2 ^ 52 + 1) * (Zpos p * 2 ^ 52)).
    { set (A := 2 ^ n1) in *. set (X := m1 * A) in *. lia. }
    rewrite Heq. clear Heq.
    destruct (Z.ltb_spec m1 (2 ^ 53)) as [Hlt|Hge].
    + assert (Hm1pos : 0 < m1) by lia.
      destruct m1 as [| m1p | m1p]; try lia.
      unfold finish. replace (0 + n1 <=? emax - prec) with true
        by (symmetry; apply Z.leb_le; unfold emax, prec, n1; lia).
      exists m1p, (0 + n1).
      replace (0 + n1 + 52) with (n1 + 52) by lia.
      rewrite pow2_split by (unfold n1; lia).
      replace (Zpos m1p * (2 ^ n1 * 2 ^ 52)) with (Zpos m1p * 2 ^ n1 * 2 ^ 52) by lia.
      repeat split; try (unfold n1; lia); apply Hbound.
    + assert (Hm1 : m1 = q + 1) by lia.
      assert (Hq53 : q = 2 ^ 53 - 1) by lia.
      assert (Hd1023 : d <= 1023).
      { destruct (Z_le_gt_dec d 1023) as [|Hgt]; [assumption|]. exfalso.
        assert (Hd' : d = 1024) by lia.
        assert (Hn : n1 = 971) by (unfold n1; lia).
        assert (Hdown' : m1 = q).
        { apply Hdown. right. rewrite Z.mod_eq by lia. fold q.
          rewrite Hn in *. rewrite Hq53. unfold float_limit in Hlim.
          change (971 - 1) with 970. lia. }
        lia. }
      unfold finish. change (2 ^ 52) with (Zpos (2 ^ 52)%positive) at 1.
      cbv iota.
      replace (0 + n1 + 1 <=? emax - prec) with true
        by (symmetry; apply Z.leb_le; unfold emax, prec, n1; lia).
      exists (2 ^ 52)%positive, (0 + n1 + 1).
      replace (0 + n1 + 1 + 52) with (1 + (n1 + 52)) by lia.
      rewrite (pow2_split 1), pow2_split by (unfold n1; lia).
      change (Zpos (2 ^ 52)%positive) with (2 ^ 52).
      assert (Hm1' : m1 = 2 ^ 52 * 2 ^ 1) by lia.
      rewrite Hm1' in Hbound.
      replace (2 ^ 52 * (2 ^ 1 * (2 ^ n1 * 2 ^ 52)))
        with (2 ^ 52 * 2 ^ 1 * 2 ^ n1 * 2 ^ 52) by lia.
      repeat split; try (unfold n1; lia); try (cbn; lia); apply Hbound.
  - (* fewer than 53 digits: the mantissa is padded with zeros *)
    assert (Hk' : Zpos k = 53 - d) by lia.
    pose proof (pos_iter_xO p k) as Hmz.
    set (mz := Pos.iter xO p k) in *.
    assert (Hbounds : 2 ^ 52 <= Zpos mz < 2 ^ 53).
    { rewrite Hmz, Hk'. split.
      - replace 52 with ((d - 1) + (53 - d)) by lia.
        rewrite pow2_split by lia.
        apply Z.mul_le_mono_nonneg_r; [apply Z.pow_nonneg; lia | assumption].
      - replace 53 with (d + (53 - d)) at 2 by lia.
        rewrite pow2_split by lia.
        apply Z.mul_lt_mono_pos_r; [apply Z.pow_pos_nonneg; lia | assumption]. }
    assert (Hdz : Zdigits2 (Zpos mz) = 53).
    { apply Zdigits2_unique; [change (53 - 1) with 52|]; lia. }
    destruct (round_exact false (Zpos mz) (d + 0 - 53) ltac:(lia))
      as (m1 & _ & Hdown & Heq).
    { rewrite Hdz. lia. }
    rewrite Hdz in Hdown, Heq. change (Z.max 0 (53 - 53)) with 0 in Hdown, Heq.
    rewrite (Hdown (or_introl eq_refl)) in Heq.
    cbn [Z.pow] in Heq. rewrite Z.div_1_r in Heq.
    destruct (Z.ltb_spec (Zpos mz) (2 ^ 53)); [|lia].
    rewrite Heq. unfold finish.
    replace (d + 0 - 53 + 0 <=? emax - prec) with true
      by (symmetry; apply Z.leb_le; unfold emax, prec; lia).
    exists mz, (d + 0 - 53 + 0).
    assert (Hexact : Zpos mz * 2 ^ (d + 0 - 53 + 0 + 52) = Zpos p * 2 ^ 52).
    { rewrite Hmz, Hk'.
      replace (d + 0 - 53 + 0 + 52) with (d - 1) by lia.
      rewrite <- Z.mul_assoc, <- pow2_split by lia.
      f_equal. f_equal. lia. }
    rewrite Hexact. repeat split; lia.
Qed.

(** Truncating [m * 2 ^ e] never exceeds it (both scaled by [2 ^ K]). *)
Lemma shiftl_scaled_le (m e K : Z) :
  0 <= m -> 0 <= K -> 0 <= e + K ->
  Z.shiftl m e * 2 ^ K <= m * 2 ^ (e + K).
Proof.
  intros Hm HK HeK. destruct (Z_le_gt_dec 0 e) as [He|He].
  - rewrite Z.shiftl_mul_pow2 by assumption.
    rewrite pow2_split by assumption. lia.
  - rewrite Z.shiftl_div_pow2 by lia.
    assert (Hp : 0 < 2 ^ (- e)) by (apply Z.pow_pos_nonneg; lia).
    assert (Hq : 0 <= 2 ^ (e + K)) by (apply Z.pow_nonneg; lia).
    replace K with (- e + (e + K)) at 1 by lia.
    rewrite pow2_split by lia.
    pose proof (Z.mul_div_le m (2 ^ (- e)) Hp) as Hle.
    rewrite Z.mul_assoc.
    apply Z.mul_le_mono_nonneg_r; [assumption|]. lia.
Qed.

Lemma shiftl_nonneg (m e : Z) : 0 <= m -> 0 <= Z.shiftl m e.
Proof. intros. apply Z.shiftl_nonneg. assumption. Qed.

(** Truncation loses less than one unit. *)
Lemma shiftl_scaled_ge (m e K : Z) :
  0 <= m -> 0 <= K -> 0 <= e + K ->
  m * 2 ^ (e + K) <= (Z.shiftl m e + 1) * 2 ^ K.
Proof.
  intros Hm HK HeK.
  assert (HK' : 0 < 2 ^ K) by (apply Z.pow_pos_nonneg; lia).
  destruct (Z_le_gt_dec 0 e) as [He|He].
  - rewrite Z.shiftl_mul_pow2 by assumption.
    rewrite pow2_split by assumption. lia.
  - rewrite Z.shiftl_div_pow2 by lia.
    assert (Hp : 0 < 2 ^ (- e)) by (apply Z.pow_pos_nonneg; lia).
    assert (Hq : 0 <= 2 ^ (e + K)) by (apply Z.pow_nonneg; lia).
    assert (HKs : 2 ^ K = 2 ^ (- e) * 2 ^ (e + K)).
    { rewrite <- pow2_split by lia. f_equal. lia. }
    rewrite HKs.
    pose proof (Z.div_mod m (2 ^ (- e)) ltac:(lia)) as Hdm.
    pose proof (Z.mod_pos_bound m (2 ^ (- e)) Hp) as Hmb.
    rewrite Z.mul_assoc.
    apply Z.mul_le_mono_nonneg_r; [assumption|]. lia.
Qed.

(** The product of a normalised double with a normalised rate below one,
    truncated to an integer: within a relative error of [2 ^ -52] and one
    unit of the exact product. *)
Lemma int_of_mul (mg mr : positive) (eg er : Z) :
  2 ^ 52 <= Zpos mg < 2 ^ 53 -> -52 <= eg <= 971 ->
  2 ^ 52 <= Zpos mr < 2 ^ 53 -> -1000 <= er <= -54 ->
  exists T,
    int_of_float (float_mul (S754_finite false mg eg) (S754_finite false mr er)) = Ok T
    /\ 0 <= T
    /\ 2 ^ 52 * (T * 2 ^ (52 - er))
         <= (2 ^ 52 + 1) * (Zpos mg * 2 ^ (eg + 52) * Zpos mr)
    /\ (2 ^ 52 - 1) * (Zpos mg * 2 ^ (eg + 52) * Zpos mr)
         <= 2 ^ 52 * ((T + 1) * 2 ^ (52 - er)).
Proof.
  intros Hmg Heg Hmr Her.
  unfold float_mul, SFmul. cbn [xorb].
  rewrite Pos2Z.inj_mul.
  set (P := Zpos mg * Zpos mr).
  assert (HP : 2 ^ 104 <= P < 2 ^ 106).
  { unfold P. change (2 ^ 104) with (2 ^ 52 * 2 ^ 52).
    change (2 ^ 106) with (2 ^ 53 * 2 ^ 53). nia. }
  assert (HPpos : 0 < P) by lia.
  assert (Hd : 105 <= Zdigits2 P <= 106).
  { split.
    - destruct (Z_le_gt_dec 105 (Zdigits2 P)) as [|Hgt]; [assumption|]. exfalso.
      pose proof (Zdigits2_bounds P HPpos) as [_ Hhi].
      assert (2 ^ Zdigits2 P <= 2 ^ 104).
      { apply Z.pow_le_mono_r; [lia|]. lia. }
      lia.
    - apply Zdigits2_le; lia. }
  destruct (round_exact false P (eg + er) HPpos ltac:(lia))
    as (m1 & Hcases & _ & Heq).
  assert (Hn1 : Z.max 0 (Zdigits2 P - 53) = Zdigits2 P - 53) by lia.
  rewrite Hn1 in Hcases, Heq.
  pose proof (div_pow2_53 P HPpos ltac:(lia)) as Hq.
  pose proof (Zdigits2_bounds P HPpos) as [HPlo _].
  set (n1 := Zdigits2 P - 53) in *. set (q := P / 2 ^ n1) in *.
  assert (HA : 0 < 2 ^ n1) by (apply Z.pow_pos_nonneg; unfold n1; lia).
  assert (HqA : q * 2 ^ n1 <= P < q * 2 ^ n1 + 2 ^ n1).
  { pose proof (Z.div_mod P (2 ^ n1) ltac:(lia)) as Hdm.
    pose proof (Z.mod_pos_bound P (2 ^ n1) HA) as Hmb.
    fold q in Hdm. lia. }
  assert (HgA : 2 ^ 52 * 2 ^ n1 <= P).
  { rewrite <- pow2_split by (unfold n1; lia).
    replace (52 + n1) with (Zdigits2 P - 1) by (unfold n1; lia). assumption. }
  assert (Hm1A : P - 2 ^ n1 <= m1 * 2 ^ n1 <= P + 2 ^ n1) by nia.
  assert (HB : 0 < 2 ^ (eg + 52)) by (apply Z.pow_pos_nonneg; lia).
  (* the rounded value, scaled, is within [(1 +- 2^-52) * P] *)
  assert (Hval : (2 ^ 52 - 1) * (P * 2 ^ (eg + 52))
                 <= 2 ^ 52 * (m1 * 2 ^ n1 * 2 ^ (eg + 52))
                 <= (2 ^ 52 + 1) * (P * 2 ^ (eg + 52))).
  { set (A := 2 ^ n1) in *. set (B := 2 ^ (eg + 52)) in *.
    set (X := m1 * A) in *.
    assert ((2 ^ 52 - 1) * P <= 2 ^ 52 * X <= (2 ^ 52 + 1) * P) by lia.
    replace (2 ^ 52 * (X * B)) with (2 ^ 52 * X * B) by lia.
    replace ((2 ^ 52 + 1) * (P * B)) with ((2 ^ 52 + 1) * P * B) by lia.
    replace ((2 ^ 52 - 1) * (P * B)) with ((2 ^ 52 - 1) * P * B) by lia.
    split; apply Z.mul_le_mono_nonneg_r; lia. }
  replace (Zpos mg * 2 ^ (eg + 52) * Zpos mr) with (P * 2 ^ (eg + 52))
    by (unfold P; lia).
  (* whichever way the mantissa is renormalised, the value is [m1 * 2^n1] *)
  assert (Hfin : exists m2 e2,
             (if m1 <? 2 ^ 53 then finish false m1 (eg + er + n1)
              else finish false (2 ^ 52) (eg + er + n1 + 1))
             = S754_finite false m2 e2
             /\ 0 <= e2 + (52 - er)
             /\ Zpos m2 * 2 ^ (e2 + (52 - er)) = m1 * 2 ^ n1 * 2 ^ (eg + 52)).
  { destruct (Z.ltb_spec m1 (2 ^ 53)) as [Hlt|Hge].
    - destruct m1 as [| m1p | m1p]; try lia.
      unfold finish. replace (eg + er + n1 <=? emax - prec) with true
        by (symmetry; apply Z.leb_le; unfold emax, prec, n1; lia).
      exists m1p, (eg + er + n1). split; [reflexivity|].
      split; [unfold n1; lia|].
      replace (eg + er + n1 + (52 - er)) with (n1 + (eg + 52)) by lia.
      rewrite pow2_split by (unfold n1; lia). lia.
    - assert (Hm1 : m1 = 2 ^ 52 * 2 ^ 1) by lia.
      unfold finish. change (2 ^ 52) with (Zpos (2 ^ 52)%positive) at 1.
      cbv iota.
      replace (eg + er + n1 + 1 <=? emax - prec) with true
        by (symmetry; apply Z.leb_le; unfold emax, prec, n1; lia).
      exists (2 ^ 52)%positive, (eg + er + n1 + 1). split; [reflexivity|].
      split; [unfold n1; lia|].
      replace (eg + er + n1 + 1 + (52 - er)) with (1 + (n1 + (eg + 52))) by lia.
      rewrite (pow2_split 1), pow2_split by (unfold n1; lia).
      change (Zpos (2 ^ 52)%positive) with (2 ^ 52). rewrite Hm1. lia. }
  rewrite Heq. clear Heq.
  destruct Hfin as (m2 & e2 & -> & He2 & Hm2).
  cbn [int_of_float cond_Zopp].
  eexists. split; [reflexivity|]. split; [apply shiftl_nonneg; lia|].
  pose proof (shiftl_scaled_le (Zpos m2) e2 (52 - er)
                ltac:(lia) ltac:(lia) He2) as Hle.
  pose proof (shiftl_scaled_ge (Zpos m2) e2 (52 - er)
                ltac:(lia) ltac:(lia) He2) as Hge.
  rewrite Hm2 in Hle, Hge.
  set (T := Z.shiftl (Zpos m2) e2) in *.
  set (V := m1 * 2 ^ n1 * 2 ^ (eg + 52)) in *.
  set (TK := T * 2 ^ (52 - er)) in *.
  set (TK1 := (T + 1) * 2 ^ (52 - er)) in *.
  lia.
Qed.

Lemma Zdigits2_mono (a b : Z) : 0 <= a <= b -> Zdigits2 a <= Zdigits2 b.
Proof.
  intros [Ha Hab].
  destruct (Z.eq_dec b 0) as [->|Hb].
  - replace a with 0 by lia. lia.
  - apply Zdigits2_le; [apply Zdigits2_nonneg; lia|].
    pose proof (Zdigits2_bounds b ltac:(lia)). lia.
Qed.

(** Whatever the rounding direction, a non-negative mantissa yields a
    zero or a finite number of the requested sign as long as the target
    exponent leaves room for one carry. *)
Lemma binary_round_aux_finite (s : bool) (m e : Z) (lx : location) :
  0 <= m ->
  Z.max e (fexp prec emax (Zdigits2 m + e)) + 1 <= emax - prec ->
  binary_round_aux prec emax s m e lx = S754_zero s
  \/ exists p e2, binary_round_aux prec emax s m e lx = S754_finite s p e2.
Proof.
  intros Hm Hroom.
  destruct (binary_round_aux_spec s m e lx Hm) as (m1 & Hcases & _ & Heq).
  cbv zeta in Heq. rewrite Heq. clear Heq.
  set (n1 := Z.max 0 (fexp prec emax (Zdigits2 m + e) - e)) in *.
  assert (Hn1 : 0 <= n1) by (unfold n1; lia).
  assert (HA : 0 < 2 ^ n1) by (apply Z.pow_pos_nonneg; lia).
  assert (Hq : 0 <= m / 2 ^ n1 < 2 ^ 53).
  { split; [apply Z.div_pos; lia|].
    apply Z.div_lt_upper_bound; [assumption|].
    rewrite Z.mul_comm, <- pow2_split by lia.
    destruct (Z.eq_dec m 0) as [->|Hm0].
    - apply Z.pow_pos_nonneg; lia.
    - pose proof (Zdigits2_bounds m ltac:(lia)) as [_ Hhi].
      assert (2 ^ Zdigits2 m <= 2 ^ (53 + n1)).
      { apply Z.pow_le_mono_r; [lia|].
        unfold n1, fexp, emin, prec, emax. lia. }
      lia. }
  assert (Hm1 : 0 <= m1 <= 2 ^ 53) by lia.
  assert (Hd1 : Zdigits2 m1 <= 54).
  { apply Zdigits2_le; [lia|]. change (2 ^ 54) with (2 * 2 ^ 53). lia. }
  set (e1 := e + n1) in *.
  set (n2 := Z.max 0 (fexp prec emax (Zdigits2 m1 + e1) - e1)).
  assert (Hn2 : 0 <= n2) by (unfold n2; lia).
  assert (0 <= m1 / 2 ^ n2).
  { apply Z.div_pos; [lia|]. apply Z.pow_pos_nonneg; lia. }
  unfold finish.
  destruct (m1 / 2 ^ n2) as [| p | p] eqn:Hres; [left; reflexivity | | lia].
  right.
  replace (e1 + n2 <=? emax - prec) with true; [eauto|].
  symmetry. apply Z.leb_le.
  unfold n2, e1, n1, fexp, emin, prec, emax in *. lia.
Qed.

(** True division of positive integers whose quotient is within range. *)
Lemma int_truediv_pos (a b : Z) :
  0 < a -> 0 < b -> Zdigits2 a - Zdigits2 b <= 1022 ->
  exists f,
    int_truediv a b = Ok f
    /\ (f = S754_zero false \/ exists p e, f = S754_finite false p e).
Proof.
  intros Ha Hb Hdig.
  unfold int_truediv.
  destruct (Z.eqb_spec b 0); [lia|]. destruct (Z.eqb_spec a 0); [lia|].
  destruct a as [| pa | pa]; try lia. destruct b as [| pb | pb]; try lia.
  cbn [exact_of_int SFdiv xorb].
  unfold SFdiv_core_binary.
  set (d1 := Zdigits2 (Zpos pa)) in *. set (d2 := Zdigits2 (Zpos pb)) in *.
  replace (d1 + 0 - (d2 + 0)) with (d1 - d2) by lia.
  change (0 - 0) with 0.
  set (e' := Z.min (fexp prec emax (d1 - d2)) 0).
  assert (He' : e' <= 0) by (unfold e'; lia).
  set (m' := match 0 - e' with
             | 0 => Zpos pa
             | Zpos _ => Z.shiftl (Zpos pa) (0 - e')
             | Zneg _ => 0
             end).
  assert (Hm' : m' = Zpos pa * 2 ^ (- e')).
  { unfold m'. destruct (0 - e') as [| k | k] eqn:Hk; try lia.
    - replace (- e') with 0 by lia. cbn [Z.pow]. lia.
    - rewrite Z.shiftl_mul_pow2 by lia. f_equal. f_equal. lia. }
  destruct (Z.div_eucl m' (Zpos pb)) as [q r] eqn:Hdiv.
  assert (Hqdef : q = m' / Zpos pb) by (unfold Z.div; rewrite Hdiv; reflexivity).
  pose proof (Zdigits2_bounds (Zpos pa) Ha) as [_ Hahi]. fold d1 in Hahi.
  pose proof (Zdigits2_bounds (Zpos pb) Hb) as [Hblo _]. fold d2 in Hblo.
  assert (Hd1 : 0 < d1) by (apply Zdigits2_pos; lia).
  assert (Hd2 : 0 < d2) by (apply Zdigits2_pos; lia).
  assert (HE : 0 < 2 ^ (- e')) by (apply Z.pow_pos_nonneg; lia).
  assert (Hq0 : 0 <= q).
  { rewrite Hqdef. apply Z.div_pos; [rewrite Hm'|]; lia. }
  set (D := Z.max 0 (d1 - e' - d2 + 1)).
  assert (HqD : q < 2 ^ D).
  { rewrite Hqdef. apply Z.div_lt_upper_bound; [lia|].
    assert (Hnum : m' < 2 ^ (d1 - e')).
    { rewrite Hm'. replace (d1 - e') with (d1 + - e') by lia.
      rewrite pow2_split by lia. nia. }
    assert (Hden : 2 ^ (d1 - e') <= Zpos pb * 2 ^ D).
    { assert (2 ^ (d1 - e') <= 2 ^ ((d2 - 1) + D)).
      { apply Z.pow_le_mono_r; unfold D; lia. }
      rewrite pow2_split in H by (unfold D; lia).
      assert (0 <= 2 ^ D) by (apply Z.pow_nonneg; lia).
      nia. }
    lia. }
  assert (Hdq : Zdigits2 q <= D).
  { apply Zdigits2_le; [unfold D; lia|lia]. }
  assert (Hroom : Z.max e' (fexp prec emax (Zdigits2 q + e')) + 1 <= emax - prec).
  { unfold e', D, fexp, emin, prec, emax in *. lia. }
  destruct (binary_round_aux_finite false q e' (new_location (Zpos pb) r) Hq0 Hroom)
    as [Hz | (p & e2 & Hf)].
  - rewrite Hz. eexists. split; [reflexivity|]. left. reflexivity.
  - rewrite Hf. eexists. split; [reflexivity|]. right. eauto.
Qed.

(** True division of positive integers with a quotient in the normal
    range, truncated to an integer: within a relative error of [2 ^ -51]
    and one unit of the exact quotient. *)
Lemma int_truediv_bounds (a b : Z) :
  0 < a -> 0 < b -> -1021 <= Zdigits2 a - Zdigits2 b <= 1022 ->
  exists f T,
    int_truediv a b = Ok f /\ int_of_float f = Ok T
    /\ 0 <= T
    /\ 2 ^ 52 * (T * b) <= (2 ^ 52 + 1) * a
    /\ (2 ^ 52 - 1) * a <= (2 ^ 52 + 1) * ((T + 1) * b).
Proof.
  intros Ha Hb Hdig.
  unfold int_truediv.
  destruct (Z.eqb_spec b 0); [lia|]. destruct (Z.eqb_spec a 0); [lia|].
  destruct a as [| pa | pa]; try lia. destruct b as [| pb | pb]; try lia.
  cbn [exact_of_int SFdiv xorb].
  unfold SFdiv_core_binary.
  set (d1 := Zdigits2 (Zpos pa)) in *. set (d2 := Zdigits2 (Zpos pb)) in *.
  replace (d1 + 0 - (d2 + 0)) with (d1 - d2) by lia.
  change (0 - 0) with 0.
  rewrite (fexp_normal (d1 - d2)) by lia.
  set (e' := Z.min (d1 - d2 - 53) 0).
  assert (He' : e' <= 0 /\ e' <= d1 - d2 - 53 /\ -1074 <= e') by (unfold e'; lia).
  set (m' := match 0 - e' with
             | 0 => Zpos pa
             | Zpos _ => Z.shiftl (Zpos pa) (0 - e')
             | Zneg _ => 0
             end).
  set (E := 2 ^ (- e')).
  assert (HE : 0 < E) by (apply Z.pow_pos_nonneg; lia).
  assert (Hm' : m' = Zpos pa * E).
  { unfold m', E. destruct (0 - e') as [| k | k] eqn:Hk; try lia.
    - replace (- e') with 0 by lia. cbn [Z.pow]. lia.
    - rewrite Z.shiftl_mul_pow2 by lia. f_equal. f_equal. lia. }
  destruct (Z.div_eucl m' (Zpos pb)) as [q r] eqn:Hdiv.
  assert (Hqdef : q = m' / Zpos pb) by (unfold Z.div; rewrite Hdiv; reflexivity).
  pose proof (Zdigits2_bounds (Zpos pa) Ha) as [Halo Hahi]. fold d1 in Halo, Hahi.
  pose proof (Zdigits2_bounds (Zpos pb) Hb) as [Hblo Hbhi]. fold d2 in Hblo, Hbhi.
  assert (Hd1 : 0 < d1) by (apply Zdigits2_pos; lia).
  assert (Hd2 : 0 < d2) by (apply Zdigits2_pos; lia).
  (* the integer quotient and its remainder *)
  assert (Hqb : q * Zpos pb <= m' < q * Zpos pb + Zpos pb).
  { pose proof (Z.div_mod m' (Zpos pb) ltac:(lia)) as Hdm.
    pose proof (Z.mod_pos_bound m' (Zpos pb) Hb) as Hmb.
    rewrite <- Hqdef in Hdm. lia. }
  (* it has at least 53 digits *)
  assert (Hq52 : 2 ^ 52 <= q).
  { rewrite Hqdef. apply Z.div_le_lower_bound; [lia|].
    rewrite Hm'. unfold E.
    assert (H1 : 2 ^ (d1 - 1) * 2 ^ (- e') <= Zpos pa * 2 ^ (- e')).
    { apply Z.mul_le_mono_nonneg_r; lia. }
    assert (H2 : Zpos pb * 2 ^ 52 <= 2 ^ d2 * 2 ^ 52) by nia.
    assert (H3 : 2 ^ d2 * 2 ^ 52 <= 2 ^ (d1 - 1) * 2 ^ (- e')).
    { rewrite <- !pow2_split by lia. apply Z.pow_le_mono_r; lia. }
    lia. }
  assert (Hqpos : 0 < q) by lia.
  pose proof (Zdigits2_bounds q Hqpos) as [Hqlo Hqhi].
  assert (Hdq53 : 53 <= Zdigits2 q).
  { destruct (Z_le_gt_dec 53 (Zdigits2 q)) as [|Hgt]; [assumption|]. exfalso.
    assert (2 ^ Zdigits2 q <= 2 ^ 52).
    { apply Z.pow_le_mono_r; [lia|]. lia. }
    lia. }
  assert (HdqD : Zdigits2 q <= d1 - e' - d2 + 1).
  { apply Zdigits2_le; [lia|]. split; [lia|].
    rewrite Hqdef. apply Z.div_lt_upper_bound; [lia|].
    assert (Hnum : m' < 2 ^ (d1 - e')).
    { rewrite Hm'. unfold E. replace (d1 - e') with (d1 + - e') by lia.
      rewrite pow2_split by lia. nia. }
    assert (Hden : 2 ^ (d1 - e') <= Zpos pb * 2 ^ (d1 - e' - d2 + 1)).
    { replace (d1 - e') with ((d2 - 1) + (d1 - e' - d2 + 1)) at 1 by lia.
      rewrite pow2_split by lia.
      apply Z.mul_le_mono_nonneg_r; [apply Z.pow_nonneg; lia | assumption]. }
    lia. }
  destruct (round_normal false q e' (new_location (Zpos pb) r) Hqpos ltac:(lia))
    as (m1 & Hcases & _ & Heq).
  assert (Hn1 : Z.max 0 (Zdigits2 q - 53) = Zdigits2 q - 53) by lia.
  rewrite Hn1 in Hcases, Heq.
  set (n1 := Zdigits2 q - 53) in *. set (q1 := q / 2 ^ n1) in *.
  assert (HA : 0 < 2 ^ n1) by (apply Z.pow_pos_nonneg; unfold n1; lia).
  assert (Hq1A : q1 * 2 ^ n1 <= q < q1 * 2 ^ n1 + 2 ^ n1).
  { pose proof (Z.div_mod q (2 ^ n1) ltac:(lia)) as Hdm.
    pose proof (Z.mod_pos_bound q (2 ^ n1) HA) as Hmb.
    fold q1 in Hdm. lia. }
  assert (HqA : 2 ^ 52 * 2 ^ n1 <= q < 2 ^ 53 * 2 ^ n1).
  { rewrite <- !pow2_split by (unfold n1; lia).
    replace (52 + n1) with (Zdigits2 q - 1) by (unfold n1; lia).
    replace (53 + n1) with (Zdigits2 q) by (unfold n1; lia). lia. }
  assert (Hq1 : 2 ^ 52 <= q1 < 2 ^ 53) by nia.
  assert (Hm1A : q - 2 ^ n1 <= m1 * 2 ^ n1 <= q + 2 ^ n1) by nia.
  assert (Hfin : exists m2 e2,
             (if m1 <? 2 ^ 53 then finish false m1 (e' + n1)
              else finish false (2 ^ 52) (e' + n1 + 1))
             = S754_finite false m2 e2
             /\ 0 <= e2 + - e'
             /\ Zpos m2 * 2 ^ (e2 + - e') = m1 * 2 ^ n1).
  { destruct (Z.ltb_spec m1 (2 ^ 53)) as [Hlt|Hge].
    - destruct m1 as [| m1p | m1p]; try lia.
      unfold finish. replace (e' + n1 <=? emax - prec) with true
        by (symmetry; apply Z.leb_le; unfold emax, prec, n1; lia).
      exists m1p, (e' + n1). split; [reflexivity|].
      split; [unfold n1; lia|].
      replace (e' + n1 + - e') with n1 by lia. reflexivity.
    - assert (Hm1 : m1 = 2 ^ 52 * 2 ^ 1) by lia.
      unfold finish. change (2 ^ 52) with (Zpos (2 ^ 52)%positive) at 1.
      cbv iota.
      replace (e' + n1 + 1 <=? emax - prec) with true
        by (symmetry; apply Z.leb_le; unfold emax, prec, n1; lia).
      exists (2 ^ 52)%positive, (e' + n1 + 1). split; [reflexivity|].
      split; [unfold n1; lia|].
      replace (e' + n1 + 1 + - e') with (1 + n1) by lia.
      rewrite pow2_split by (unfold n1; lia).
      change (Zpos (2 ^ 52)%positive) with (2 ^ 52). rewrite Hm1. lia. }
  rewrite Heq. clear Heq.
  destruct Hfin as (m2 & e2 & -> & He2 & Hm2).
  cbn [int_of_float cond_Zopp].
  eexists. eexists. split; [reflexivity|]. split; [reflexivity|].
  split; [apply shiftl_nonneg; lia|].
  pose proof (shiftl_scaled_le (Zpos m2) e2 (- e')
                ltac:(lia) ltac:(lia) He2) as Hle.
  pose proof (shiftl_scaled_ge (Zpos m2) e2 (- e')
                ltac:(lia) ltac:(lia) He2) as Hge.
  rewrite Hm2 in Hle, Hge. fold E in Hle, Hge.
  set (T := Z.shiftl (Zpos m2) e2) in *.
  assert (HT : 0 <= T) by (apply shiftl_nonneg; lia).
  set (A := 2 ^ n1) in *. set (X := m1 * A) in *.
  assert (HX : (2 ^ 52 - 1) * q <= 2 ^ 52 * X <= (2 ^ 52 + 1) * q) by lia.
  change (cond_Zopp false T) with T.
  split.
  - (* upper bound *)
    apply (Z.mul_le_mono_pos_r _ _ E HE).
    assert (H1 : 2 ^ 52 * (T * E) * Zpos pb <= (2 ^ 52 + 1) * q * Zpos pb).
    { apply Z.mul_le_mono_nonneg_r; lia. }
    assert (H2 : (2 ^ 52 + 1) * (q * Zpos pb) <= (2 ^ 52 + 1) * (Zpos pa * E)).
    { apply Z.mul_le_mono_nonneg_l; lia. }
    lia.
  - (* lower bound *)
    apply (Z.mul_le_mono_pos_r _ _ (2 ^ 52 * E) ltac:(lia)).
    assert (H1 : (2 ^ 52 - 1) * q * Zpos pb <= 2 ^ 52 * ((T + 1) * E) * Zpos pb).
    { apply Z.mul_le_mono_nonneg_r; lia. }
    assert (H2 : 2 ^ 52 * (Zpos pa * E) <= (2 ^ 52 + 1) * (q * Zpos pb)).
    { assert (2 ^ 52 * Zpos pb <= q * Zpos pb) by (apply Z.mul_le_mono_nonneg_r; lia).
      lia. }
    assert (H3 : (2 ^ 52 - 1) * (2 ^ 52 * (Zpos pa * E))
                 <= (2 ^ 52 - 1) * ((2 ^ 52 + 1) * (q * Zpos pb))).
    { apply Z.mul_le_mono_nonneg_l; lia. }
    assert (H4 : (2 ^ 52 + 1) * ((2 ^ 52 - 1) * q * Zpos pb)
                 <= (2 ^ 52 + 1) * (2 ^ 52 * ((T + 1) * E) * Zpos pb)).
    { apply Z.mul_le_mono_nonneg_l; lia. }
    set (aE := Zpos pa * E) in *. set (qb := q * Zpos pb) in *.
    set (TEb := (T + 1) * E * Zpos pb).
    replace ((2 ^ 52 - 1) * Zpos pa * (2 ^ 52 * E))
      with ((2 ^ 52 - 1) * (2 ^ 52 * aE)) by (unfold aE; lia).
    replace ((2 ^ 52 + 1) * ((T + 1) * Zpos pb) * (2 ^ 52 * E))
      with ((2 ^ 52 + 1) * (2 ^ 52 * TEb)) by (unfold TEb; lia).
    replace ((2 ^ 52 - 1) * q * Zpos pb) with ((2 ^ 52 - 1) * qb) in H4
      by (unfold qb; lia).
    replace (2 ^ 52 * ((T + 1) * E) * Zpos pb) with (2 ^ 52 * TEb) in H4
      by (unfold TEb; lia).
    lia.
Qed.

End FloatFacts.

Import FloatFacts.

(* ===================================================================== *)
(** ** 5. The tax engine *)
(* ===================================================================== *)

Lemma bind_Ok {A B : Type} (m : result A) (k : A -> result B) (b : B) :
  Py.bind m k = Ok b -> exists a, m = Ok a /\ k a = Ok b.
Proof. destruct m as [a | e]; cbn; [eauto | discriminate]. Qed.

Lemma getitem_padrao : getitem SECTOR_RATES "PADRAO" = Ok DEFAULT_RATES.
Proof. reflexivity. Qed.

Lemma rates_for_cases (sector : string) :
  rates_for sector = DEFAULT_RATES \/ rates_for sector = reduced_rates
  \/ rates_for sector = zero_rates.
Proof.
  unfold rates_for, get.
  destruct (SECTOR_RATES !! sector) as [r|] eqn:E; [|left; reflexivity].
  apply elem_of_list_to_map_2 in E. cbn [default].
  repeat (apply elem_of_cons in E as [E|E]; [inversion E; subst; auto|]).
  inversion E.
Qed.

Lemma bps_for_cases (sector : string) :
  bps_for sector = 2650 \/ bps_for sector = 1325 \/ bps_for sector = 0.
Proof.
  unfold bps_for, get.
  destruct (SIMPLIFIED_RATES_BPS !! sector) as [r|] eqn:E; [|left; reflexivity].
  apply elem_of_list_to_map_2 in E. cbn [default].
  repeat (apply elem_of_cons in E as [E|E]; [inversion E; subst; auto|]).
  inversion E.
Qed.

(** One tax share [int(gross * rate)]: never negative, and within a
    relative error of [(1 +- 2^-52)^2] and one unit of [gross * rate]. *)
Lemma share_spec (g : Z) (r : float) (mr er : Z) :
  table_rate r mr er -> 0 <= g < float_limit ->
  exists f T,
    int_mul_float g r = Ok f /\ int_of_float f = Ok T
    /\ 0 <= T
    /\ 2 ^ 104 * (T * 2 ^ (- er)) <= (2 ^ 52 + 1) ^ 2 * (g * mr)
    /\ (2 ^ 52 - 1) ^ 2 * (g * mr) <= 2 ^ 104 * ((T + 1) * 2 ^ (- er)).
Proof.
  intros Hr [Hg0 Hlim].
  assert (HE0 : 0 <= 2 ^ (- er)) by (apply Z.pow_nonneg; lia).
  destruct (Z.eq_dec g 0) as [->|Hne].
  - (* float(0) is +0.0 and every product with it is a zero *)
    destruct Hr; cbn [int_mul_float float_of_int binary_normalize Py.bind
                      float_mul SFmul xorb int_of_float];
      eexists; exists 0; (split; [reflexivity|]); (split; [reflexivity|]);
      rewrite !Z.mul_0_l, !Z.mul_0_r; lia.
  - destruct (float_of_int_pos g ltac:(lia)) as (mg & eg & Hf & Hmg & Heg & Hval).
    unfold int_mul_float. rewrite Hf. cbn [Py.bind].
    destruct Hr as [| mr er Hmr Her].
    + eexists; exists 0. cbn [float_mul SFmul xorb int_of_float].
      (split; [reflexivity|]); (split; [reflexivity|]).
      rewrite !Z.mul_0_l, !Z.mul_0_r. lia.
    + destruct (int_of_mul mg mr eg er Hmg Heg Hmr Her) as (T & HT & HT0 & Hb & Hb').
      eexists; exists T. split; [reflexivity|]. split; [assumption|].
      split; [assumption|].
      replace (52 - er) with (52 + - er) in Hb, Hb' by lia.
      rewrite (pow2_split 52 (- er)) in Hb, Hb' by lia.
      set (E := 2 ^ (- er)) in *. set (V := Zpos mg * 2 ^ (eg + 52)) in *.
      assert (HE : 0 < E) by (apply Z.pow_pos_nonneg; lia).
      assert (HV : 0 <= V) by (apply Z.mul_nonneg_nonneg; [lia | apply Z.pow_nonneg; lia]).
      change ((2 ^ 52 + 1) ^ 2) with ((2 ^ 52 + 1) * (2 ^ 52 + 1)).
      change ((2 ^ 52 - 1) ^ 2) with ((2 ^ 52 - 1) * (2 ^ 52 - 1)).
      set (TE := T * E) in *. set (TE1 := (T + 1) * E) in *.
      set (GM := g * Zpos mr) in *.
      replace (T * (2 ^ 52 * E)) with (2 ^ 52 * TE) in Hb by (unfold TE; lia).
      replace ((T + 1) * (2 ^ 52 * E)) with (2 ^ 52 * TE1) in Hb' by (unfold TE1; lia).
      assert (HVM : (2 ^ 52 - 1) * (GM * 2 ^ 52) <= 2 ^ 52 * (V * Zpos mr)
                    <= (2 ^ 52 + 1) * (GM * 2 ^ 52)).
      { replace (GM * 2 ^ 52) with (g * 2 ^ 52 * Zpos mr) by (unfold GM; lia).
        replace ((2 ^ 52 - 1) * (g * 2 ^ 52 * Zpos mr))
          with ((2 ^ 52 - 1) * (g * 2 ^ 52) * Zpos mr) by lia.
        replace ((2 ^ 52 + 1) * (g * 2 ^ 52 * Zpos mr))
          with ((2 ^ 52 + 1) * (g * 2 ^ 52) * Zpos mr) by lia.
        replace (2 ^ 52 * (V * Zpos mr)) with (2 ^ 52 * V * Zpos mr) by lia.
        split; apply Z.mul_le_mono_nonneg_r; lia. }
      set (VM := V * Zpos mr) in *.
      lia.
Qed.

Lemma calculate_standard_inv (g : Z) (sec : string) (credits : Z) (r : standard_tax) :
  calculate_standard g sec credits = Ok r -> standard_eqs g sec credits r.
Proof.
  unfold calculate_standard. rewrite getitem_padrao. cbn [Py.bind].
  fold (rates_for sec). intros H.
  apply bind_Ok in H as (fc & Hfc & H). apply bind_Ok in H as (c & Hc & H).
  apply bind_Ok in H as (fs & Hfs & H). apply bind_Ok in H as (s & Hs & H).
  apply bind_Ok in H as (fm & Hfm & H). apply bind_Ok in H as (m & Hm & H).
  apply bind_Ok in H as (er & Her & H).
  injection H as <-.
  constructor; cbn; eauto.
  destruct (g >? 0); [|congruence].
  unfold Py.map in Her. apply bind_Ok in Her as (f & Hf & Her).
  injection Her as <-. eauto.
Qed.

Lemma table_rate_0_0865 : table_rate f_0_0865 6232981884280766 (-56).
Proof. apply table_rate_finite; cbn; lia. Qed.
Lemma table_rate_0_1115 : table_rate f_0_1115 8034421735228965 (-56).
Proof. apply table_rate_finite; cbn; lia. Qed.
Lemma table_rate_0_0470 : table_rate f_0_0470 6773413839565226 (-57).
Proof. apply table_rate_finite; cbn; lia. Qed.
Lemma table_rate_0_0433 : table_rate f_0_0433 6240187643684559 (-57).
Proof. apply table_rate_finite; cbn; lia. Qed.
Lemma table_rate_0_0558 : table_rate f_0_0558 8041627494632758 (-57).
Proof. apply table_rate_finite; cbn; lia. Qed.
Lemma table_rate_0_0235 : table_rate f_0_0235 6773413839565226 (-58).
Proof. apply table_rate_finite; cbn; lia. Qed.

(** The body of [calculate_standard] for a given table entry whose three
    rates add up to at most one. *)
Lemma standard_body (g : Z) (sec : string) (credits : Z) (R : rates)
      (m1 e1 m2 e2 m3 e3 : Z) :
  rates_for sec = R ->
  table_rate (CBS R) m1 e1 -> table_rate (IBS_ESTADO R) m2 e2 ->
  table_rate (IBS_MUNICIPIO R) m3 e3 ->
  0 <= g < float_limit ->
  (forall T1 T2 T3,
      2 ^ 104 * (T1 * 2 ^ (- e1)) <= (2 ^ 52 + 1) ^ 2 * (g * m1) ->
      2 ^ 104 * (T2 * 2 ^ (- e2)) <= (2 ^ 52 + 1) ^ 2 * (g * m2) ->
      2 ^ 104 * (T3 * 2 ^ (- e3)) <= (2 ^ 52 + 1) ^ 2 * (g * m3) ->
      T1 + T2 + T3 <= g) ->
  exists r,
    calculate_standard g sec credits = Ok r
    /\ 0 <= cbs_amount r /\ 0 <= ibs_state_amount r /\ 0 <= ibs_city_amount r
    /\ total_tax r <= g.
Proof.
  intros HR H1 H2 H3 Hg Hsum.
  destruct (share_spec g _ _ _ H1 Hg) as (f1 & T1 & Hf1 & HT1 & HT1nn & Hb1 & _).
  destruct (share_spec g _ _ _ H2 Hg) as (f2 & T2 & Hf2 & HT2 & HT2nn & Hb2 & _).
  destruct (share_spec g _ _ _ H3 Hg) as (f3 & T3 & Hf3 & HT3 & HT3nn & Hb3 & _).
  specialize (Hsum T1 T2 T3 Hb1 Hb2 Hb3).
  unfold calculate_standard. rewrite getitem_padrao. cbn [Py.bind].
  fold (rates_for sec). rewrite HR.
  rewrite Hf1. cbn [Py.bind]. rewrite HT1. cbn [Py.bind].
  rewrite Hf2. cbn [Py.bind]. rewrite HT2. cbn [Py.bind].
  rewrite Hf3. cbn [Py.bind]. rewrite HT3. cbn [Py.bind].
  destruct (Z.gtb_spec g 0) as [Hpos|Hzero].
  - destruct (Z.eq_dec (T1 + T2 + T3) 0) as [Hz|Hnz].
    + rewrite Hz. unfold int_truediv.
      destruct (Z.eqb_spec g 0); [lia|]. cbn.
      eexists. split; [reflexivity|]. cbn. lia.
    + destruct (int_truediv_pos (T1 + T2 + T3) g ltac:(lia) ltac:(lia))
        as (f & Hf & _).
      { pose proof (Zdigits2_mono (T1 + T2 + T3) g ltac:(lia)). lia. }
      rewrite Hf. cbn.
      eexists. split; [reflexivity|]. cbn. lia.
  - cbn. eexists. split; [reflexivity|]. cbn. lia.
Qed.

Lemma calculate_standard_returns (g : Z) (sec : string) (credits : Z) :
  0 <= g < float_limit ->
  exists r,
    calculate_standard g sec credits = Ok r
    /\ 0 <= cbs_amount r /\ 0 <= ibs_state_amount r /\ 0 <= ibs_city_amount r
    /\ total_tax r <= g.
Proof.
  intros Hg.
  destruct (rates_for_cases sec) as [HR | [HR | HR]].
  - eapply (standard_body g sec credits _ _ _ _ _ _ _ HR
              table_rate_0_0865 table_rate_0_1115 table_rate_0_0470 Hg).
    intros T1 T2 T3. cbn. lia.
  - eapply (standard_body g sec credits _ _ _ _ _ _ _ HR
              table_rate_0_0433 table_rate_0_0558 table_rate_0_0235 Hg).
    intros T1 T2 T3. cbn. lia.
  - eapply (standard_body g sec credits _ _ _ _ _ _ _ HR
              table_rate_zero table_rate_zero table_rate_zero Hg).
    intros T1 T2 T3. cbn. lia.
Qed.

Lemma calculate_simplified_inv (g : Z) (sec : string) (r : simplified_tax) :
  calculate_simplified g sec = Ok r -> simplified_eqs g sec r.
Proof.
  unfold calculate_simplified. fold (bps_for sec). intros H.
  apply bind_Ok in H as (f & Hf & H). apply bind_Ok in H as (t & Ht & H).
  apply bind_Ok in H as (er & Her & H).
  injection H as <-. constructor; cbn; eauto.
Qed.

Lemma nominal_rate_returns (sec : string) :
  exists f, int_truediv (bps_for sec) 10000 = Ok f.
Proof.
  destruct (bps_for_cases sec) as [-> | [-> | ->]]; eexists; reflexivity.
Qed.

(** The withheld amount [int(gross * rate_bps / 10000)]: never negative,
    and within a relative error of [2 ^ -51] and one unit of the exact
    quotient. *)
Lemma simplified_tax_spec (g : Z) (sec : string) :
  0 <= g < float_limit ->
  exists f T,
    int_truediv (g * bps_for sec) 10000 = Ok f /\ int_of_float f = Ok T
    /\ 0 <= T
    /\ 2 ^ 52 * (T * 10000) <= (2 ^ 52 + 1) * (g * bps_for sec)
    /\ (2 ^ 52 - 1) * (g * bps_for sec) <= (2 ^ 52 + 1) * ((T + 1) * 10000).
Proof.
  intros [Hg0 Hlim].
  assert (Hbps : 0 <= bps_for sec < 2 ^ 12).
  { destruct (bps_for_cases sec) as [-> | [-> | ->]]; cbn; lia. }
  destruct (Z.eq_dec (g * bps_for sec) 0) as [Hz | Hnz].
  - rewrite Hz. change (int_truediv 0 10000) with (Ok (S754_zero false)).
    eexists; exists 0. cbn [int_of_float]. repeat split; lia.
  - assert (Hpos : 0 < g * bps_for sec) by nia.
    apply int_truediv_bounds; [assumption | lia |].
    change (Zdigits2 10000) with 14.
    pose proof (Zdigits2_pos _ Hpos).
    assert (Zdigits2 (g * bps_for sec) <= 1036); [|lia].
    apply Zdigits2_le; [lia|]. split; [lia|].
    change (2 ^ 1036) with (2 ^ 1024 * 2 ^ 12).
    unfold float_limit in Hlim.
    assert (g < 2 ^ 1024) by lia. nia.
Qed.

Lemma calculate_simplified_returns (g : Z) (sec : string) :
  0 <= g < float_limit ->
  exists r, calculate_simplified g sec = Ok r /\ 0 <= s_tax_amount r <= g.
Proof.
  intros Hg.
  destruct (simplified_tax_spec g sec Hg) as (f & T & Hf & HT & HT0 & Hup & _).
  destruct (nominal_rate_returns sec) as (fr & Hfr).
  unfold calculate_simplified. fold (bps_for sec).
  rewrite Hf. cbn [Py.bind]. rewrite HT. cbn [Py.bind]. rewrite Hfr. cbn [Py.bind].
  eexists. split; [reflexivity|]. cbn [s_tax_amount].
  split; [assumption|].
  destruct (bps_for_cases sec) as [Hb | [Hb | Hb]]; rewrite Hb in Hup; lia.
Qed.

(* ===================================================================== *)
(** ** 6. The signer *)
(* ===================================================================== *)

Section SignerFacts.
Context {lib : EthLib}.

Lemma be_bytes_length (len : nat) (n : Z) : length (be_bytes len n) = len.
Proof. induction len as [| k IH]; cbn [be_bytes length]; congruence. Qed.

Lemma encode_uint256_Ok (n : Z) (b : bytes) :
  encode_packed_one T_uint256 (V_int n) = Ok b <-> uint256 n /\ b = be_bytes 32 n.
Proof.
  unfold uint256. cbn [encode_packed_one].
  destruct (Z.leb_spec 0 n), (Z.ltb_spec n (2 ^ 256)); cbn [andb];
    split; try (intros [? ?]; lia); try discriminate.
  - intros [= <-]. split; [lia | reflexivity].
  - intros [_ ->]. reflexivity.
Qed.

Lemma encode_address_Ok (s : string) (b : bytes) :
  encode_packed_one T_address (V_str s) = Ok b <-> address_bytes s = Some b.
Proof.
  cbn [encode_packed_one]. destruct (address_bytes s); split;
    try discriminate; congruence.
Qed.

Lemma encode_packed_standard (id seller : string) (g a b c d : Z) (bs : bytes) :
  encode_packed
    [T_string; T_address; T_uint256; T_uint256; T_uint256; T_uint256; T_uint256]
    [V_str id; V_str seller; V_int g; V_int a; V_int b; V_int c; V_int d] = Ok bs
  <-> exists addr,
        address_bytes seller = Some addr
        /\ uint256 g /\ uint256 a /\ uint256 b /\ uint256 c /\ uint256 d
        /\ bs = packed_standard id addr g a b c d.
Proof.
  cbn [encode_packed]. split.
  - intros H.
    apply bind_Ok in H as (x0 & H0 & H). cbn [encode_packed_one] in H0.
    injection H0 as <-.
    apply bind_Ok in H as (r0 & H & E0). injection E0 as <-.
    apply bind_Ok in H as (x1 & H1 & H). apply encode_address_Ok in H1.
    apply bind_Ok in H as (r1 & H & E1). injection E1 as <-.
    apply bind_Ok in H as (x2 & H2 & H). apply encode_uint256_Ok in H2 as [U2 ->].
    apply bind_Ok in H as (r2 & H & E2). injection E2 as <-.
    apply bind_Ok in H as (x3 & H3 & H). apply encode_uint256_Ok in H3 as [U3 ->].
    apply bind_Ok in H as (r3 & H & E3). injection E3 as <-.
    apply bind_Ok in H as (x4 & H4 & H). apply encode_uint256_Ok in H4 as [U4 ->].
    apply bind_Ok in H as (r4 & H & E4). injection E4 as <-.
    apply bind_Ok in H as (x5 & H5 & H). apply encode_uint256_Ok in H5 as [U5 ->].
    apply bind_Ok in H as (r5 & H & E5). injection E5 as <-.
    apply bind_Ok in H as (x6 & H6 & H). apply encode_uint256_Ok in H6 as [U6 ->].
    apply bind_Ok in H as (r6 & H & E6). injection E6 as <-.
    injection H as <-.
    exists x1. repeat (split; [assumption|]).
    reflexivity.
  - intros (addr & Ha & U2 & U3 & U4 & U5 & U6 & ->).
    apply encode_address_Ok in Ha.
    pose proof (proj2 (encode_uint256_Ok g _) (conj U2 eq_refl)) as E2.
    pose proof (proj2 (encode_uint256_Ok a _) (conj U3 eq_refl)) as E3.
    pose proof (proj2 (encode_uint256_Ok b _) (conj U4 eq_refl)) as E4.
    pose proof (proj2 (encode_uint256_Ok c _) (conj U5 eq_refl)) as E5.
    pose proof (proj2 (encode_uint256_Ok d _) (conj U6 eq_refl)) as E6.
    rewrite Ha, E2, E3, E4, E5, E6. cbn [Py.bind encode_packed_one].
    reflexivity.
Qed.

Lemma encode_packed_simplified (id seller : string) (g bps : Z) (bs : bytes) :
  encode_packed
    [T_string; T_address; T_uint256; T_uint256; T_string]
    [V_str id; V_str seller; V_int g; V_int bps; V_str "SIMPLIFIED"] = Ok bs
  <-> exists addr,
        address_bytes seller = Some addr /\ uint256 g /\ uint256 bps
        /\ bs = packed_simplified id addr g bps.
Proof.
  cbn [encode_packed]. split.
  - intros H.
    apply bind_Ok in H as (x0 & H0 & H). cbn [encode_packed_one] in H0.
    injection H0 as <-.
    apply bind_Ok in H as (r0 & H & E0). injection E0 as <-.
    apply bind_Ok in H as (x1 & H1 & H). apply encode_address_Ok in H1.
    apply bind_Ok in H as (r1 & H & E1). injection E1 as <-.
    apply bind_Ok in H as (x2 & H2 & H). apply encode_uint256_Ok in H2 as [U2 ->].
    apply bind_Ok in H as (r2 & H & E2). injection E2 as <-.
    apply bind_Ok in H as (x3 & H3 & H). apply encode_uint256_Ok in H3 as [U3 ->].
    apply bind_Ok in H as (r3 & H & E3). injection E3 as <-.
    apply bind_Ok in H as (x4 & H4 & H). cbn [encode_packed_one] in H4.
    injection H4 as <-.
    apply bind_Ok in H as (r4 & H & E4). injection E4 as <-.
    injection H as <-.
    exists x1. repeat (split; [assumption|]).
    reflexivity.
  - intros (addr & Ha & U2 & U3 & ->).
    apply encode_address_Ok in Ha.
    pose proof (proj2 (encode_uint256_Ok g _) (conj U2 eq_refl)) as E2.
    pose proof (proj2 (encode_uint256_Ok bps _) (conj U3 eq_refl)) as E3.
    rewrite Ha, E2, E3. cbn [Py.bind encode_packed_one].
    reflexivity.
Qed.

(** A successful [authorize_standard]: what was computed, what was
    hashed and signed, and what became of the instance. *)
Lemma authorize_standard_Ok
      (nfe who : string) (g : Z) (sec : string) (credits : Z) (now : string)
      (self self' : FiscalOracle) (inv : SignedInvoice) :
  authorize_standard nfe who g sec credits now self = (Ok inv, self') ->
  exists tax addr,
    calculate_standard g sec credits = Ok tax
    /\ address_bytes who = Some addr
    /\ (uint256 g /\ uint256 (cbs_amount tax) /\ uint256 (ibs_state_amount tax)
        /\ uint256 (ibs_city_amount tax) /\ uint256 (credit_offset tax))
    /\ signature inv =
         personal_sign (account self)
           (packed_standard nfe addr g (cbs_amount tax) (ibs_state_amount tax)
              (ibs_city_amount tax) (credit_offset tax))
    /\ (invoice_id inv = nfe /\ seller inv = who /\ si_gross_amount inv = g
        /\ si_cbs_amount inv = cbs_amount tax
        /\ si_ibs_state_amount inv = ibs_state_amount tax
        /\ si_ibs_city_amount inv = ibs_city_amount tax
        /\ si_credit_offset inv = credit_offset tax
        /\ signer_address inv = address self /\ timestamp inv = now
        /\ mode inv = STANDARD /\ rate_bps inv = 0)
    /\ (private_key self' = private_key self /\ account self' = account self
        /\ address self' = address self
        /\ signatures_issued self' = signatures_issued self + 1).
Proof.
  unfold authorize_standard, solidity_keccak.
  destruct (calculate_standard g sec credits) as [tax | e]; cbn [Py.bind];
    [|discriminate].
  destruct (encode_packed _ _) as [bs | e] eqn:Hpacked; cbn [Py.bind];
    [|discriminate].
  apply encode_packed_standard in Hpacked
    as (addr & Ha & U1 & U2 & U3 & U4 & U5 & ->).
  intros [= <- <-]. exists tax, addr. cbn. repeat split; auto; apply U1 || apply U2
    || apply U3 || apply U4 || apply U5.
Qed.

Lemma authorize_standard_Raise
      (nfe who : string) (g : Z) (sec : string) (credits : Z) (now : string)
      (self self' : FiscalOracle) (e : exn) :
  authorize_standard nfe who g sec credits now self = (Raise e, self') ->
  self' = self.
Proof.
  unfold authorize_standard.
  destruct (Py.bind _ _) as [[tax signed] | e']; intros [= ]; congruence.
Qed.

Lemma authorize_standard_returns
      (nfe who : string) (g : Z) (sec : string) (credits : Z) (now : string)
      (self : FiscalOracle) (addr : bytes) :
  address_bytes who = Some addr -> uint256 g -> 0 <= credits ->
  exists inv self',
    authorize_standard nfe who g sec credits now self = (Ok inv, self').
Proof.
  intros Ha Ug Hc.
  assert (Hg : 0 <= g < float_limit).
  { unfold uint256 in Ug. unfold float_limit.
    assert (2 ^ 256 <= 2 ^ 1024 - 2 ^ 970) by (vm_compute; discriminate). lia. }
  destruct (calculate_standard_returns g sec credits Hg)
    as (tax & Htax & H1 & H2 & H3 & Hle).
  pose proof (calculate_standard_inv _ _ _ _ Htax) as E.
  pose proof (se_total _ _ _ _ E) as Ht. pose proof (se_offset _ _ _ _ E) as Ho.
  unfold authorize_standard, solidity_keccak. rewrite Htax. cbn [Py.bind].
  erewrite (proj2 (encode_packed_standard nfe who g _ _ _ _ _)).
  - cbn [Py.bind]. eauto.
  - exists addr. unfold uint256 in *.
    repeat split; try assumption; try reflexivity; lia.
Qed.

Lemma authorize_simplified_Ok
      (nfe who : string) (g : Z) (sec : string) (now : string)
      (self self' : FiscalOracle) (inv : SignedInvoice) :
  authorize_simplified nfe who g sec now self = (Ok inv, self') ->
  exists tax addr,
    calculate_simplified g sec = Ok tax
    /\ address_bytes who = Some addr
    /\ (uint256 g /\ uint256 (s_rate_bps tax))
    /\ signature inv =
         personal_sign (account self)
           (packed_simplified nfe addr g (s_rate_bps tax))
    /\ (invoice_id inv = nfe /\ seller inv = who /\ si_gross_amount inv = g
        /\ si_cbs_amount inv = 0 /\ si_ibs_state_amount inv = 0
        /\ si_ibs_city_amount inv = 0 /\ si_credit_offset inv = 0
        /\ signer_address inv = address self /\ timestamp inv = now
        /\ mode inv = SIMPLIFIED /\ rate_bps inv = s_rate_bps tax)
    /\ (private_key self' = private_key self /\ account self' = account self
        /\ address self' = address self
        /\ signatures_issued self' = signatures_issued self + 1).
Proof.
  unfold authorize_simplified, solidity_keccak.
  destruct (calculate_simplified g sec) as [tax | e]; cbn [Py.bind];
    [|discriminate].
  destruct (encode_packed _ _) as [bs | e] eqn:Hpacked; cbn [Py.bind];
    [|discriminate].
  apply encode_packed_simplified in Hpacked as (addr & Ha & U1 & U2 & ->).
  intros [= <- <-]. exists tax, addr. cbn. repeat split; auto; apply U1 || apply U2.
Qed.

Lemma authorize_simplified_Raise
      (nfe who : string) (g : Z) (sec : string) (now : string)
      (self self' : FiscalOracle) (e : exn) :
  authorize_simplified nfe who g sec now self = (Raise e, self') ->
  self' = self.
Proof.
  unfold authorize_simplified.
  destruct (Py.bind _ _) as [[tax signed] | e']; intros [= ]; congruence.
Qed.

Lemma authorize_simplified_returns
      (nfe who : string) (g : Z) (sec : string) (now : string)
      (self : FiscalOracle) (addr : bytes) :
  address_bytes who = Some addr -> uint256 g ->
  exists inv self',
    authorize_simplified nfe who g sec now self = (Ok inv, self').
Proof.
  intros Ha Ug.
  assert (Hg : 0 <= g < float_limit).
  { unfold uint256 in Ug. unfold float_limit.
    assert (2 ^ 256 <= 2 ^ 1024 - 2 ^ 970) by (vm_compute; discriminate). lia. }
  destruct (calculate_simplified_returns g sec Hg) as (tax & Htax & _).
  pose proof (calculate_simplified_inv _ _ _ Htax) as E.
  pose proof (sm_bps _ _ _ E) as Hb.
  unfold authorize_simplified, solidity_keccak. rewrite Htax. cbn [Py.bind].
  erewrite (proj2 (encode_packed_simplified nfe who g _ _)).
  - cbn [Py.bind]. eauto.
  - exists addr. repeat split; try assumption; try reflexivity; try apply Ug.
    + rewrite Hb. destruct (bps_for_cases sec) as [-> | [-> | ->]]; lia.
    + rewrite Hb. destruct (bps_for_cases sec) as [-> | [-> | ->]];
        vm_compute; reflexivity.
Qed.

End SignerFacts.

(* ===================================================================== *)
(** ** 7. The properties of the specification *)
(* ===================================================================== *)

Lemma float_limit_pos : 0 < float_limit.
Proof. reflexivity. Qed.

Lemma uint256_below_float_limit (n : Z) : uint256 n -> 0 <= n < float_limit.
Proof.
  unfold uint256. intros [H0 H1].
  assert (2 ^ 256 <= float_limit) by (vm_compute; discriminate). lia.
Qed.

Lemma rates_for_table (sec : string) :
  exists m1 e1 m2 e2 m3 e3,
    table_rate (CBS (rates_for sec)) m1 e1
    /\ table_rate (IBS_ESTADO (rates_for sec)) m2 e2
    /\ table_rate (IBS_MUNICIPIO (rates_for sec)) m3 e3.
Proof.
  destruct (rates_for_cases sec) as [-> | [-> | ->]]; do 6 eexists.
  - split; [apply table_rate_0_0865|]. split; [apply table_rate_0_1115|].
    apply table_rate_0_0470.
  - split; [apply table_rate_0_0433|]. split; [apply table_rate_0_0558|].
    apply table_rate_0_0235.
  - repeat split; apply table_rate_zero.
Qed.

Lemma share_of_intro (g : Z) (rate : float) (mr er T : Z) :
  table_rate rate mr er -> 0 <= g < float_limit ->
  (exists f, int_mul_float g rate = Ok f /\ int_of_float f = Ok T) ->
  share_of g rate T.
Proof.
  intros Hr Hg Hc. split; [exact Hc|].
  destruct Hc as (f & Hf & HT).
  destruct (share_spec g rate mr er Hr Hg) as (f' & T' & Hf' & HT' & H0 & Hup & Hlo).
  assert (f' = f) by congruence. subst f'.
  assert (T' = T) by congruence. subst T'.
  exists mr, er. auto.
Qed.



(* --------------------------------------------------------------------- *)
(** *** C1 *)

(** C1 as stated fails. For [gross_amount = 10000] and sector PADRAO the
    code returns [cbs_amount = 864]: the double nearest 0.0865 lies below
    it, the product is 864.9999999999999 and truncation drops the fraction,
    whereas floor(10000 * 0.0865) = 865. *)
Lemma standard_share_differs_from_floor :
  exists r,
    calculate_standard 10000 "PADRAO" 0 = Ok r
    /\ cbs_amount r = 864
    /\ floor_share 10000 865 10000 = 865
    /\ cbs_amount r <> floor_share 10000 865 10000.
Proof.
  eexists. split; [vm_compute; reflexivity|].
  repeat split; try reflexivity. vm_compute. discriminate.
Qed.

(** C1 (amended). For every [gross_amount] with
    [0 <= gross_amount < 2^1024 - 2^970] (those Python can convert to
    [float]) and every sector, [calculate_standard] returns, and each tax
    share is [int(gross_amount * rate)] evaluated in binary64 arithmetic:
    the amount is rounded to the nearest double, multiplied by the double
    nearest the table's rate, the product rounded to nearest and truncated
    toward zero. The share is never negative and lies within a relative
    error of [(1 +- 2^-52)^2] and one unit of the amount times the stored
    rate. For [gross_amount = 10^18] and sector PADRAO, [cbs_amount] is
    exactly 86_500_000_000_000_000. *)
Theorem standard_shares_truncate_float_products
    (g : Z) (sec : string) (credits : Z) :
  0 <= g < float_limit ->
  exists r,
    calculate_standard g sec credits = Ok r
    /\ share_of g (CBS (rates_for sec)) (cbs_amount r)
    /\ share_of g (IBS_ESTADO (rates_for sec)) (ibs_state_amount r)
    /\ share_of g (IBS_MUNICIPIO (rates_for sec)) (ibs_city_amount r)
    /\ (g = 10 ^ 18 -> sec = "PADRAO" -> cbs_amount r = 86500000000000000).
Proof.
  intros Hg.
  destruct (calculate_standard_returns g sec credits Hg) as (r & Hr & _).
  pose proof (calculate_standard_inv _ _ _ _ Hr) as E.
  destruct (rates_for_table sec) as (m1 & e1 & m2 & e2 & m3 & e3 & R1 & R2 & R3).
  exists r. split; [exact Hr|].
  split; [exact (share_of_intro _ _ _ _ _ R1 Hg (se_cbs _ _ _ _ E))|].
  split; [exact (share_of_intro _ _ _ _ _ R2 Hg (se_state _ _ _ _ E))|].
  split; [exact (share_of_intro _ _ _ _ _ R3 Hg (se_city _ _ _ _ E))|].
  intros -> ->.
  destruct (se_cbs _ _ _ _ E) as (f & Hf & Hi).
  vm_compute in Hf. injection Hf as <-.
  cbn [int_of_float cond_Zopp] in Hi. injection Hi as Hi.
  rewrite <- Hi. reflexivity.
Qed.

Lemma standard_shares_truncate_float_products_witness :
  0 <= 10 ^ 18 < float_limit
  /\ exists r,
       calculate_standard (10 ^ 18) "PADRAO" 0 = Ok r
       /\ cbs_amount r = 86500000000000000.
Proof.
  assert (H : 0 <= 10 ^ 18 < float_limit) by (split; [discriminate | reflexivity]).
  split; [exact H|].
  destruct (standard_shares_truncate_float_products (10 ^ 18) "PADRAO" 0 H)
    as (r & Hr & _ & _ & _ & Hex).
  exists r. split; [exact Hr | exact (Hex eq_refl eq_refl)].
Defined.

(* --------------------------------------------------------------------- *)
(** *** C2 *)

(** C2 as stated fails. For [gross_amount = 10^18 + 100] and sector PADRAO
    the exact quotient is 265000000000000026.5; [/] is true division, the
    quotient is rounded to the nearest double (a multiple of 32 at this
    magnitude) and the code returns 265000000000000032, not
    floor(...) = 265000000000000026. *)
Lemma simplified_tax_differs_from_floor :
  exists r,
    calculate_simplified (10 ^ 18 + 100) "PADRAO" = Ok r
    /\ s_tax_amount r = 265000000000000032
    /\ floor_share (10 ^ 18 + 100) 2650 10000 = 265000000000000026
    /\ s_tax_amount r <> floor_share (10 ^ 18 + 100) (s_rate_bps r) 10000.
Proof.
  eexists. split; [vm_compute; reflexivity|].
  repeat split; try reflexivity. vm_compute. discriminate.
Qed.

(** C2 (amended). For every [gross_amount] with
    [0 <= gross_amount < 2^1024 - 2^970], [calculate_simplified] returns;
    [rate_bps] is the table's rate for the sector (2650 when unknown);
    [tax_amount] is [int(gross_amount * rate_bps / 10000)] with Python's
    true division: the exact quotient is rounded to the nearest double and
    then truncated, so that [tax_amount] is never negative and lies within
    a relative error of [2^-51] and one unit of the exact quotient, without
    being its floor in general; [net_to_seller = gross_amount - tax_amount].
    For [gross_amount = 200 * 10^18] and sector PADRAO the result is
    [rate_bps = 2650], [tax_amount = 53 * 10^18] and
    [net_to_seller = 147 * 10^18] exactly. *)
Theorem simplified_tax_truncates_float_quotient (g : Z) (sec : string) :
  0 <= g < float_limit ->
  exists r,
    calculate_simplified g sec = Ok r
    /\ s_rate_bps r = bps_for sec
    /\ withheld_of g (bps_for sec) (s_tax_amount r)
    /\ s_net_to_seller r = g - s_tax_amount r
    /\ (g = 200 * 10 ^ 18 -> sec = "PADRAO" ->
        s_rate_bps r = 2650 /\ s_tax_amount r = 53 * 10 ^ 18
        /\ s_net_to_seller r = 147 * 10 ^ 18).
Proof.
  intros Hg.
  destruct (calculate_simplified_returns g sec Hg) as (r & Hr & _).
  pose proof (calculate_simplified_inv _ _ _ Hr) as E.
  destruct (simplified_tax_spec g sec Hg) as (f & T & Hf & HT & HT0 & Hup & Hlo).
  destruct (sm_tax _ _ _ E) as (f' & Hf' & HT').
  assert (f' = f) by congruence. subst f'.
  assert (T = s_tax_amount r) by congruence. subst T.
  exists r. split; [exact Hr|]. split; [exact (sm_bps _ _ _ E)|].
  split; [unfold withheld_of; eauto 8|].
  split; [exact (sm_net _ _ _ E)|].
  intros -> ->.
  pose proof (sm_bps _ _ _ E) as Hb. pose proof (sm_net _ _ _ E) as Hn.
  vm_compute in Hf. injection Hf as <-.
  cbn [int_of_float cond_Zopp] in HT. injection HT as HT.
  rewrite Hn, Hb, <- HT. repeat split; reflexivity.
Qed.

Lemma simplified_tax_truncates_float_quotient_witness :
  0 <= 200 * 10 ^ 18 < float_limit
  /\ exists r,
       calculate_simplified (200 * 10 ^ 18) "PADRAO" = Ok r
       /\ s_rate_bps r = 2650 /\ s_tax_amount r = 53 * 10 ^ 18
       /\ s_net_to_seller r = 147 * 10 ^ 18.
Proof.
  assert (H : 0 <= 200 * 10 ^ 18 < float_limit)
    by (split; [discriminate | reflexivity]).
  split; [exact H|].
  destruct (simplified_tax_truncates_float_quotient (200 * 10 ^ 18) "PADRAO" H)
    as (r & Hr & _ & _ & _ & Hex).
  exists r. split; [exact Hr | exact (Hex eq_refl eq_refl)].
Defined.

(* --------------------------------------------------------------------- *)
(** *** C3 *)

(** C3 as stated fails: not every non-negative [gross_amount] yields a
    result. [2^1024] does not fit a [float]; the first product raises
    [OverflowError] and no [credit_offset] is returned. *)
Lemma credit_offset_absent_on_overflow :
  calculate_standard (2 ^ 1024) "PADRAO" 0 = Raise OverflowError.
Proof. vm_compute. reflexivity. Qed.

(** C3 (amended). For every [gross_amount] with
    [0 <= gross_amount < 2^1024 - 2^970], every sector and every
    [seller_credits], [calculate_standard] returns
    [credit_offset = min(seller_credits, total_tax)]; whenever
    [seller_credits >= total_tax] (for instance
    [seller_credits = 10 * total_tax]) [credit_offset] equals [total_tax]
    exactly, and it never exceeds it. *)
Theorem credit_offset_is_min (g : Z) (sec : string) (credits : Z) :
  0 <= g < float_limit ->
  exists r,
    calculate_standard g sec credits = Ok r
    /\ credit_offset r = Z.min credits (total_tax r)
    /\ credit_offset r <= total_tax r
    /\ (total_tax r <= credits -> credit_offset r = total_tax r)
    /\ (credits = 10 * total_tax r -> credit_offset r = total_tax r).
Proof.
  intros Hg.
  destruct (calculate_standard_returns g sec credits Hg)
    as (r & Hr & H1 & H2 & H3 & Hle).
  pose proof (calculate_standard_inv _ _ _ _ Hr) as E.
  pose proof (se_total _ _ _ _ E) as Ht. pose proof (se_offset _ _ _ _ E) as Ho.
  exists r. split; [exact Hr|]. repeat split; lia.
Qed.

Lemma credit_offset_is_min_witness :
  0 <= 1000 * 10 ^ 18 < float_limit
  /\ exists r,
       calculate_standard (1000 * 10 ^ 18) "PADRAO" (2450 * 10 ^ 18) = Ok r
       /\ credit_offset r = total_tax r.
Proof.
  assert (H : 0 <= 1000 * 10 ^ 18 < float_limit)
    by (split; [discriminate | reflexivity]).
  split; [exact H|].
  destruct (credit_offset_is_min (1000 * 10 ^ 18) "PADRAO" (2450 * 10 ^ 18) H)
    as (r & Hr & _ & _ & _ & Hten).
  exists r. split; [exact Hr|].
  apply Hten. pose proof Hr as Hr'. vm_compute in Hr'. injection Hr' as <-.
  reflexivity.
Defined.

(* --------------------------------------------------------------------- *)
(** *** C4 *)

(** C4 as stated fails for [calculate_simplified]: its [effective_rate] is
    [rate_bps / 10000] whatever the amount, so for [gross_amount = 0] and
    sector PADRAO it is 0.265, not 0. *)
Lemma simplified_effective_rate_nonzero_at_zero_gross :
  exists r,
    calculate_simplified 0 "PADRAO" = Ok r
    /\ s_effective_rate r = PyFloat (S754_finite false 4773815605012726 (-54))
    /\ is_zero (s_effective_rate r) = false.
Proof. eexists. split; [vm_compute; reflexivity|]. split; reflexivity. Qed.

(** C4 (amended). Whenever [gross_amount = 0] (and [seller_credits >= 0]),
    neither function raises. [calculate_standard] returns every tax amount
    equal to 0 and, by its explicit guard, [effective_rate = 0].
    [calculate_simplified] returns [tax_amount = 0] and
    [net_to_seller = 0]; its [effective_rate] is the sector's nominal rate
    [rate_bps / 10000], which does not depend on the amount and is 0 only
    for a sector whose [rate_bps] is 0. *)
Theorem zero_gross_amounts (sec : string) (credits : Z) :
  0 <= credits ->
  (exists r,
     calculate_standard 0 sec credits = Ok r
     /\ cbs_amount r = 0 /\ ibs_state_amount r = 0 /\ ibs_city_amount r = 0
     /\ total_tax r = 0 /\ credit_offset r = 0 /\ net_tax r = 0
     /\ net_to_seller r = 0 /\ effective_rate r = PyInt 0)
  /\ (exists s,
        calculate_simplified 0 sec = Ok s
        /\ s_tax_amount s = 0 /\ s_net_to_seller s = 0
        /\ (exists f, int_truediv (bps_for sec) 10000 = Ok f
                      /\ s_effective_rate s = PyFloat f)
        /\ (is_zero (s_effective_rate s) = true <-> bps_for sec = 0)).
Proof.
  intros Hc.
  assert (Hg : 0 <= 0 < float_limit) by (split; [lia | exact float_limit_pos]).
  split.
  - destruct (calculate_standard_returns 0 sec credits Hg)
      as (r & Hr & H1 & H2 & H3 & Hle).
    pose proof (calculate_standard_inv _ _ _ _ Hr) as E.
    pose proof (se_total _ _ _ _ E) as Ht. pose proof (se_offset _ _ _ _ E) as Ho.
    pose proof (se_net_tax _ _ _ _ E) as Hn. pose proof (se_net _ _ _ _ E) as Hs.
    pose proof (se_rate _ _ _ _ E) as Hrate. cbn in Hrate.
    exists r. split; [exact Hr|]. repeat split; try lia. exact Hrate.
  - destruct (calculate_simplified_returns 0 sec Hg) as (s & Hs & Ht).
    pose proof (calculate_simplified_inv _ _ _ Hs) as E.
    pose proof (sm_net _ _ _ E) as Hn.
    destruct (sm_rate _ _ _ E) as (f & Hf & Hrate).
    exists s. split; [exact Hs|]. split; [lia|]. split; [lia|].
    split; [eauto|].
    rewrite Hrate.
    destruct (bps_for_cases sec) as [Hb | [Hb | Hb]]; rewrite Hb in Hf |- *;
      vm_compute in Hf; injection Hf as <-; cbn; split; intros; try lia;
      try discriminate; reflexivity.
Qed.

Lemma zero_gross_amounts_witness :
  0 <= 50 /\ exists r, calculate_standard 0 "SAUDE" 50 = Ok r /\ total_tax r = 0
                       /\ effective_rate r = PyInt 0.
Proof.
  assert (H : 0 <= 50) by discriminate.
  split; [exact H|].
  destruct (zero_gross_amounts "SAUDE" 50 H)
    as ((r & Hr & _ & _ & _ & Ht & _ & _ & _ & He) & _).
  exists r. auto.
Defined.

(* --------------------------------------------------------------------- *)
(** *** C5 *)




(* --------------------------------------------------------------------- *)
(** *** C6 *)

(** C6 as stated fails: not every non-negative [gross_amount] yields a
    result. At [2^1024 - 2^970], the least integer that rounds to
    [2^1024], the conversion to [float] raises [OverflowError]. *)
Lemma standard_invariants_absent_on_overflow :
  calculate_standard (2 ^ 1024 - 2 ^ 970) "SAUDE" 0 = Raise OverflowError.
Proof. vm_compute. reflexivity. Qed.

(** C6 (amended). For every [gross_amount] with
    [0 <= gross_amount < 2^1024 - 2^970], every sector (in the rate table
    or not) and every non-negative [seller_credits], the result of
    [calculate_standard] satisfies [credit_offset <= total_tax],
    [credit_offset <= seller_credits],
    [net_tax <= total_tax <= gross_amount] and
    [net_to_seller = gross_amount - net_tax >= 0]. *)
Theorem standard_invariants (g : Z) (sec : string) (credits : Z) :
  0 <= g < float_limit -> 0 <= credits ->
  exists r,
    calculate_standard g sec credits = Ok r
    /\ 0 <= credit_offset r
    /\ credit_offset r <= total_tax r
    /\ credit_offset r <= credits
    /\ 0 <= net_tax r
    /\ net_tax r <= total_tax r
    /\ total_tax r <= g
    /\ net_to_seller r = g - net_tax r
    /\ 0 <= net_to_seller r.
Proof.
  intros Hg Hc.
  destruct (calculate_standard_returns g sec credits Hg)
    as (r & Hr & H1 & H2 & H3 & Hle).
  pose proof (calculate_standard_inv _ _ _ _ Hr) as E.
  pose proof (se_total _ _ _ _ E) as Ht. pose proof (se_offset _ _ _ _ E) as Ho.
  pose proof (se_net_tax _ _ _ _ E) as Hn. pose proof (se_net _ _ _ _ E) as Hs.
  exists r. split; [exact Hr|]. repeat split; lia.
Qed.

Lemma standard_invariants_witness :
  0 <= 1000 * 10 ^ 18 < float_limit /\ 0 <= 50 * 10 ^ 18
  /\ exists r,
       calculate_standard (1000 * 10 ^ 18) "COMBUSTIVEIS" (50 * 10 ^ 18) = Ok r
       /\ total_tax r <= 1000 * 10 ^ 18 /\ 0 <= net_to_seller r.
Proof.
  assert (H : 0 <= 1000 * 10 ^ 18 < float_limit)
    by (split; [discriminate | reflexivity]).
  assert (Hc : 0 <= 50 * 10 ^ 18) by discriminate.
  split; [exact H|]. split; [exact Hc|].
  destruct (standard_invariants (1000 * 10 ^ 18) "COMBUSTIVEIS" (50 * 10 ^ 18) H Hc)
    as (r & Hr & _ & _ & _ & _ & _ & Hle & _ & Hnn).
  exists r. auto.
Defined.

(* --------------------------------------------------------------------- *)
(** *** C7 *)



(* --------------------------------------------------------------------- *)
(** *** C8 *)

(** The two calls of [Replay] return the same signature whatever the hash
    and the signing primitive are, as soon as the two seller strings decode
    to the intended addresses. *)
Lemma replay_across_regimes {lib : EthLib} (now1 now2 : string)
      (self : FiscalOracle) :
  address_bytes Replay.std_seller
  = Some (be_bytes 20 0x1111111111111111111111111111111111111111) ->
  address_bytes Replay.simp_seller = Some (be_bytes 20 0x0440460b5b28db80) ->
  exists std simp self1 self2,
    authorize_standard Replay.std_id Replay.std_seller Replay.std_gross
      "PADRAO" Replay.std_credits now1 self = (Ok std, self1)
    /\ authorize_simplified Replay.simp_id Replay.simp_seller Replay.simp_gross
         "PADRAO" now2 self = (Ok simp, self2)
    /\ mode std = STANDARD /\ mode simp = SIMPLIFIED
    /\ signature simp = signature std.
Proof.
  intros Hstd Hsimp.
  destruct (authorize_standard_returns Replay.std_id Replay.std_seller
              Replay.std_gross "PADRAO" Replay.std_credits now1 self _ Hstd)
    as (std & self1 & H1).
  { split; [discriminate | reflexivity]. }
  { discriminate. }
  destruct (authorize_simplified_returns Replay.simp_id Replay.simp_seller
              Replay.simp_gross "PADRAO" now2 self _ Hsimp)
    as (simp & self2 & H2).
  { split; [discriminate | reflexivity]. }
  exists std, simp, self1, self2.
  split; [exact H1|]. split; [exact H2|].
  destruct (authorize_standard_Ok _ _ _ _ _ _ _ _ _ H1)
    as (tax & addr & Htax & Ha & _ & Hsig & Hf & _).
  destruct (authorize_simplified_Ok _ _ _ _ _ _ _ _ H2)
    as (stax & saddr & Hstax & Hsa & _ & Hssig & Hsf & _).
  split; [tauto|]. split; [tauto|].
  rewrite Hsig, Hssig. f_equal.
  assert (addr = be_bytes 20 0x1111111111111111111111111111111111111111)
    by congruence.
  assert (saddr = be_bytes 20 0x0440460b5b28db80) by congruence.
  subst addr saddr.
  vm_compute in Htax. injection Htax as <-.
  vm_compute in Hstax. injection Hstax as <-.
  vm_compute. reflexivity.
Qed.




(* --------------------------------------------------------------------- *)
(** *** C9 *)

Lemma serve_frame {lib : EthLib} (rq : request) (self self' : FiscalOracle)
      (res : result SignedInvoice) :
  serve rq self = (res, self') ->
  private_key self' = private_key self /\ account self' = account self
  /\ address self' = address self
  /\ signatures_issued self' = signatures_issued self + returned res.
Proof.
  destruct rq as [nfe who g sec credits now | nfe who g sec now];
    cbn [serve]; intros H; destruct res as [inv | e]; cbn [returned].
  - destruct (authorize_standard_Ok _ _ _ _ _ _ _ _ _ H)
      as (tax & addr & _ & _ & _ & _ & _ & Hst). exact Hst.
  - rewrite (authorize_standard_Raise _ _ _ _ _ _ _ _ _ H).
    repeat split; lia.
  - destruct (authorize_simplified_Ok _ _ _ _ _ _ _ _ H)
      as (tax & addr & _ & _ & _ & _ & _ & Hst). exact Hst.
  - rewrite (authorize_simplified_Raise _ _ _ _ _ _ _ _ H).
    repeat split; lia.
Qed.

(** C9 as stated fails: a call that raises does not reach the increment.
    With an amount that does not fit a [float], [authorize_standard] raises
    [OverflowError] and [signatures_issued] is what it was. *)
Lemma raising_call_leaves_count :
  authorize_standard (lib := plain_lib) "NFe1" demo_seller (2 ^ 1024) "PADRAO" 0
    "2026-02-01T00:00:00" plain_oracle
  = (Raise OverflowError, plain_oracle)
  /\ signatures_issued plain_oracle <> signatures_issued plain_oracle + 1.
Proof. split; [vm_compute; reflexivity | discriminate]. Qed.

(** C9 (amended). Every call to [authorize_standard] or
    [authorize_simplified] that returns an authorization increments the
    signer's [signatures_issued] by exactly 1, and a call that raises
    leaves it as it was; in both cases no other signer state changes (the
    private key, the account and the signer address are the same before
    and after). Hence over any sequence of [authorize_*] calls the counter
    never decreases and grows by the number of calls that returned. *)
Theorem issuance_count_counts_returned_calls {lib : EthLib}
    (rqs : list request) (self : FiscalOracle) :
  (forall rq res self',
     serve rq self = (res, self') ->
     private_key self' = private_key self /\ account self' = account self
     /\ address self' = address self
     /\ signatures_issued self' = signatures_issued self + returned res)
  /\ private_key (fst (serve_all rqs self)) = private_key self
  /\ account (fst (serve_all rqs self)) = account self
  /\ address (fst (serve_all rqs self)) = address self
  /\ signatures_issued (fst (serve_all rqs self))
     = signatures_issued self + snd (serve_all rqs self)
  /\ 0 <= snd (serve_all rqs self) <= Z.of_nat (length rqs)
  /\ signatures_issued self <= signatures_issued (fst (serve_all rqs self)).
Proof.
  split; [intros rq res self' H; exact (serve_frame rq self self' res H)|].
  revert self. induction rqs as [| rq rest IH]; intros self.
  - cbn. repeat split; lia.
  - cbn [serve_all length].
    destruct (serve rq self) as [res self1] eqn:H1.
    destruct (serve_frame rq self self1 res H1) as (K1 & K2 & K3 & K4).
    specialize (IH self1). destruct (serve_all rest self1) as [final n].
    cbn [fst snd] in *. destruct IH as (I1 & I2 & I3 & I4 & I5 & I6).
    assert (0 <= returned res <= 1) by (destruct res; cbn; lia).
    repeat split; try congruence; lia.
Qed.

Lemma issuance_count_counts_returned_calls_witness :
  signatures_issued
    (fst (serve_all (lib := plain_lib)
            [ Standard "NFe1" demo_seller (1000 * 10 ^ 18) "PADRAO" 0 "t1";
              Standard "NFe2" demo_seller (2 ^ 1024) "PADRAO" 0 "t2";
              Simplified "NFe3" demo_seller (200 * 10 ^ 18) "PADRAO" "t3" ]
            plain_oracle))
  = signatures_issued plain_oracle + 2.
Proof.
  destruct (issuance_count_counts_returned_calls (lib := plain_lib)
              [ Standard "NFe1" demo_seller (1000 * 10 ^ 18) "PADRAO" 0 "t1";
                Standard "NFe2" demo_seller (2 ^ 1024) "PADRAO" 0 "t2";
                Simplified "NFe3" demo_seller (200 * 10 ^ 18) "PADRAO" "t3" ]
              plain_oracle) as (_ & _ & _ & _ & Hcount & _).
  rewrite Hcount. vm_compute. reflexivity.
Defined.

(* --------------------------------------------------------------------- *)
(** *** C10 *)

(** C10. For every input sector string, known to the tables or not, every
    dictionary returned by [calculate_standard] or [calculate_simplified]
    carries a [sector] field equal to the caller's string verbatim (the
    fallback changes the rates used, never the reported sector) and echoes
    [gross_amount] unchanged; such a dictionary is returned for every
    amount with [0 <= gross_amount < 2^1024 - 2^970]. *)
Theorem result_echoes_sector_and_gross (g : Z) (sec : string) (credits : Z) :
  (forall r, calculate_standard g sec credits = Ok r ->
             sector r = sec /\ gross_amount r = g)
  /\ (forall s, calculate_simplified g sec = Ok s ->
                s_sector s = sec /\ s_gross_amount s = g)
  /\ (0 <= g < float_limit ->
      (exists r, calculate_standard g sec credits = Ok r
                 /\ sector r = sec /\ gross_amount r = g)
      /\ (exists s, calculate_simplified g sec = Ok s
                    /\ s_sector s = sec /\ s_gross_amount s = g)).
Proof.
  assert (Hstd : forall r, calculate_standard g sec credits = Ok r ->
                           sector r = sec /\ gross_amount r = g).
  { intros r Hr. pose proof (calculate_standard_inv _ _ _ _ Hr) as E.
    split; [exact (se_sector _ _ _ _ E) | exact (se_gross _ _ _ _ E)]. }
  assert (Hsim : forall s, calculate_simplified g sec = Ok s ->
                           s_sector s = sec /\ s_gross_amount s = g).
  { intros s Hs. pose proof (calculate_simplified_inv _ _ _ Hs) as E.
    split; [exact (sm_sector _ _ _ E) | exact (sm_gross _ _ _ E)]. }
  split; [exact Hstd|]. split; [exact Hsim|].
  intros Hg. split.
  - destruct (calculate_standard_returns g sec credits Hg) as (r & Hr & _).
    exists r. split; [exact Hr | exact (Hstd r Hr)].
  - destruct (calculate_simplified_returns g sec Hg) as (s & Hs & _).
    exists s. split; [exact Hs | exact (Hsim s Hs)].
Qed.

Lemma result_echoes_sector_and_gross_witness :
  0 <= 12345 < float_limit
  /\ exists r, calculate_standard 12345 "SETOR_DESCONHECIDO" 7 = Ok r
               /\ sector r = "SETOR_DESCONHECIDO" /\ gross_amount r = 12345.
Proof.
  assert (H : 0 <= 12345 < float_limit) by (split; [discriminate | reflexivity]).
  split; [exact H|].
  destruct (result_echoes_sector_and_gross 12345 "SETOR_DESCONHECIDO" 7)
    as (_ & _ & Htot).
  destruct (Htot H) as ((r & Hr & Hs & Hgr) & _).
  exists r. auto.
Defined.

(* ===================================================================== *)
(** ** 8. Signs and the overflow threshold *)
(* ===================================================================== *)

Module SignFacts.

(** The sign is carried through rounding untouched. *)
Lemma binary_round_aux_opp (s : bool) (m e : Z) (l : location) :
  binary_round_aux prec emax (negb s) m e l
  = SFopp (binary_round_aux prec emax s m e l).
Proof.
  unfold binary_round_aux.
  destruct (shr_fexp prec emax m e l) as [r1 e1].
  destruct (shr_fexp prec emax _ e1 loc_Exact) as [r2 e2].
  destruct (shr_m r2); [reflexivity | | reflexivity].
  destruct (e2 <=? emax - prec); reflexivity.
Qed.

Lemma float_mul_opp (x y : float) :
  float_mul (SFopp x) y = SFopp (float_mul x y).
Proof.
  unfold float_mul.
  destruct x as [sx | sx | | sx mx ex], y as [sy | sy | | sy my ey];
    cbn [SFopp SFmul]; try reflexivity;
    try (destruct sx, sy; reflexivity).
  replace (xorb (negb sx) sy) with (negb (xorb sx sy)) by (destruct sx, sy; reflexivity).
  apply binary_round_aux_opp.
Qed.

Lemma int_of_float_opp (x : float) :
  int_of_float (SFopp x) = Py.map Z.opp (int_of_float x).
Proof.
  destruct x as [s | s | | s m e]; cbn; try reflexivity.
  destruct s; cbn; f_equal; lia.
Qed.

Lemma float_of_int_opp (g : Z) :
  g <> 0 -> float_of_int (- g) = Py.map SFopp (float_of_int g).
Proof.
  intros Hg.
  destruct g as [| p | p]; [congruence | |].
  - change (- Zpos p) with (Zneg p).
    unfold float_of_int, binary_normalize, binary_round.
    destruct (shl_align _ _ _) as [mz ez].
    change true with (negb false). rewrite binary_round_aux_opp.
    destruct (binary_round_aux prec emax false (Zpos mz) ez loc_Exact); reflexivity.
  - change (- Zneg p) with (Zpos p).
    unfold float_of_int, binary_normalize, binary_round.
    destruct (shl_align _ _ _) as [mz ez].
    change false with (negb true) at 1. rewrite binary_round_aux_opp.
    destruct (binary_round_aux prec emax true (Zpos mz) ez loc_Exact); reflexivity.
Qed.

(** One share [int(g * rate)], as [calculate_standard] evaluates it. *)
Lemma share_opp (g : Z) (rate : float) :
  (let! f := int_mul_float (- g) rate in int_of_float f)
  = Py.map Z.opp (let! f := int_mul_float g rate in int_of_float f).
Proof.
  destruct (Z.eq_dec g 0) as [-> | Hg].
  - cbn [Z.opp]. unfold int_mul_float, float_of_int. cbn.
    destruct rate as [s | s | | s m e]; reflexivity.
  - unfold int_mul_float. rewrite (float_of_int_opp g Hg).
    destruct (float_of_int g) as [x | e]; cbn [Py.map Py.bind]; [|reflexivity].
    rewrite float_mul_opp, int_of_float_opp. reflexivity.
Qed.

Lemma int_truediv_opp (a b : Z) :
  0 < a -> 0 < b -> int_truediv (- a) b = Py.map SFopp (int_truediv a b).
Proof.
  intros Ha Hb. unfold int_truediv.
  destruct (Z.eqb_spec b 0); [lia|].
  destruct (Z.eqb_spec a 0); [lia|]. destruct (Z.eqb_spec (- a) 0); [lia|].
  destruct a as [| pa | pa]; try lia. destruct b as [| pb | pb]; try lia.
  change (- Zpos pa) with (Zneg pa).
  cbn [exact_of_int SFdiv].
  destruct (SFdiv_core_binary prec emax (Zpos pa) 0 (Zpos pb) 0) as [[mz ez] lz].
  change (xorb true false) with (negb (xorb false false)).
  rewrite binary_round_aux_opp.
  destruct (binary_round_aux prec emax (xorb false false) mz ez lz); reflexivity.
Qed.

(** A round bit set under an odd quotient rounds away from zero. *)
Lemma binary_round_aux_up (s : bool) (m e : Z) (lx : location) :
  0 <= m ->
  let n := fexp prec emax (Zdigits2 m + e) - e in
  0 < n ->
  Z.odd (m / 2 ^ (n - 1)) = true -> Z.odd (m / 2 ^ n) = true ->
  let m1 := m / 2 ^ n + 1 in
  let e1 := e + n in
  let n2 := Z.max 0 (fexp prec emax (Zdigits2 m1 + e1) - e1) in
  binary_round_aux prec emax s m e lx = finish s (m1 / 2 ^ n2) (e1 + n2).
Proof.
  intros Hm n Hn Hround Hodd m1 e1 n2.
  unfold binary_round_aux, shr_fexp.
  destruct (shr_spec (shr_record_of_loc m lx) e
              (fexp prec emax (Zdigits2 m + e) - e)) as (r1 & E1 & Hm1 & _ & Hr1).
  { rewrite shr_record_of_loc_m. assumption. }
  rewrite E1. rewrite shr_record_of_loc_m in Hm1, Hr1. fold n in Hm1, Hr1 |- *.
  replace (Z.max 0 n) with n in * by lia.
  specialize (Hr1 Hn). rewrite Hround in Hr1.
  assert (Hup : round_nearest_even (shr_m r1) (loc_of_shr_record r1) = m1).
  { unfold m1. rewrite <- Hm1. rewrite <- Hm1 in Hodd.
    destruct r1 as [q g st]. cbn in Hr1, Hodd |- *. subst g.
    destruct st; cbn; [reflexivity|].
    rewrite <- Z.negb_odd, Hodd. reflexivity. }
  rewrite Hup. fold e1.
  assert (Hm1nn : 0 <= m1).
  { unfold m1. assert (0 <= m / 2 ^ n); [|lia].
    apply Z.div_pos; [assumption | apply Z.pow_pos_nonneg; lia]. }
  destruct (shr_spec (shr_record_of_loc m1 loc_Exact) e1
              (fexp prec emax (Zdigits2 m1 + e1) - e1))
    as (r2 & E2 & Hm2 & _ & _).
  { cbn. assumption. }
  rewrite E2. cbn [shr_record_of_loc shr_m] in Hm2. rewrite Hm2.
  reflexivity.
Qed.

(** [float(g)] raises from [float_limit] on. *)
Lemma float_of_int_overflow (g : Z) :
  float_limit <= g -> float_of_int g = Raise OverflowError.
Proof.
  intros Hlim. pose proof float_limit_pos as Hfl.
  destruct g as [| p | p]; try lia.
  assert (Hpos : 0 < Zpos p) by lia.
  unfold float_of_int, binary_normalize, binary_round.
  set (d := Zpos (digits2_pos p)).
  pose proof (digits2_pos_bounds p) as [Hlo Hhi]. fold d in Hlo, Hhi.
  assert (Hd : 1024 <= d).
  { destruct (Z_le_gt_dec 1024 d) as [|Hgt]; [assumption|]. exfalso.
    assert (2 ^ d <= 2 ^ 1023) by (apply Z.pow_le_mono_r; lia).
    unfold float_limit in Hlim.
    assert (2 ^ 1023 < 2 ^ 1024 - 2 ^ 970) by reflexivity. lia. }
  rewrite (fexp_normal (d + 0)) by lia.
  unfold shl_align.
  destruct (d + 0 - 53 - 0) as [| k | k] eqn:Hk; try lia.
  destruct (Z_le_gt_dec 1025 d) as [Hbig | Hsmall].
  - (* at least [2 ^ 1024]: the exponent alone is out of range *)
    destruct (round_normal false (Zpos p) 0 loc_Exact Hpos) as (m1 & Hcases & _ & Heq).
    { cbn [Zdigits2]. fold d. lia. }
    cbn [Zdigits2] in Hcases, Heq. fold d in Hcases, Heq.
    replace (Z.max 0 (d - 53)) with (d - 53) in Hcases, Heq by lia.
    pose proof (div_pow2_53 (Zpos p) Hpos) as Hq.
    cbn [Zdigits2] in Hq. fold d in Hq. specialize (Hq ltac:(lia)).
    rewrite Heq.
    destruct (Z.ltb_spec m1 (2 ^ 53)) as [Hlt|Hge].
    + destruct m1 as [| m1p | m1p]; try lia.
      unfold finish. replace (0 + (d - 53) <=? emax - prec) with false; [reflexivity|].
      symmetry. apply Z.leb_gt. unfold emax, prec. lia.
    + unfold finish. change (2 ^ 52) with (Zpos (2 ^ 52)%positive). cbv iota.
      replace (0 + (d - 53) + 1 <=? emax - prec) with false; [reflexivity|].
      symmetry. apply Z.leb_gt. unfold emax, prec. lia.
  - (* between the threshold and [2 ^ 1024]: rounded up to [2 ^ 1024] *)
    assert (Hd' : d = 1024) by lia.
    assert (Hlt : Zpos p < 2 ^ 1024) by (rewrite Hd' in Hhi; exact Hhi).
    unfold float_limit in Hlim.
    assert (Hq1 : Zpos p / 2 ^ 970 = 2 ^ 54 - 1).
    { symmetry. apply Z.div_unique with (r := Zpos p - (2 ^ 54 - 1) * 2 ^ 970).
      - left. change (2 ^ 1024) with (2 ^ 54 * 2 ^ 970) in *. lia.
      - lia. }
    assert (Hq2 : Zpos p / 2 ^ 971 = 2 ^ 53 - 1).
    { symmetry. apply Z.div_unique with (r := Zpos p - (2 ^ 53 - 1) * 2 ^ 971).
      - left. change (2 ^ 1024) with (2 ^ 53 * 2 ^ 971) in *.
        change (2 ^ 970) with (2 ^ 970 * 1) in Hlim.
        assert (2 ^ 971 = 2 ^ 970 * 2) by reflexivity. lia.
      - lia. }
    assert (Hn : fexp prec emax (Zdigits2 (Zpos p) + 0) - 0 = 971).
    { cbn [Zdigits2]. fold d. rewrite fexp_normal by lia. lia. }
    pose proof (binary_round_aux_up false (Zpos p) 0 loc_Exact ltac:(lia)) as Hup.
    cbv zeta in Hup. rewrite Hn in Hup.
    change (971 - 1) with 970 in Hup. rewrite Hq1, Hq2 in Hup.
    rewrite (Hup ltac:(lia) eq_refl eq_refl). reflexivity.
Qed.

Lemma float_of_int_returns (g : Z) :
  Z.abs g < float_limit -> exists f, float_of_int g = Ok f.
Proof.
  intros Hg. destruct (Z.lt_trichotomy g 0) as [Hneg | [-> | Hpos]].
  - destruct (float_of_int_pos (- g) ltac:(lia)) as (mg & eg & Hf & _).
    replace g with (- - g) by lia. rewrite float_of_int_opp by lia.
    rewrite Hf. eexists. reflexivity.
  - eexists. reflexivity.
  - destruct (float_of_int_pos g ltac:(lia)) as (mg & eg & Hf & _). eauto.
Qed.

Lemma float_of_int_overflow_abs (g : Z) :
  float_limit <= Z.abs g -> float_of_int g = Raise OverflowError.
Proof.
  intros Hg. pose proof float_limit_pos.
  destruct (Z_lt_le_dec g 0) as [Hneg | Hpos].
  - replace g with (- - g) by lia. rewrite float_of_int_opp by lia.
    rewrite float_of_int_overflow by lia. reflexivity.
  - apply float_of_int_overflow. lia.
Qed.

End SignFacts.

Import SignFacts.

(* ===================================================================== *)
(** ** 9. Further properties of the tax engine *)
(* ===================================================================== *)

Lemma int_mul_float_opp (g : Z) (rate : float) :
  g <> 0 -> int_mul_float (- g) rate = Py.map SFopp (int_mul_float g rate).
Proof.
  intros Hg. unfold int_mul_float. rewrite (float_of_int_opp g Hg).
  destruct (float_of_int g) as [x | e]; cbn [Py.map Py.bind]; [|reflexivity].
  rewrite float_mul_opp. reflexivity.
Qed.

Lemma int_mul_float_overflow (g : Z) (rate : float) :
  float_limit <= Z.abs g -> int_mul_float g rate = Raise OverflowError.
Proof.
  intros Hg. unfold int_mul_float. rewrite float_of_int_overflow_abs by assumption.
  reflexivity.
Qed.

(** The dictionary computed for [- g], from the one computed for [g]. *)
Lemma calculate_standard_neg (g : Z) (sec : string) (c c' : Z) (r : standard_tax) :
  0 < g -> calculate_standard g sec c = Ok r ->
  calculate_standard (- g) sec c'
  = Ok {| gross_amount := - g;
          cbs_amount := - cbs_amount r;
          ibs_state_amount := - ibs_state_amount r;
          ibs_city_amount := - ibs_city_amount r;
          total_tax := - cbs_amount r + - ibs_state_amount r + - ibs_city_amount r;
          credit_offset :=
            Z.min c' (- cbs_amount r + - ibs_state_amount r + - ibs_city_amount r);
          net_tax :=
            - cbs_amount r + - ibs_state_amount r + - ibs_city_amount r
            - Z.min c' (- cbs_amount r + - ibs_state_amount r + - ibs_city_amount r);
          net_to_seller :=
            - g - (- cbs_amount r + - ibs_state_amount r + - ibs_city_amount r
                   - Z.min c' (- cbs_amount r + - ibs_state_amount r
                               + - ibs_city_amount r));
          effective_rate := PyInt 0;
          sector := sec |}.
Proof.
  intros Hg Hr. pose proof (calculate_standard_inv _ _ _ _ Hr) as E.
  destruct (se_cbs _ _ _ _ E) as (f1 & Hf1 & HT1).
  destruct (se_state _ _ _ _ E) as (f2 & Hf2 & HT2).
  destruct (se_city _ _ _ _ E) as (f3 & Hf3 & HT3).
  unfold calculate_standard. rewrite getitem_padrao. cbn [Py.bind].
  fold (rates_for sec).
  rewrite !int_mul_float_opp by lia. rewrite Hf1, Hf2, Hf3. cbn [Py.map Py.bind].
  rewrite !int_of_float_opp. rewrite HT1, HT2, HT3. cbn [Py.map Py.bind].
  destruct (Z.gtb_spec (- g) 0) as [Hpos|_]; [lia|]. cbn [Py.bind].
  reflexivity.
Qed.

Lemma calculate_simplified_neg (g : Z) (sec : string) (r : simplified_tax) :
  0 < g -> calculate_simplified g sec = Ok r ->
  calculate_simplified (- g) sec
  = Ok {| s_gross_amount := - g;
          s_rate_bps := s_rate_bps r;
          s_tax_amount := - s_tax_amount r;
          s_net_to_seller := - g - - s_tax_amount r;
          s_effective_rate := s_effective_rate r;
          s_sector := sec |}.
Proof.
  intros Hg Hr. pose proof (calculate_simplified_inv _ _ _ Hr) as E.
  destruct (sm_tax _ _ _ E) as (f & Hf & HT).
  destruct (sm_rate _ _ _ E) as (fr & Hfr & Hrate).
  pose proof (sm_bps _ _ _ E) as Hbps.
  unfold calculate_simplified. fold (bps_for sec).
  rewrite Hfr, Hrate, Hbps.
  destruct (bps_for_cases sec) as [Hb | [Hb | Hb]]; rewrite Hb in *.
  - replace (- g * 2650) with (- (g * 2650)) by lia.
    rewrite int_truediv_opp by lia. rewrite Hf. cbn [Py.map Py.bind].
    rewrite int_of_float_opp, HT. reflexivity.
  - replace (- g * 1325) with (- (g * 1325)) by lia.
    rewrite int_truediv_opp by lia. rewrite Hf. cbn [Py.map Py.bind].
    rewrite int_of_float_opp, HT. reflexivity.
  - rewrite Z.mul_0_r in *. cbn in Hf. injection Hf as <-.
    cbn in HT. injection HT as <-. reflexivity.
Qed.

(** The outcome depends on the sector through its table entry only. *)
Lemma calculate_standard_same_rates (s1 s2 : string) (g c : Z) :
  rates_for s1 = rates_for s2 ->
  calculate_standard g s1 c = Py.map (with_sector s1) (calculate_standard g s2 c).
Proof.
  intros HR. unfold calculate_standard. rewrite getitem_padrao. cbn [Py.bind].
  fold (rates_for s1). fold (rates_for s2). rewrite HR. unfold Py.map.
  destruct (int_mul_float g (CBS (rates_for s2))) as [f1|]; cbn [Py.bind]; [|reflexivity].
  destruct (int_of_float f1) as [t1|]; cbn [Py.bind]; [|reflexivity].
  destruct (int_mul_float g (IBS_ESTADO (rates_for s2))) as [f2|]; cbn [Py.bind]; [|reflexivity].
  destruct (int_of_float f2) as [t2|]; cbn [Py.bind]; [|reflexivity].
  destruct (int_mul_float g (IBS_MUNICIPIO (rates_for s2))) as [f3|]; cbn [Py.bind]; [|reflexivity].
  destruct (int_of_float f3) as [t3|]; cbn [Py.bind]; [|reflexivity].
  destruct (if g >? 0 then _ else _) as [er|]; cbn [Py.bind]; reflexivity.
Qed.

Lemma calculate_simplified_same_rate (s1 s2 : string) (g : Z) :
  bps_for s1 = bps_for s2 ->
  calculate_simplified g s1 = Py.map (s_with_sector s1) (calculate_simplified g s2).
Proof.
  intros HB. unfold calculate_simplified.
  fold (bps_for s1). fold (bps_for s2). rewrite HB. unfold Py.map.
  destruct (int_truediv (g * bps_for s2) 10000) as [f|]; cbn [Py.bind]; [|reflexivity].
  destruct (int_of_float f) as [t|]; cbn [Py.bind]; [|reflexivity].
  destruct (int_truediv (bps_for s2) 10000) as [er|]; cbn [Py.bind]; reflexivity.
Qed.

(** The part of [calculate_standard] that does not read the credits. *)
Lemma calculate_standard_credits (g : Z) (sec : string) (c c' : Z) (r : standard_tax) :
  calculate_standard g sec c = Ok r ->
  calculate_standard g sec c'
  = Ok {| gross_amount := gross_amount r;
          cbs_amount := cbs_amount r;
          ibs_state_amount := ibs_state_amount r;
          ibs_city_amount := ibs_city_amount r;
          total_tax := total_tax r;
          credit_offset := Z.min c' (total_tax r);
          net_tax := total_tax r - Z.min c' (total_tax r);
          net_to_seller := g - (total_tax r - Z.min c' (total_tax r));
          effective_rate := effective_rate r;
          sector := sector r |}.
Proof.
  unfold calculate_standard. rewrite getitem_padrao. cbn [Py.bind].
  fold (rates_for sec).
  destruct (int_mul_float g (CBS (rates_for sec))) as [f1|]; cbn [Py.bind]; [|discriminate].
  destruct (int_of_float f1) as [t1|]; cbn [Py.bind]; [|discriminate].
  destruct (int_mul_float g (IBS_ESTADO (rates_for sec))) as [f2|]; cbn [Py.bind]; [|discriminate].
  destruct (int_of_float f2) as [t2|]; cbn [Py.bind]; [|discriminate].
  destruct (int_mul_float g (IBS_MUNICIPIO (rates_for sec))) as [f3|]; cbn [Py.bind]; [|discriminate].
  destruct (int_of_float f3) as [t3|]; cbn [Py.bind]; [|discriminate].
  destruct (if g >? 0 then _ else _) as [er|]; cbn [Py.bind]; [|discriminate].
  intros [= <-]. reflexivity.
Qed.

Lemma calculate_standard_credits_raise (g : Z) (sec : string) (c c' : Z) (e : exn) :
  calculate_standard g sec c = Raise e -> calculate_standard g sec c' = Raise e.
Proof.
  unfold calculate_standard. rewrite getitem_padrao. cbn [Py.bind].
  fold (rates_for sec).
  destruct (int_mul_float g (CBS (rates_for sec))) as [f1|]; cbn [Py.bind]; [|auto].
  destruct (int_of_float f1) as [t1|]; cbn [Py.bind]; [|auto].
  destruct (int_mul_float g (IBS_ESTADO (rates_for sec))) as [f2|]; cbn [Py.bind]; [|auto].
  destruct (int_of_float f2) as [t2|]; cbn [Py.bind]; [|auto].
  destruct (int_mul_float g (IBS_MUNICIPIO (rates_for sec))) as [f3|]; cbn [Py.bind]; [|auto].
  destruct (int_of_float f3) as [t3|]; cbn [Py.bind]; [|auto].
  destruct (if g >? 0 then _ else _) as [er|]; cbn [Py.bind]; [discriminate|auto].
Qed.

(* --------------------------------------------------------------------- *)
(** *** X1 *)

(** X1. [calculate_standard] returns a dictionary exactly for the amounts
    whose magnitude is below [2^1024 - 2^970], whatever the sector and the
    credits, negative amounts included; from that magnitude on it raises
    [OverflowError] (the conversion of the amount to [float] in the first
    product). *)
Theorem standard_returns_iff_in_float_range (g : Z) (sec : string) (credits : Z) :
  (Z.abs g < float_limit -> exists r, calculate_standard g sec credits = Ok r)
  /\ (float_limit <= Z.abs g ->
      calculate_standard g sec credits = Raise OverflowError).
Proof.
  split.
  - intros Hg. destruct (Z_lt_le_dec g 0) as [Hneg | Hpos].
    + destruct (calculate_standard_returns (- g) sec credits ltac:(lia))
        as (r & Hr & _).
      replace g with (- - g) by lia.
      rewrite (calculate_standard_neg (- g) sec credits credits r ltac:(lia) Hr).
      eauto.
    + destruct (calculate_standard_returns g sec credits ltac:(lia)) as (r & Hr & _).
      eauto.
  - intros Hg. unfold calculate_standard. rewrite getitem_padrao. cbn [Py.bind].
    rewrite int_mul_float_overflow by assumption. reflexivity.
Qed.

Lemma standard_returns_iff_in_float_range_witness :
  (exists r, calculate_standard (- 5000) "SAUDE" 7 = Ok r)
  /\ calculate_standard (- 2 ^ 1024) "CESTA_BASICA" 0 = Raise OverflowError.
Proof.
  split.
  - apply (proj1 (standard_returns_iff_in_float_range (- 5000) "SAUDE" 7)).
    reflexivity.
  - apply (proj2 (standard_returns_iff_in_float_range (- 2 ^ 1024) "CESTA_BASICA" 0)).
    vm_compute. discriminate.
Defined.

(* --------------------------------------------------------------------- *)
(** *** X2 *)

(** X2. [calculate_standard] does not reject a negative amount: for
    [0 < g < 2^1024 - 2^970] the call with [- g] returns the three shares
    and the total of the call with [g] with their signs changed (the
    truncation is toward zero on both sides), so every share is [<= 0];
    [effective_rate] is the integer [0] of the guard, not a quotient, and
    [credit_offset] is still the minimum of the credits and the (now
    non-positive) total. *)
Theorem standard_negative_gross_is_mirrored (g : Z) (sec : string) (c c' : Z) :
  0 < g < float_limit ->
  exists r r',
    calculate_standard g sec c = Ok r
    /\ calculate_standard (- g) sec c' = Ok r'
    /\ cbs_amount r' = - cbs_amount r
    /\ ibs_state_amount r' = - ibs_state_amount r
    /\ ibs_city_amount r' = - ibs_city_amount r
    /\ total_tax r' = - total_tax r
    /\ (cbs_amount r' <= 0 /\ ibs_state_amount r' <= 0 /\ ibs_city_amount r' <= 0)
    /\ effective_rate r' = PyInt 0
    /\ credit_offset r' = Z.min c' (total_tax r')
    /\ net_to_seller r' = - g - (total_tax r' - credit_offset r')
    /\ gross_amount r' = - g.
Proof.
  intros Hg.
  destruct (calculate_standard_returns g sec c ltac:(lia)) as (r & Hr & H1 & H2 & H3 & _).
  pose proof (se_total _ _ _ _ (calculate_standard_inv _ _ _ _ Hr)) as Ht.
  exists r. eexists. split; [exact Hr|].
  split; [exact (calculate_standard_neg g sec c c' r ltac:(lia) Hr)|].
  cbn. rewrite Ht. repeat split; try lia; f_equal; lia.
Qed.

Lemma standard_negative_gross_is_mirrored_witness :
  0 < 1000 < float_limit
  /\ exists r', calculate_standard (- 1000) "PADRAO" 0 = Ok r'
                /\ cbs_amount r' <= 0 /\ effective_rate r' = PyInt 0.
Proof.
  assert (H : 0 < 1000 < float_limit) by (split; reflexivity).
  split; [exact H|].
  destruct (standard_negative_gross_is_mirrored 1000 "PADRAO" 0 0 H)
    as (r & r' & _ & Hr' & _ & _ & _ & _ & (Hc & _) & He & _).
  exists r'. auto.
Defined.

(* --------------------------------------------------------------------- *)
(** *** X3 *)

(** X3. [calculate_simplified] does not reject a negative amount either:
    for [0 < g < 2^1024 - 2^970] the call with [- g] returns the withheld
    amount and the net amount of the call with [g] with their signs
    changed, under the same [rate_bps] and [effective_rate]. *)
Theorem simplified_negative_gross_is_mirrored (g : Z) (sec : string) :
  0 < g < float_limit ->
  exists r r',
    calculate_simplified g sec = Ok r
    /\ calculate_simplified (- g) sec = Ok r'
    /\ s_tax_amount r' = - s_tax_amount r
    /\ s_net_to_seller r' = - s_net_to_seller r
    /\ s_tax_amount r' <= 0
    /\ s_rate_bps r' = s_rate_bps r
    /\ s_effective_rate r' = s_effective_rate r
    /\ s_gross_amount r' = - g.
Proof.
  intros Hg.
  destruct (calculate_simplified_returns g sec ltac:(lia)) as (r & Hr & Ht).
  pose proof (sm_net _ _ _ (calculate_simplified_inv _ _ _ Hr)) as Hn.
  exists r. eexists. split; [exact Hr|].
  split; [exact (calculate_simplified_neg g sec r ltac:(lia) Hr)|].
  cbn. repeat split; lia.
Qed.

Lemma simplified_negative_gross_is_mirrored_witness :
  0 < 1000 < float_limit
  /\ exists r', calculate_simplified (- 1000) "PADRAO" = Ok r'
                /\ s_tax_amount r' <= 0 /\ s_gross_amount r' = - 1000.
Proof.
  assert (H : 0 < 1000 < float_limit) by (split; reflexivity).
  split; [exact H|].
  destruct (simplified_negative_gross_is_mirrored 1000 "PADRAO" H)
    as (r & r' & _ & Hr' & _ & _ & Ht & _ & _ & Hg).
  exists r'. auto.
Defined.

(* --------------------------------------------------------------------- *)
(** *** X4 *)

(** X4. For every amount with [0 <= gross_amount < 2^1024 - 2^970] and
    every sector, [calculate_simplified] returns a withheld amount between
    0 and the gross amount and a net amount between 0 and the gross
    amount, the two adding up to the gross amount exactly; [rate_bps] is
    the sector's entry of the basis-point table (2650 when the sector is
    not in it). *)
Theorem simplified_amounts_bounded (g : Z) (sec : string) :
  0 <= g < float_limit ->
  exists r,
    calculate_simplified g sec = Ok r
    /\ 0 <= s_tax_amount r <= g
    /\ 0 <= s_net_to_seller r <= g
    /\ s_tax_amount r + s_net_to_seller r = g
    /\ s_rate_bps r = get SIMPLIFIED_RATES_BPS sec 2650.
Proof.
  intros Hg.
  destruct (calculate_simplified_returns g sec Hg) as (r & Hr & Ht).
  pose proof (calculate_simplified_inv _ _ _ Hr) as E.
  pose proof (sm_net _ _ _ E) as Hn. pose proof (sm_bps _ _ _ E) as Hb.
  exists r. split; [exact Hr|]. repeat split; try lia. exact Hb.
Qed.

Lemma simplified_amounts_bounded_witness :
  0 <= 200 * 10 ^ 18 < float_limit
  /\ exists r, calculate_simplified (200 * 10 ^ 18) "PADRAO" = Ok r
               /\ s_tax_amount r + s_net_to_seller r = 200 * 10 ^ 18.
Proof.
  assert (H : 0 <= 200 * 10 ^ 18 < float_limit) by (split; [discriminate | reflexivity]).
  split; [exact H|].
  destruct (simplified_amounts_bounded (200 * 10 ^ 18) "PADRAO" H)
    as (r & Hr & _ & _ & Hsum & _).
  exists r. auto.
Defined.

(* --------------------------------------------------------------------- *)
(** *** X5 *)

(** X5. The exempt sector. For sector CESTA_BASICA, whose table rates
    are all [0.0], [calculate_standard] returns, for every amount with
    [0 <= gross_amount < 2^1024 - 2^970] and non-negative credits, every
    share, the total, the credit offset and the net tax equal to 0, the
    whole amount as [net_to_seller] and a zero [effective_rate]; with
    [rate_bps = 0], [calculate_simplified] returns for every integer
    amount whatsoever (negative or too large for a [float] included: the
    product with the rate is 0 before any conversion) a withheld amount of
    0 and the whole amount as [net_to_seller]. *)
Theorem exempt_sector_pays_nothing (g : Z) (credits : Z) :
  (0 <= g < float_limit -> 0 <= credits ->
   exists r,
     calculate_standard g "CESTA_BASICA" credits = Ok r
     /\ cbs_amount r = 0 /\ ibs_state_amount r = 0 /\ ibs_city_amount r = 0
     /\ total_tax r = 0 /\ credit_offset r = 0 /\ net_tax r = 0
     /\ net_to_seller r = g
     /\ is_zero (effective_rate r) = true)
  /\ calculate_simplified g "CESTA_BASICA"
     = Ok {| s_gross_amount := g;
             s_rate_bps := 0;
             s_tax_amount := 0;
             s_net_to_seller := g;
             s_effective_rate := PyFloat (S754_zero false);
             s_sector := "CESTA_BASICA" |}.
Proof.
  split.
  - intros Hg Hc.
    destruct (calculate_standard_returns g "CESTA_BASICA" credits Hg)
      as (r & Hr & H1 & H2 & H3 & _).
    pose proof (calculate_standard_inv _ _ _ _ Hr) as E.
    pose proof (se_total _ _ _ _ E) as Ht. pose proof (se_offset _ _ _ _ E) as Ho.
    pose proof (se_net_tax _ _ _ _ E) as Hn. pose proof (se_net _ _ _ _ E) as Hs.
    pose proof (se_rate _ _ _ _ E) as Hrate.
    assert (Hshare : forall T,
               (exists f, int_mul_float g (S754_zero false) = Ok f
                          /\ int_of_float f = Ok T) -> T = 0).
    { intros T (f & Hf & HT). unfold int_mul_float in Hf.
      destruct (float_of_int_returns g ltac:(lia)) as (x & Hx).
      rewrite Hx in Hf. cbn [Py.bind] in Hf. injection Hf as <-.
      assert (Hsign : x = S754_zero false \/ exists m e, x = S754_finite false m e).
      { destruct (Z.eq_dec g 0) as [-> | Hne].
        - cbn in Hx. injection Hx as <-. auto.
        - destruct (float_of_int_pos g ltac:(lia)) as (mg & eg & Hf & _).
          rewrite Hf in Hx. injection Hx as <-. eauto. }
      destruct Hsign as [-> | (m & e & ->)]; cbn in HT; congruence. }
    assert (Hc0 : cbs_amount r = 0) by (apply Hshare, (se_cbs _ _ _ _ E)).
    assert (Hs0 : ibs_state_amount r = 0) by (apply Hshare, (se_state _ _ _ _ E)).
    assert (Hm0 : ibs_city_amount r = 0) by (apply Hshare, (se_city _ _ _ _ E)).
    exists r. split; [exact Hr|]. repeat split; try lia.
    destruct (Z.gtb_spec g 0) as [Hpos | Hzero].
    + destruct Hrate as (f & Hf & ->).
      replace (total_tax r) with 0 in Hf by lia.
      unfold int_truediv in Hf. destruct (Z.eqb_spec g 0); [lia|].
      cbn in Hf. injection Hf as <-. reflexivity.
    + rewrite Hrate. reflexivity.
  - unfold calculate_simplified.
    change (get SIMPLIFIED_RATES_BPS "CESTA_BASICA" 2650) with 0.
    rewrite Z.mul_0_r.
    change (int_truediv 0 10000) with (Ok (S754_zero false)).
    cbn [Py.bind int_of_float]. rewrite Z.sub_0_r. reflexivity.
Qed.

Lemma exempt_sector_pays_nothing_witness :
  (0 <= 200 * 10 ^ 18 < float_limit /\ 0 <= 0)
  /\ exists r, calculate_standard (200 * 10 ^ 18) "CESTA_BASICA" 0 = Ok r
               /\ total_tax r = 0 /\ net_to_seller r = 200 * 10 ^ 18.
Proof.
  assert (H : 0 <= 200 * 10 ^ 18 < float_limit) by (split; [discriminate | reflexivity]).
  assert (H0 : 0 <= 0) by discriminate.
  split; [exact (conj H H0)|].
  destruct (proj1 (exempt_sector_pays_nothing (200 * 10 ^ 18) 0) H H0)
    as (r & Hr & _ & _ & _ & Ht & _ & _ & Hn & _).
  exists r. auto.
Defined.

(* --------------------------------------------------------------------- *)
(** *** X6 *)

(** X6. The sector acts through its table entry only: two sectors with
    the same three-rate entry give the same outcome of
    [calculate_standard] (the same amounts and effective rate, or the same
    exception) for every amount and credits, and two sectors with the same
    basis-point rate the same outcome of [calculate_simplified]; only the
    reported [sector] differs. In the tables as written COMBUSTIVEIS is
    taxed as PADRAO, and EDUCACAO and TRANSPORTE_COLETIVO as SAUDE. *)
Theorem sector_acts_through_its_rates (s1 s2 : string) :
  (get SECTOR_RATES s1 DEFAULT_RATES = get SECTOR_RATES s2 DEFAULT_RATES ->
   forall g credits,
     calculate_standard g s1 credits
     = Py.map (with_sector s1) (calculate_standard g s2 credits))
  /\ (get SIMPLIFIED_RATES_BPS s1 2650 = get SIMPLIFIED_RATES_BPS s2 2650 ->
      forall g,
        calculate_simplified g s1
        = Py.map (s_with_sector s1) (calculate_simplified g s2))
  /\ (forall g credits,
        calculate_standard g "COMBUSTIVEIS" credits
        = Py.map (with_sector "COMBUSTIVEIS") (calculate_standard g "PADRAO" credits)
        /\ calculate_standard g "EDUCACAO" credits
           = Py.map (with_sector "EDUCACAO") (calculate_standard g "SAUDE" credits)
        /\ calculate_standard g "TRANSPORTE_COLETIVO" credits
           = Py.map (with_sector "TRANSPORTE_COLETIVO")
               (calculate_standard g "SAUDE" credits))
  /\ (forall g,
        calculate_simplified g "COMBUSTIVEIS"
        = Py.map (s_with_sector "COMBUSTIVEIS") (calculate_simplified g "PADRAO")
        /\ calculate_simplified g "EDUCACAO"
           = Py.map (s_with_sector "EDUCACAO") (calculate_simplified g "SAUDE")
        /\ calculate_simplified g "TRANSPORTE_COLETIVO"
           = Py.map (s_with_sector "TRANSPORTE_COLETIVO")
               (calculate_simplified g "SAUDE")).
Proof.
  split; [intros H g c; apply calculate_standard_same_rates; exact H|].
  split; [intros H g; apply calculate_simplified_same_rate; exact H|].
  split.
  - intros g c. repeat split; apply calculate_standard_same_rates; reflexivity.
  - intros g. repeat split; apply calculate_simplified_same_rate; reflexivity.
Qed.

Lemma sector_acts_through_its_rates_witness :
  get SECTOR_RATES "COMBUSTIVEIS" DEFAULT_RATES = get SECTOR_RATES "NAO_LISTADO" DEFAULT_RATES
  /\ calculate_standard 1000 "COMBUSTIVEIS" 0
     = Py.map (with_sector "COMBUSTIVEIS") (calculate_standard 1000 "NAO_LISTADO" 0).
Proof.
  assert (H : get SECTOR_RATES "COMBUSTIVEIS" DEFAULT_RATES
              = get SECTOR_RATES "NAO_LISTADO" DEFAULT_RATES) by reflexivity.
  split; [exact H|].
  exact (proj1 (sector_acts_through_its_rates "COMBUSTIVEIS" "NAO_LISTADO") H 1000 0).
Defined.

(* --------------------------------------------------------------------- *)
(** *** X7 *)

(** X7. The credits reach nothing but the offset: two calls of
    [calculate_standard] on the same amount and sector with different
    [seller_credits] either both raise the same exception or both return,
    with the same three shares, the same [total_tax], the same
    [effective_rate], gross amount and sector; each result's
    [credit_offset], [net_tax] and [net_to_seller] follow from its own
    credits and that common total. *)
Theorem credits_reach_only_the_offset (g : Z) (sec : string) (c1 c2 : Z) :
  match calculate_standard g sec c1, calculate_standard g sec c2 with
  | Ok r1, Ok r2 =>
      cbs_amount r1 = cbs_amount r2
      /\ ibs_state_amount r1 = ibs_state_amount r2
      /\ ibs_city_amount r1 = ibs_city_amount r2
      /\ total_tax r1 = total_tax r2
      /\ effective_rate r1 = effective_rate r2
      /\ gross_amount r1 = gross_amount r2 /\ sector r1 = sector r2
      /\ credit_offset r2 = Z.min c2 (total_tax r1)
      /\ net_tax r2 = total_tax r1 - credit_offset r2
      /\ net_to_seller r2 = g - net_tax r2
  | Raise e1, Raise e2 => e1 = e2
  | _, _ => False
  end.
Proof.
  destruct (calculate_standard g sec c1) as [r1 | e1] eqn:H1.
  - rewrite (calculate_standard_credits g sec c1 c2 r1 H1). cbn.
    repeat split; reflexivity.
  - rewrite (calculate_standard_credits_raise g sec c1 c2 e1 H1). reflexivity.
Qed.

(* --------------------------------------------------------------------- *)
(** *** X8 *)

(** X8. [calculate_standard] does not reject a negative credit balance.
    For [0 <= gross_amount < 2^1024 - 2^970] and [seller_credits < 0] it
    returns [credit_offset = seller_credits] (negative), so that [net_tax]
    exceeds [total_tax] by the amount of the debit and [net_to_seller]
    falls short of [gross_amount - total_tax] by as much; [net_to_seller]
    is negative as soon as the debit exceeds [gross_amount - total_tax]. *)
Theorem negative_credits_raise_the_tax (g : Z) (sec : string) (credits : Z) :
  0 <= g < float_limit -> credits < 0 ->
  exists r,
    calculate_standard g sec credits = Ok r
    /\ credit_offset r = credits
    /\ net_tax r = total_tax r - credits
    /\ total_tax r < net_tax r
    /\ net_to_seller r = g - total_tax r + credits
    /\ (credits < total_tax r - g -> net_to_seller r < 0).
Proof.
  intros Hg Hc.
  destruct (calculate_standard_returns g sec credits Hg)
    as (r & Hr & H1 & H2 & H3 & Hle).
  pose proof (calculate_standard_inv _ _ _ _ Hr) as E.
  pose proof (se_total _ _ _ _ E) as Ht. pose proof (se_offset _ _ _ _ E) as Ho.
  pose proof (se_net_tax _ _ _ _ E) as Hn. pose proof (se_net _ _ _ _ E) as Hs.
  exists r. split; [exact Hr|]. repeat split; lia.
Qed.

Lemma negative_credits_raise_the_tax_witness :
  (0 <= 1000 < float_limit /\ -2000 < 0)
  /\ exists r, calculate_standard 1000 "PADRAO" (-2000) = Ok r
               /\ credit_offset r = -2000 /\ total_tax r < net_tax r.
Proof.
  assert (H : 0 <= 1000 < float_limit) by (split; [discriminate | reflexivity]).
  assert (H0 : -2000 < 0) by reflexivity.
  split; [exact (conj H H0)|].
  destruct (negative_credits_raise_the_tax 1000 "PADRAO" (-2000) H H0)
    as (r & Hr & Ho & _ & Hlt & _).
  exists r. auto.
Defined.

(* --------------------------------------------------------------------- *)
(** *** X9 *)

(** X9. Credits beyond the tax are discarded: when a call of
    [calculate_standard] returns a total [t] and the credits are at least
    [t], the result has [net_tax = 0] and [net_to_seller] equal to the
    gross amount, and the call with any other credits that are at least
    [t] returns the very same dictionary. *)
Theorem excess_credits_are_discarded (g : Z) (sec : string) (c1 c2 : Z)
    (r : standard_tax) :
  calculate_standard g sec c1 = Ok r ->
  total_tax r <= c1 -> total_tax r <= c2 ->
  credit_offset r = total_tax r /\ net_tax r = 0 /\ net_to_seller r = g
  /\ calculate_standard g sec c2 = Ok r.
Proof.
  intros Hr H1 H2.
  pose proof (calculate_standard_inv _ _ _ _ Hr) as E.
  pose proof (se_offset _ _ _ _ E) as Ho.
  pose proof (se_net_tax _ _ _ _ E) as Hn. pose proof (se_net _ _ _ _ E) as Hs.
  pose proof (se_gross _ _ _ _ E) as Hg.
  assert (Ho' : credit_offset r = total_tax r) by lia.
  assert (Hn' : net_tax r = 0) by lia.
  assert (Hs' : net_to_seller r = g) by lia.
  split; [exact Ho'|]. split; [exact Hn'|]. split; [exact Hs'|].
  rewrite (calculate_standard_credits g sec c1 c2 r Hr).
  rewrite (Z.min_r c2 (total_tax r)) by lia.
  rewrite Z.sub_diag, Z.sub_0_r.
  destruct r; cbn in *. f_equal. f_equal; lia.
Qed.

Lemma excess_credits_are_discarded_witness :
  exists r,
    calculate_standard 1000 "PADRAO" 500 = Ok r
    /\ total_tax r <= 500 /\ total_tax r <= 10 ^ 30
    /\ net_to_seller r = 1000
    /\ calculate_standard 1000 "PADRAO" (10 ^ 30) = Ok r.
Proof.
  destruct (calculate_standard 1000 "PADRAO" 500) as [r|e] eqn:Hr;
    [|vm_compute in Hr; discriminate].
  assert (Ht : total_tax r = 244).
  { vm_compute in Hr. injection Hr as <-. reflexivity. }
  assert (H1 : total_tax r <= 500) by (rewrite Ht; discriminate).
  assert (H2 : total_tax r <= 10 ^ 30) by (rewrite Ht; discriminate).
  exists r. split; [reflexivity|]. split; [exact H1|]. split; [exact H2|].
  destruct (excess_credits_are_discarded 1000 "PADRAO" 500 (10 ^ 30) r Hr H1 H2)
    as (_ & _ & Hn & Hsame).
  split; [exact Hn | exact Hsame].
Defined.
(* --------------------------------------------------------------------- *)
(** *** X10 *)

(** X10. The two regimes do not accept the same amounts. For every
    amount with [2^1024 - 2^970 <= gross_amount < 2^1024],
    [calculate_standard] raises [OverflowError] (it converts the amount to
    [float] before multiplying) while [calculate_simplified] returns (it
    multiplies and divides integers, and only the quotient becomes a
    [float]), with a withheld amount between 0 and the gross amount. *)
Theorem regimes_disagree_on_large_amounts (g : Z) (sec : string) (credits : Z) :
  float_limit <= g < 2 ^ 1024 ->
  calculate_standard g sec credits = Raise OverflowError
  /\ exists r, calculate_simplified g sec = Ok r
               /\ 0 <= s_tax_amount r <= g
               /\ s_net_to_seller r = g - s_tax_amount r.
Proof.
  intros [Hlo Hhi]. pose proof float_limit_pos as Hfl.
  split.
  - unfold calculate_standard. rewrite getitem_padrao. cbn [Py.bind].
    rewrite int_mul_float_overflow by lia. reflexivity.
  - destruct (nominal_rate_returns sec) as (fr & Hfr).
    assert (Hbps : 0 <= bps_for sec <= 2650).
    { destruct (bps_for_cases sec) as [-> | [-> | ->]]; lia. }
    assert (Htax : exists f T,
               int_truediv (g * bps_for sec) 10000 = Ok f /\ int_of_float f = Ok T
               /\ 0 <= T <= g).
    { destruct (Z.eq_dec (bps_for sec) 0) as [Hz | Hnz].
      - rewrite Hz, Z.mul_0_r. exists (S754_zero false), 0.
        repeat split; try reflexivity; lia.
      - assert (Hpos : 0 < g * bps_for sec) by nia.
        destruct (int_truediv_bounds (g * bps_for sec) 10000 Hpos ltac:(lia))
          as (f & T & Hf & HT & HT0 & Hup & _).
        { change (Zdigits2 10000) with 14.
          pose proof (Zdigits2_pos _ Hpos).
          assert (Zdigits2 (g * bps_for sec) <= 1036); [|lia].
          apply Zdigits2_le; [lia|]. split; [lia|].
          change (2 ^ 1036) with (2 ^ 1024 * 2 ^ 12). nia. }
        exists f, T. repeat split; try assumption.
        assert (2 ^ 52 * (T * 10000) <= (2 ^ 52 + 1) * (g * 2650)); [|lia].
        eapply Z.le_trans; [exact Hup|].
        apply Z.mul_le_mono_nonneg_l; [lia|].
        apply Z.mul_le_mono_nonneg_l; lia. }
    destruct Htax as (f & T & Hf & HT & HTr).
    unfold calculate_simplified. fold (bps_for sec).
    rewrite Hf. cbn [Py.bind]. rewrite HT. cbn [Py.bind]. rewrite Hfr. cbn [Py.bind].
    eexists. split; [reflexivity|]. cbn. split; [exact HTr | reflexivity].
Qed.

Lemma regimes_disagree_on_large_amounts_witness :
  float_limit <= 2 ^ 1024 - 1 < 2 ^ 1024
  /\ calculate_standard (2 ^ 1024 - 1) "PADRAO" 0 = Raise OverflowError
  /\ exists r, calculate_simplified (2 ^ 1024 - 1) "PADRAO" = Ok r.
Proof.
  assert (H : float_limit <= 2 ^ 1024 - 1 < 2 ^ 1024)
    by (split; [vm_compute; discriminate | reflexivity]).
  split; [exact H|].
  destruct (regimes_disagree_on_large_amounts (2 ^ 1024 - 1) "PADRAO" 0 H)
    as (Hstd & r & Hr & _).
  split; [exact Hstd|]. exists r. exact Hr.
Defined.

(* ===================================================================== *)
(** ** 10. Further properties of the signer *)
(* ===================================================================== *)

(** *** Big-endian bytes *)

Lemma byte_of_Z_value (n : Z) : Z.of_N (Byte.to_N (byte_of_Z n)) = n mod 256.
Proof.
  unfold byte_of_Z.
  pose proof (Z.mod_pos_bound n 256 ltac:(lia)) as Hb.
  destruct (Byte.of_N (Z.to_N (n mod 256))) as [b|] eqn:E.
  - rewrite (Byte.to_of_N _ E). rewrite Z2N.id; lia.
  - apply Byte.of_N_None_iff in E. lia.
Qed.

Lemma be_value_from (acc : Z) (len : nat) (n : Z) :
  fold_left (fun a x => a * 256 + Z.of_N (Byte.to_N x)) (be_bytes len n) acc
  = acc * 256 ^ Z.of_nat len + n mod 256 ^ Z.of_nat len.
Proof.
  revert acc. induction len as [| k IH]; intros acc.
  - cbn. rewrite Z.mod_1_r. lia.
  - cbn [be_bytes fold_left]. rewrite IH, byte_of_Z_value.
    rewrite Nat2Z.inj_succ, Z.pow_succ_r by lia.
    set (P := 256 ^ Z.of_nat k).
    assert (HP : 0 < P) by (apply Z.pow_pos_nonneg; lia).
    rewrite (Z.mul_comm 256 P). rewrite (Z.rem_mul_r n P 256) by lia.
    lia.
Qed.

(** Reading back the bytes written gives the number modulo [256 ^ len]. *)
Lemma be_value_be_bytes (len : nat) (n : Z) :
  be_value (be_bytes len n) = n mod 256 ^ Z.of_nat len.
Proof. unfold be_value. rewrite be_value_from. lia. Qed.

Lemma be_bytes_32_inj (a b : Z) :
  uint256 a -> uint256 b -> be_bytes 32 a = be_bytes 32 b -> a = b.
Proof.
  unfold uint256. intros Ha Hb H.
  apply (f_equal be_value) in H. rewrite !be_value_be_bytes in H.
  change (256 ^ Z.of_nat 32) with (2 ^ 256) in H.
  rewrite !Z.mod_small in H by lia. exact H.
Qed.

Lemma app_same_length_inj {A : Type} (x x' y y' : list A) :
  length x = length x' -> x ++ y = x' ++ y' -> x = x' /\ y = y'.
Proof.
  revert x'. induction x as [| a x IH]; intros [| a' x'] Hl H; cbn in *;
    try discriminate.
  - auto.
  - injection H as -> H. destruct (IH x' ltac:(lia) H) as [-> ->]. auto.
Qed.

Section SignerExtras.
Context {lib : EthLib}.

(** *** X11 *)

(** X11. [FiscalOracle.__init__]: an empty string passed as the private
    key is treated as no key at all (the generated ["0x" + token] is used
    instead), while a non-empty key is used as given and the random token
    plays no part. An instance that is constructed starts with
    [signatures_issued = 0], holds the account of its private key, and its
    [address] is that account's address; no instance is constructed when
    the key is not a valid one. *)
Theorem init_establishes_the_signer (k : option string) (tok : string) :
  init (Some EmptyString) tok = init None tok
  /\ (forall s tok', s <> EmptyString -> init (Some s) tok = init (Some s) tok')
  /\ (forall o, init k tok = Ok o ->
        signatures_issued o = 0
        /\ key (account o) = private_key o
        /\ address o = acct_address (account o)
        /\ address_of_key (private_key o) = Some (address o)
        /\ (k = Some (private_key o) \/ private_key o = ("0x" ++ tok)%string))
  /\ (forall s, s <> EmptyString -> address_of_key s = None ->
        forall o, init (Some s) tok <> Ok o).
Proof.
  split; [reflexivity|]. split; [|split].
  - intros s tok' Hs. unfold init.
    destruct (String.eqb_spec s ""); [contradiction | reflexivity].
  - intros o. unfold init, from_key.
    set (chosen := match k with
                   | Some k0 => if (k0 =? "")%string then ("0x" ++ tok)%string else k0
                   | None => ("0x" ++ tok)%string
                   end).
    destruct (address_of_key chosen) as [a|] eqn:Ha; cbn [Py.bind]; [|discriminate].
    intros [= <-]. cbn. repeat split; [exact Ha|].
    unfold chosen. destruct k as [k0|]; [|right; reflexivity].
    destruct (String.eqb_spec k0 ""); [right | left]; reflexivity.
  - intros s Hs Hbad o. unfold init, from_key.
    destruct (String.eqb_spec s ""); [contradiction|].
    rewrite Hbad. discriminate.
Qed.

(** *** X12 *)

Lemma serve_Ok_echoes (rq : request) (self self' : FiscalOracle) (inv : SignedInvoice) :
  serve rq self = (Ok inv, self') ->
  echoes rq inv /\ signer_address inv = address self.
Proof.
  destruct rq as [nfe who g sec credits now | nfe who g sec now]; cbn [serve echoes];
    intros H.
  - destruct (authorize_standard_Ok _ _ _ _ _ _ _ _ _ H)
      as (tax & addr & _ & _ & _ & _ & F & _).
    destruct F as (F1 & F2 & F3 & _ & _ & _ & _ & F8 & F9 & F10 & F11). auto 10.
  - destruct (authorize_simplified_Ok _ _ _ _ _ _ _ _ H)
      as (tax & addr & Htax & _ & _ & _ & F & _).
    destruct F as (F1 & F2 & F3 & F4 & F5 & F6 & F7 & F8 & F9 & F10 & F11).
    rewrite (sm_bps _ _ _ (calculate_simplified_inv _ _ _ Htax)) in F11.
    auto 15.
Qed.

Lemma serve_each_spec (rqs : list request) (self : FiscalOracle) :
  Forall2 (fun rq res => forall inv, res = Ok inv ->
                           echoes rq inv /\ signer_address inv = address self)
          rqs (fst (serve_each rqs self))
  /\ signatures_issued (snd (serve_each rqs self))
     = signatures_issued self
       + returned_calls (fst (serve_each rqs self))
  /\ address (snd (serve_each rqs self)) = address self
  /\ account (snd (serve_each rqs self)) = account self
  /\ private_key (snd (serve_each rqs self)) = private_key self.
Proof.
  revert self. induction rqs as [| rq rest IH]; intros self.
  - cbn. split; [constructor|]. repeat split; lia.
  - cbn [serve_each].
    destruct (serve rq self) as [res self1] eqn:H1.
    destruct (serve_frame rq self self1 res H1) as (K1 & K2 & K3 & K4).
    specialize (IH self1).
    destruct (serve_each rest self1) as [out final]. cbn [fst snd] in *.
    destruct IH as (I1 & I2 & I3 & I4 & I5).
    split; [|repeat split; try congruence].
    + constructor.
      * intros inv ->. exact (serve_Ok_echoes rq self self1 inv H1).
      * rewrite K3 in I1. exact I1.
    + rewrite I2, K4. cbn [returned_calls]. lia.
Qed.

(** X12. A signer constructed by [__init__] and then used for any
    sequence of [authorize_standard] and [authorize_simplified] calls:
    every authorization it returns names as [signer_address] the address
    of the account of the instance's private key, and repeats the invoice
    identifier, the seller, the gross amount and the time of its own call
    with the mode of the method called ([rate_bps] is 0 for the standard
    method; for the simplified one it is the sector's basis-point rate and
    the four tax fields are 0); and [signatures_issued], read after the
    sequence, is the number of calls that returned. *)
Theorem authorizations_name_the_signer_and_are_counted
    (k : option string) (tok : string) (o : FiscalOracle) (rqs : list request) :
  init k tok = Ok o ->
  Forall2 (fun rq res => forall inv, res = Ok inv ->
             echoes rq inv
             /\ address_of_key (private_key o) = Some (signer_address inv))
          rqs (fst (serve_each rqs o))
  /\ signatures_issued (snd (serve_each rqs o))
     = returned_calls (fst (serve_each rqs o))
  /\ private_key (snd (serve_each rqs o)) = private_key o.
Proof.
  intros Hinit.
  assert (Hz : signatures_issued o = 0
               /\ address_of_key (private_key o) = Some (address o)).
  { revert Hinit. unfold init, from_key.
    destruct (address_of_key _) as [a|] eqn:Ha; cbn [Py.bind]; [|discriminate].
    intros [= <-]. cbn. auto. }
  destruct Hz as [Hz Haddr].
  destruct (serve_each_spec rqs o) as (S1 & S2 & _ & _ & S5).
  split; [|split; [lia | exact S5]].
  eapply Forall2_impl; [exact S1|].
  intros rq res H inv Hres. destruct (H inv Hres) as [He Hs].
  split; [exact He | rewrite Hs; exact Haddr].
Qed.

(** *** X13 *)

(** X13. Neither the time of the call nor the state of the counter is
    part of what is signed: two calls with the same invoice identifier,
    seller, amount, sector and credits return the same [signature] (or
    raise the same exception) whatever the clock and the value of
    [signatures_issued], on any two instances holding the same account;
    the same for the simplified method. *)
Theorem signature_ignores_time_and_count
    (nfe who : string) (g : Z) (sec : string) (credits : Z) (now1 now2 : string)
    (self1 self2 : FiscalOracle) :
  account self1 = account self2 ->
  Py.map signature (fst (authorize_standard nfe who g sec credits now1 self1))
  = Py.map signature (fst (authorize_standard nfe who g sec credits now2 self2))
  /\ Py.map signature (fst (authorize_simplified nfe who g sec now1 self1))
     = Py.map signature (fst (authorize_simplified nfe who g sec now2 self2)).
Proof.
  intros Hacct. split.
  - unfold authorize_standard. rewrite Hacct.
    destruct (calculate_standard g sec credits) as [tax|e]; cbn [Py.bind];
      [|reflexivity].
    destruct (solidity_keccak _ _) as [h|e]; cbn [Py.bind]; reflexivity.
  - unfold authorize_simplified. rewrite Hacct.
    destruct (calculate_simplified g sec) as [tax|e]; cbn [Py.bind];
      [|reflexivity].
    destruct (solidity_keccak _ _) as [h|e]; cbn [Py.bind]; reflexivity.
Qed.

(** *** X14 *)

(** X14. An authorization keeps no trace of the sector beyond the rates:
    for two sectors with the same three-rate table entry
    [authorize_standard] returns the very same [SignedInvoice] (signature
    included) and leaves the instance in the same state, or raises the same
    exception; likewise [authorize_simplified] for two sectors with the
    same basis-point rate. *)
Theorem authorization_keeps_no_trace_of_the_sector
    (nfe who : string) (g : Z) (s1 s2 : string) (credits : Z) (now : string)
    (self : FiscalOracle) :
  (get SECTOR_RATES s1 DEFAULT_RATES = get SECTOR_RATES s2 DEFAULT_RATES ->
   authorize_standard nfe who g s1 credits now self
   = authorize_standard nfe who g s2 credits now self)
  /\ (get SIMPLIFIED_RATES_BPS s1 2650 = get SIMPLIFIED_RATES_BPS s2 2650 ->
      authorize_simplified nfe who g s1 now self
      = authorize_simplified nfe who g s2 now self).
Proof.
  split; intros H.
  - unfold authorize_standard.
    rewrite (calculate_standard_same_rates s1 s2 g credits H).
    destruct (calculate_standard g s2 credits) as [tax|e]; cbn [Py.map Py.bind];
      [|reflexivity].
    cbn [with_sector cbs_amount ibs_state_amount ibs_city_amount credit_offset].
    destruct (solidity_keccak _ _) as [h|e]; reflexivity.
  - unfold authorize_simplified.
    rewrite (calculate_simplified_same_rate s1 s2 g H).
    destruct (calculate_simplified g s2) as [tax|e]; cbn [Py.map Py.bind];
      [|reflexivity].
    cbn [s_with_sector s_rate_bps].
    destruct (solidity_keccak _ _) as [h|e]; reflexivity.
Qed.

(** *** X15 *)

(** X15. Credits beyond the tax are not signed for: when
    [calculate_standard] returns a total [t] for the amount and sector,
    [authorize_standard] with any two credit balances that are both at
    least [t] has the same outcome, the same [SignedInvoice] with the same
    signature and [credit_offset = t], or the same exception. *)
Theorem excess_credits_are_not_signed
    (nfe who : string) (g : Z) (sec : string) (c1 c2 : Z) (now : string)
    (self : FiscalOracle) (tax : standard_tax) :
  calculate_standard g sec c1 = Ok tax ->
  total_tax tax <= c1 -> total_tax tax <= c2 ->
  authorize_standard nfe who g sec c1 now self
  = authorize_standard nfe who g sec c2 now self
  /\ (forall inv self',
        authorize_standard nfe who g sec c2 now self = (Ok inv, self') ->
        si_credit_offset inv = total_tax tax).
Proof.
  intros Htax H1 H2.
  assert (Hsame : calculate_standard g sec c2 = Ok tax).
  { rewrite (calculate_standard_credits g sec c1 c2 tax Htax).
    pose proof (calculate_standard_inv _ _ _ _ Htax) as E.
    pose proof (se_offset _ _ _ _ E) as Ho.
    pose proof (se_net_tax _ _ _ _ E) as Hn. pose proof (se_net _ _ _ _ E) as Hs.
    rewrite (Z.min_r c2 (total_tax tax)) by lia.
    destruct tax; cbn in *. f_equal. f_equal; lia. }
  split.
  - unfold authorize_standard. rewrite Htax, Hsame. reflexivity.
  - intros inv self' H.
    destruct (authorize_standard_Ok _ _ _ _ _ _ _ _ _ H)
      as (tax' & addr & Htax' & _ & _ & _ & F & _).
    destruct F as (_ & _ & _ & _ & _ & _ & F7 & _).
    assert (tax' = tax) by congruence. subst tax'.
    rewrite F7. rewrite (se_offset _ _ _ _ (calculate_standard_inv _ _ _ _ Hsame)).
    lia.
Qed.

End SignerExtras.

Lemma init_establishes_the_signer_witness :
  exists o,
    init (lib := plain_lib) (Some "0x01"%string) "ab" = Ok o
    /\ signatures_issued o = 0 /\ key (account o) = private_key o.
Proof.
  destruct (init_establishes_the_signer (lib := plain_lib) (Some "0x01"%string) "ab")
    as (_ & _ & H & _).
  eexists. split; [reflexivity|].
  destruct (H _ eq_refl) as (Hz & Hk & _). split; [exact Hz | exact Hk].
Defined.

Lemma authorizations_name_the_signer_and_are_counted_witness :
  exists o,
    init (lib := plain_lib) None "ab" = Ok o
    /\ signatures_issued
         (snd (serve_each (lib := plain_lib)
                 [ Standard "NFe1" demo_seller (1000 * 10 ^ 18) "PADRAO" 0 "t1";
                   Standard "NFe2" demo_seller (2 ^ 1024) "PADRAO" 0 "t2";
                   Simplified "NFe3" demo_seller (200 * 10 ^ 18) "PADRAO" "t3" ]
                 o)) = 2.
Proof.
  eexists. split; [reflexivity|].
  destruct (authorizations_name_the_signer_and_are_counted (lib := plain_lib)
              None "ab" _
              [ Standard "NFe1" demo_seller (1000 * 10 ^ 18) "PADRAO" 0 "t1";
                Standard "NFe2" demo_seller (2 ^ 1024) "PADRAO" 0 "t2";
                Simplified "NFe3" demo_seller (200 * 10 ^ 18) "PADRAO" "t3" ]
              eq_refl) as (_ & Hcount & _).
  rewrite Hcount. vm_compute. reflexivity.
Defined.

Lemma signature_ignores_time_and_count_witness :
  let later :=
    {| private_key := "0x01"; account := account plain_oracle;
       address := "0x01"; signatures_issued := 41 |} in
  account plain_oracle = account later
  /\ Py.map signature
       (fst (authorize_standard (lib := plain_lib) "NFe1" demo_seller 1000 "PADRAO" 0
               "2026-02-01T00:00:00" plain_oracle))
     = Py.map signature
         (fst (authorize_standard (lib := plain_lib) "NFe1" demo_seller 1000 "PADRAO" 0
                 "2026-03-01T12:00:00" later)).
Proof.
  intros later.
  assert (H : account plain_oracle = account later) by reflexivity.
  split; [exact H|].
  exact (proj1 (signature_ignores_time_and_count (lib := plain_lib)
                  "NFe1" demo_seller 1000 "PADRAO" 0
                  "2026-02-01T00:00:00" "2026-03-01T12:00:00" plain_oracle later H)).
Defined.

Lemma authorization_keeps_no_trace_of_the_sector_witness :
  get SECTOR_RATES "COMBUSTIVEIS" DEFAULT_RATES = get SECTOR_RATES "PADRAO" DEFAULT_RATES
  /\ authorize_standard (lib := plain_lib) "NFe1" demo_seller 1000 "COMBUSTIVEIS" 0
       "2026-02-01T00:00:00" plain_oracle
     = authorize_standard (lib := plain_lib) "NFe1" demo_seller 1000 "PADRAO" 0
         "2026-02-01T00:00:00" plain_oracle.
Proof.
  assert (H : get SECTOR_RATES "COMBUSTIVEIS" DEFAULT_RATES
              = get SECTOR_RATES "PADRAO" DEFAULT_RATES) by reflexivity.
  split; [exact H|].
  exact (proj1 (authorization_keeps_no_trace_of_the_sector (lib := plain_lib)
                  "NFe1" demo_seller 1000 "COMBUSTIVEIS" "PADRAO" 0
                  "2026-02-01T00:00:00" plain_oracle) H).
Defined.

Lemma excess_credits_are_not_signed_witness :
  exists tax,
    calculate_standard 1000 "PADRAO" 500 = Ok tax
    /\ total_tax tax <= 500 /\ total_tax tax <= 10 ^ 30
    /\ authorize_standard (lib := plain_lib) "NFe1" demo_seller 1000 "PADRAO" 500
         "2026-02-01T00:00:00" plain_oracle
       = authorize_standard (lib := plain_lib) "NFe1" demo_seller 1000 "PADRAO"
           (10 ^ 30) "2026-02-01T00:00:00" plain_oracle.
Proof.
  destruct (calculate_standard 1000 "PADRAO" 500) as [tax|e] eqn:Htax;
    [|vm_compute in Htax; discriminate].
  assert (Ht : total_tax tax = 244).
  { vm_compute in Htax. injection Htax as <-. reflexivity. }
  assert (H1 : total_tax tax <= 500) by (rewrite Ht; discriminate).
  assert (H2 : total_tax tax <= 10 ^ 30) by (rewrite Ht; discriminate).
  exists tax. split; [reflexivity|]. split; [exact H1|]. split; [exact H2|].
  exact (proj1 (excess_credits_are_not_signed (lib := plain_lib)
                  "NFe1" demo_seller 1000 "PADRAO" 500 (10 ^ 30)
                  "2026-02-01T00:00:00" plain_oracle tax Htax H1 H2)).
Defined.

(** *** X16 *)

(** X16. The payload signed by [authorize_standard] determines every
    signed field: for one invoice identifier, two packed payloads built
    from 20-byte addresses and amounts within [uint256] are equal only if
    the address, the gross amount, the three shares and the credit offset
    are all equal; changing any one of them changes the bytes that are
    hashed and signed. *)
Theorem standard_payload_determines_fields
    (id : string) (addr addr' : bytes) (g a b c d g' a' b' c' d' : Z) :
  length addr = 20%nat -> length addr' = 20%nat ->
  uint256 g -> uint256 a -> uint256 b -> uint256 c -> uint256 d ->
  uint256 g' -> uint256 a' -> uint256 b' -> uint256 c' -> uint256 d' ->
  packed_standard id addr g a b c d = packed_standard id addr' g' a' b' c' d' ->
  addr = addr' /\ g = g' /\ a = a' /\ b = b' /\ c = c' /\ d = d'.
Proof.
  intros La La' Ug Ua Ub Uc Ud Ug' Ua' Ub' Uc' Ud' H.
  unfold packed_standard in H.
  apply app_inv_head in H.
  apply app_same_length_inj in H as [Haddr H]; [|congruence].
  apply app_same_length_inj in H as [Hg H]; [|rewrite !be_bytes_length; reflexivity].
  apply app_same_length_inj in H as [Ha H]; [|rewrite !be_bytes_length; reflexivity].
  apply app_same_length_inj in H as [Hb H]; [|rewrite !be_bytes_length; reflexivity].
  apply app_same_length_inj in H as [Hc Hd]; [|rewrite !be_bytes_length; reflexivity].
  repeat split; auto using be_bytes_32_inj.
Qed.

Lemma standard_payload_determines_fields_witness :
  packed_standard "NFe1" demo_seller_bytes 1000 86 111 47 0
  = packed_standard "NFe1" (be_bytes 20 (be_value demo_seller_bytes))
      (10 * 100) (2 * 43) (3 * 37) (50 - 3) (7 - 7)
  /\ demo_seller_bytes = be_bytes 20 (be_value demo_seller_bytes).
Proof.
  assert (H : packed_standard "NFe1" demo_seller_bytes 1000 86 111 47 0
              = packed_standard "NFe1" (be_bytes 20 (be_value demo_seller_bytes))
                  (10 * 100) (2 * 43) (3 * 37) (50 - 3) (7 - 7))
    by (vm_compute; reflexivity).
  split; [exact H|].
  assert (U : forall n, 0 <= n < 2000 -> uint256 n).
  { intros n Hn. unfold uint256.
    assert (2000 < 2 ^ 256) by reflexivity. lia. }
  refine (proj1 (standard_payload_determines_fields "NFe1" demo_seller_bytes
                   (be_bytes 20 (be_value demo_seller_bytes))
                   1000 86 111 47 0 (10 * 100) (2 * 43) (3 * 37) (50 - 3) (7 - 7)
                   eq_refl eq_refl _ _ _ _ _ _ _ _ _ _ H));
    apply U; lia.
Defined.

(** *** X17 *)


(* ===================================================================== *)
(** ** 11. Formatting and report *)
(* ===================================================================== *)

(** True division of positive integers with a quotient in the normal
    range: the double returned, within a relative error of [2 ^ -51] of the
    exact quotient (both sides scaled by [2 ^ K] with [K] large enough to
    clear the exponent). *)
Lemma int_truediv_value (a b : Z) :
  0 < a -> 0 < b -> -1021 <= Zdigits2 a - Zdigits2 b <= 1022 ->
  exists m2 e2 K,
    int_truediv a b = Ok (S754_finite false m2 e2)
    /\ 2 ^ 52 <= Zpos m2 < 2 ^ 53
    /\ 0 <= K /\ 0 <= e2 + K
    /\ 2 ^ 52 * (Zpos m2 * 2 ^ (e2 + K) * b) <= (2 ^ 52 + 1) * (a * 2 ^ K)
    /\ (2 ^ 52 - 1) * (a * 2 ^ K) <= (2 ^ 52 + 1) * (Zpos m2 * 2 ^ (e2 + K) * b).
Proof.
  intros Ha Hb Hdig.
  unfold int_truediv.
  destruct (Z.eqb_spec b 0); [lia|]. destruct (Z.eqb_spec a 0); [lia|].
  destruct a as [| pa | pa]; try lia. destruct b as [| pb | pb]; try lia.
  cbn [exact_of_int SFdiv xorb].
  unfold SFdiv_core_binary.
  set (d1 := Zdigits2 (Zpos pa)) in *. set (d2 := Zdigits2 (Zpos pb)) in *.
  replace (d1 + 0 - (d2 + 0)) with (d1 - d2) by lia.
  change (0 - 0) with 0.
  rewrite (fexp_normal (d1 - d2)) by lia.
  set (e' := Z.min (d1 - d2 - 53) 0).
  assert (He' : e' <= 0 /\ e' <= d1 - d2 - 53 /\ -1074 <= e') by (unfold e'; lia).
  set (m' := match 0 - e' with
             | 0 => Zpos pa
             | Zpos _ => Z.shiftl (Zpos pa) (0 - e')
             | Zneg _ => 0
             end).
  set (E := 2 ^ (- e')).
  assert (HE : 0 < E) by (apply Z.pow_pos_nonneg; lia).
  assert (Hm' : m' = Zpos pa * E).
  { unfold m', E. destruct (0 - e') as [| k | k] eqn:Hk; try lia.
    - replace (- e') with 0 by lia. cbn [Z.pow]. lia.
    - rewrite Z.shiftl_mul_pow2 by lia. f_equal. f_equal. lia. }
  destruct (Z.div_eucl m' (Zpos pb)) as [q r] eqn:Hdiv.
  assert (Hqdef : q = m' / Zpos pb) by (unfold Z.div; rewrite Hdiv; reflexivity).
  pose proof (Zdigits2_bounds (Zpos pa) Ha) as [Halo Hahi]. fold d1 in Halo, Hahi.
  pose proof (Zdigits2_bounds (Zpos pb) Hb) as [Hblo Hbhi]. fold d2 in Hblo, Hbhi.
  assert (Hd1 : 0 < d1) by (apply Zdigits2_pos; lia).
  assert (Hd2 : 0 < d2) by (apply Zdigits2_pos; lia).
  assert (Hqb : q * Zpos pb <= m' < q * Zpos pb + Zpos pb).
  { pose proof (Z.div_mod m' (Zpos pb) ltac:(lia)) as Hdm.
    pose proof (Z.mod_pos_bound m' (Zpos pb) Hb) as Hmb.
    rewrite <- Hqdef in Hdm. lia. }
  assert (Hq52 : 2 ^ 52 <= q).
  { rewrite Hqdef. apply Z.div_le_lower_bound; [lia|].
    rewrite Hm'. unfold E.
    assert (H1 : 2 ^ (d1 - 1) * 2 ^ (- e') <= Zpos pa * 2 ^ (- e')).
    { apply Z.mul_le_mono_nonneg_r; lia. }
    assert (H2 : Zpos pb * 2 ^ 52 <= 2 ^ d2 * 2 ^ 52) by nia.
    assert (H3 : 2 ^ d2 * 2 ^ 52 <= 2 ^ (d1 - 1) * 2 ^ (- e')).
    { rewrite <- !pow2_split by lia. apply Z.pow_le_mono_r; lia. }
    lia. }
  assert (Hqpos : 0 < q) by lia.
  pose proof (Zdigits2_bounds q Hqpos) as [Hqlo Hqhi].
  assert (Hdq53 : 53 <= Zdigits2 q).
  { destruct (Z_le_gt_dec 53 (Zdigits2 q)) as [|Hgt]; [assumption|]. exfalso.
    assert (2 ^ Zdigits2 q <= 2 ^ 52).
    { apply Z.pow_le_mono_r; [lia|]. lia. }
    lia. }
  assert (HdqD : Zdigits2 q <= d1 - e' - d2 + 1).
  { apply Zdigits2_le; [lia|]. split; [lia|].
    rewrite Hqdef. apply Z.div_lt_upper_bound; [lia|].
    assert (Hnum : m' < 2 ^ (d1 - e')).
    { rewrite Hm'. unfold E. replace (d1 - e') with (d1 + - e') by lia.
      rewrite pow2_split by lia. nia. }
    assert (Hden : 2 ^ (d1 - e') <= Zpos pb * 2 ^ (d1 - e' - d2 + 1)).
    { replace (d1 - e') with ((d2 - 1) + (d1 - e' - d2 + 1)) at 1 by lia.
      rewrite pow2_split by lia.
      apply Z.mul_le_mono_nonneg_r; [apply Z.pow_nonneg; lia | assumption]. }
    lia. }
  destruct (round_normal false q e' (new_location (Zpos pb) r) Hqpos ltac:(lia))
    as (m1 & Hcases & _ & Heq).
  assert (Hn1 : Z.max 0 (Zdigits2 q - 53) = Zdigits2 q - 53) by lia.
  rewrite Hn1 in Hcases, Heq.
  set (n1 := Zdigits2 q - 53) in *. set (q1 := q / 2 ^ n1) in *.
  assert (HA : 0 < 2 ^ n1) by (apply Z.pow_pos_nonneg; unfold n1; lia).
  assert (Hq1A : q1 * 2 ^ n1 <= q < q1 * 2 ^ n1 + 2 ^ n1).
  { pose proof (Z.div_mod q (2 ^ n1) ltac:(lia)) as Hdm.
    pose proof (Z.mod_pos_bound q (2 ^ n1) HA) as Hmb.
    fold q1 in Hdm. lia. }
  assert (HqA : 2 ^ 52 * 2 ^ n1 <= q < 2 ^ 53 * 2 ^ n1).
  { rewrite <- !pow2_split by (unfold n1; lia).
    replace (52 + n1) with (Zdigits2 q - 1) by (unfold n1; lia).
    replace (53 + n1) with (Zdigits2 q) by (unfold n1; lia). lia. }
  assert (Hq1 : 2 ^ 52 <= q1 < 2 ^ 53) by nia.
  assert (Hm1A : q - 2 ^ n1 <= m1 * 2 ^ n1 <= q + 2 ^ n1) by nia.
  assert (Hfin : exists m2 e2,
             (if m1 <? 2 ^ 53 then finish false m1 (e' + n1)
              else finish false (2 ^ 52) (e' + n1 + 1))
             = S754_finite false m2 e2
             /\ 2 ^ 52 <= Zpos m2 < 2 ^ 53
             /\ 0 <= e2 + - e'
             /\ Zpos m2 * 2 ^ (e2 + - e') = m1 * 2 ^ n1).
  { destruct (Z.ltb_spec m1 (2 ^ 53)) as [Hlt|Hge].
    - destruct m1 as [| m1p | m1p]; try lia.
      unfold finish. replace (e' + n1 <=? emax - prec) with true
        by (symmetry; apply Z.leb_le; unfold emax, prec, n1; lia).
      exists m1p, (e' + n1). split; [reflexivity|].
      split; [lia|]. split; [unfold n1; lia|].
      replace (e' + n1 + - e') with n1 by lia. reflexivity.
    - assert (Hm1 : m1 = 2 ^ 52 * 2 ^ 1) by lia.
      unfold finish. change (2 ^ 52) with (Zpos (2 ^ 52)%positive) at 1.
      cbv iota.
      replace (e' + n1 + 1 <=? emax - prec) with true
        by (symmetry; apply Z.leb_le; unfold emax, prec, n1; lia).
      exists (2 ^ 52)%positive, (e' + n1 + 1). split; [reflexivity|].
      split; [cbn; lia|]. split; [unfold n1; lia|].
      replace (e' + n1 + 1 + - e') with (1 + n1) by lia.
      rewrite pow2_split by (unfold n1; lia).
      change (Zpos (2 ^ 52)%positive) with (2 ^ 52). rewrite Hm1. lia. }
  rewrite Heq. clear Heq.
  destruct Hfin as (m2 & e2 & -> & Hm2b & He2 & Hm2).
  exists m2, e2, (- e'). split; [reflexivity|]. split; [exact Hm2b|].
  split; [lia|]. split; [exact He2|].
  rewrite Hm2. fold E.
  set (A := 2 ^ n1) in *. set (X := m1 * A) in *.
  assert (HX : (2 ^ 52 - 1) * q <= 2 ^ 52 * X <= (2 ^ 52 + 1) * q) by lia.
  assert (HX0 : 0 <= X) by lia.
  set (B := Zpos pb) in *. set (aE := Zpos pa * E) in *.
  rewrite Hm' in Hqb.
  split.
  - assert (H1 : 2 ^ 52 * X * B <= (2 ^ 52 + 1) * q * B).
    { apply Z.mul_le_mono_nonneg_r; lia. }
    assert (H2 : (2 ^ 52 + 1) * (q * B) <= (2 ^ 52 + 1) * aE).
    { apply Z.mul_le_mono_nonneg_l; lia. }
    lia.
  - apply (Z.mul_le_mono_pos_r _ _ (2 ^ 52) ltac:(lia)).
    assert (H1 : (2 ^ 52 - 1) * q * B <= 2 ^ 52 * X * B).
    { apply Z.mul_le_mono_nonneg_r; lia. }
    assert (H2 : 2 ^ 52 * aE <= (2 ^ 52 + 1) * (q * B)).
    { assert (2 ^ 52 * B <= q * B) by (apply Z.mul_le_mono_nonneg_r; lia).
      lia. }
    set (qB := q * B) in *. set (XB := X * B) in *.
    replace ((2 ^ 52 - 1) * q * B) with ((2 ^ 52 - 1) * qB) in H1 by (unfold qB; lia).
    replace (2 ^ 52 * X * B) with (2 ^ 52 * XB) in H1 by (unfold XB; lia).
    lia.
Qed.

(** Rounding to the nearest integer stays within half a unit. *)
Lemma round_half_even_spec (n d : Z) :
  0 <= n -> 0 < d ->
  0 <= round_half_even n d
  /\ 2 * (round_half_even n d * d) <= 2 * n + d
  /\ 2 * n <= 2 * (round_half_even n d * d) + d.
Proof.
  intros Hn Hd. unfold round_half_even.
  pose proof (Z.div_mod n d ltac:(lia)) as Hdm.
  pose proof (Z.mod_pos_bound n d Hd) as Hmb.
  assert (Hq : 0 <= n / d) by (apply Z.div_pos; lia).
  set (q := n / d) in *. set (r := n mod d) in *.
  destruct (Z.compare_spec (2 * r) d) as [Heq | Hlt | Hgt].
  - destruct (Z.even q); nia.
  - nia.
  - nia.
Qed.

(** The rendering of positive amounts: the double of [wei / 10 ** 18] has a
    negative exponent and is printed as a count of hundredths that is
    less than one hundredth away from the amount. *)
Lemma hundredths_of_wei (wei : Z) :
  0 < wei < 2 ^ 49 * 10 ^ 16 ->
  exists m e,
    int_truediv wei (10 ^ 18) = Ok (S754_finite false m e)
    /\ 0 <= hundredths m e
    /\ (hundredths m e - 1) * 10 ^ 16 < wei < (hundredths m e + 1) * 10 ^ 16.
Proof.
  intros [Hpos Hlt].
  assert (Hd : 1 <= Zdigits2 wei <= 103).
  { split; [pose proof (Zdigits2_pos wei Hpos); lia|].
    apply Zdigits2_le; [lia|]. split; [lia|].
    assert (2 ^ 49 * 10 ^ 16 < 2 ^ 103) by reflexivity. lia. }
  destruct (int_truediv_value wei (10 ^ 18) Hpos ltac:(reflexivity))
    as (m & e & K & Hf & Hm & HK & HeK & Hup & Hlo).
  { change (Zdigits2 (10 ^ 18)) with 60. lia. }
  exists m, e. split; [exact Hf|].
  assert (HS : 0 < 2 ^ (e + K)) by (apply Z.pow_pos_nonneg; lia).
  assert (HPK : 0 < 2 ^ K) by (apply Z.pow_pos_nonneg; lia).
  assert (Hneg : e < 0).
  { destruct (Z_lt_le_dec e 0) as [|Hge]; [assumption|]. exfalso.
    assert (H1 : 2 ^ K <= 2 ^ (e + K)) by (apply Z.pow_le_mono_r; lia).
    set (S := 2 ^ (e + K)) in *. set (P := 2 ^ K) in *.
    assert (H2 : 2 ^ 52 * (2 ^ 52 * P * 10 ^ 18) <= 2 ^ 52 * (Zpos m * S * 10 ^ 18)).
    { apply Z.mul_le_mono_nonneg_l; [lia|].
      apply Z.mul_le_mono_nonneg_r; [lia|]. nia. }
    assert (H3 : (2 ^ 52 + 1) * (wei * P) < (2 ^ 52 + 1) * (2 ^ 49 * 10 ^ 16 * P)).
    { apply Z.mul_lt_mono_pos_l; [lia|]. apply Z.mul_lt_mono_pos_r; lia. }
    lia. }
  set (D := 2 ^ (- e)).
  assert (HD : 0 < D) by (apply Z.pow_pos_nonneg; lia).
  assert (HKD : 2 ^ K = 2 ^ (e + K) * D).
  { unfold D. rewrite <- pow2_split by lia. f_equal. lia. }
  rewrite HKD in Hup, Hlo. set (S := 2 ^ (e + K)) in *.
  assert (Hup' : 2 ^ 52 * (Zpos m * 10 ^ 18) <= (2 ^ 52 + 1) * (wei * D)).
  { apply (Z.mul_le_mono_pos_r _ _ S HS). lia. }
  assert (Hlo' : (2 ^ 52 - 1) * (wei * D) <= (2 ^ 52 + 1) * (Zpos m * 10 ^ 18)).
  { apply (Z.mul_le_mono_pos_r _ _ S HS). lia. }
  unfold hundredths. destruct (Z.leb_spec 0 e) as [|_]; [lia|]. fold D.
  destruct (round_half_even_spec (Zpos m * 100) D ltac:(lia) HD) as (HN0 & HNup & HNlo).
  set (N := round_half_even (Zpos m * 100) D) in *.
  split; [exact HN0|].
  change (10 ^ 18) with (100 * 10 ^ 16) in Hup', Hlo'.
  set (c := 10 ^ 16) in *. assert (Hc : 0 < c) by reflexivity.
  set (n := Zpos m * 100) in *.
  replace (Zpos m * (100 * c)) with (n * c) in Hup', Hlo' by (unfold n; lia).
  set (ND := N * D) in *. set (wD := wei * D) in *.
  assert (Hw : wD < 2 ^ 49 * c * D) by (unfold wD; apply Z.mul_lt_mono_pos_r; lia).
  set (cD := c * D) in *.
  assert (HcD : 0 < cD) by (unfold cD; lia).
  replace (2 ^ 49 * c * D) with (2 ^ 49 * cD) in Hw by (unfold cD; lia).
  assert (Hupper : N * c * D < (wei + c) * D).
  { replace (N * c * D) with (ND * c) by (unfold ND; lia).
    replace ((wei + c) * D) with (wD + cD) by (unfold wD, cD; lia).
    assert (H1 : 2 * ND * c <= (2 * n + D) * c)
      by (apply Z.mul_le_mono_nonneg_r; lia).
    replace ((2 * n + D) * c) with (2 * (n * c) + cD) in H1 by (unfold cD; lia).
    set (nc := n * c) in *. set (NDc := ND * c) in *. lia. }
  assert (HNle : N <= 2 ^ 49).
  { assert (N * c * D < (2 ^ 49 * c + c) * D).
    { eapply Z.lt_trans; [exact Hupper|]. apply Z.mul_lt_mono_pos_r; lia. }
    assert (N * c < (2 ^ 49 + 1) * c).
    { apply (Z.mul_lt_mono_pos_r D); lia. }
    assert (N < 2 ^ 49 + 1) by (apply (Z.mul_lt_mono_pos_r c); lia).
    lia. }
  assert (Hlower : (N - 1) * c * D < wei * D).
  { fold wD. replace ((N - 1) * c * D) with (ND * c - cD) by (unfold ND, cD; lia).
    assert (H1 : 2 * n * c <= (2 * ND + D) * c)
      by (apply Z.mul_le_mono_nonneg_r; lia).
    replace ((2 * ND + D) * c) with (2 * (ND * c) + cD) in H1 by (unfold cD; lia).
    replace (2 * n * c) with (2 * (n * c)) in H1 by lia.
    set (nc := n * c) in *. set (NDc := ND * c) in *.
    assert (H2 : NDc <= 2 ^ 49 * cD).
    { unfold NDc, ND, cD. replace (N * D * c) with (N * (c * D)) by lia.
      apply Z.mul_le_mono_nonneg_r; lia. }
    lia. }
  split.
  - apply (Z.mul_lt_mono_pos_r D); lia.
  - apply (Z.mul_lt_mono_pos_r D); lia.
Qed.

(* --------------------------------------------------------------------- *)
(** *** X18 *)

(** X18. [wei_to_brl] is accurate to the cent: for every amount with
    [0 <= wei < 2^49 * 10^16] (up to about 5.6 trillion units) it returns
    ["R$ "] followed by a count of hundredths [n], written with thousands
    separators and two decimals, where [n] is less than one hundredth
    (10^16 wei) away from the amount; an amount that is a whole number of
    hundredths is rendered exactly, although the double of
    [wei / 10 ** 18] it is formatted from is usually inexact. *)
Theorem wei_to_brl_is_accurate_to_the_cent (wei : Z) :
  0 <= wei < 2 ^ 49 * 10 ^ 16 ->
  exists n,
    wei_to_brl wei = Ok (brl_of_cents n)
    /\ 0 <= n
    /\ (n - 1) * 10 ^ 16 < wei < (n + 1) * 10 ^ 16
    /\ (forall c, wei = c * 10 ^ 16 -> n = c).
Proof.
  intros [H0 Hlt].
  assert (Hexact : forall n, (n - 1) * 10 ^ 16 < wei < (n + 1) * 10 ^ 16 ->
                             forall c, wei = c * 10 ^ 16 -> n = c).
  { intros n Hn c ->. lia. }
  destruct (Z.eq_dec wei 0) as [-> | Hne].
  - exists 0. split; [reflexivity|]. split; [lia|].
    split; [split; reflexivity|]. apply Hexact. split; reflexivity.
  - destruct (hundredths_of_wei wei ltac:(lia)) as (m & e & Hf & Hn0 & Hn).
    exists (hundredths m e). unfold wei_to_brl. rewrite Hf.
    split; [reflexivity|]. split; [exact Hn0|]. split; [exact Hn|].
    apply Hexact. exact Hn.
Qed.

Lemma wei_to_brl_is_accurate_to_the_cent_witness :
  0 <= 86500000000000000000 < 2 ^ 49 * 10 ^ 16
  /\ wei_to_brl 86500000000000000000 = Ok (brl_of_cents 8650).
Proof.
  assert (H : 0 <= 86500000000000000000 < 2 ^ 49 * 10 ^ 16)
    by (split; [discriminate | reflexivity]).
  split; [exact H|].
  destruct (wei_to_brl_is_accurate_to_the_cent 86500000000000000000 H)
    as (n & Hr & _ & _ & Hc).
  rewrite Hr. rewrite (Hc 8650 eq_refl). reflexivity.
Defined.

(** The quotient [wei / 10 ** 18] of an amount of at most 1082 bits: a
    zero or a finite double, negative exactly when the amount is. *)
Lemma truediv_wei_sign (wei : Z) :
  Z.abs wei < 2 ^ 1082 ->
  exists f,
    int_truediv wei (10 ^ 18) = Ok f
    /\ (f = S754_zero (wei <? 0)
        \/ exists p e, f = S754_finite (wei <? 0) p e).
Proof.
  intros Hw.
  assert (Hpos : forall a, 0 < a < 2 ^ 1082 ->
            exists f, int_truediv a (10 ^ 18) = Ok f
                      /\ (f = S754_zero false \/ exists p e, f = S754_finite false p e)).
  { intros a [Ha Hlt]. apply int_truediv_pos; [assumption | reflexivity |].
    change (Zdigits2 (10 ^ 18)) with 60.
    assert (Zdigits2 a <= 1082); [|lia].
    apply Zdigits2_le; lia. }
  destruct (Z.lt_trichotomy wei 0) as [Hneg | [-> | Hp]].
  - destruct (Hpos (- wei) ltac:(lia)) as (f & Hf & Hsh).
    assert (Hd : int_truediv wei (10 ^ 18)
                 = Py.map SFopp (int_truediv (- wei) (10 ^ 18))).
    { rewrite <- int_truediv_opp by (try reflexivity; lia). f_equal. lia. }
    rewrite Hd, Hf. destruct (Z.ltb_spec wei 0); [|lia].
    exists (SFopp f). split; [reflexivity|].
    destruct Hsh as [-> | (p & e & ->)]; cbn [SFopp negb]; eauto.
  - exists (S754_zero false). split; [reflexivity | left; reflexivity].
  - destruct (Hpos wei ltac:(lia)) as (f & Hf & Hsh).
    destruct (Z.ltb_spec wei 0); [lia|]. eauto.
Qed.

Lemma hundredths_nonneg (m : positive) (e : Z) : 0 <= hundredths m e.
Proof.
  unfold hundredths. destruct (Z.leb_spec 0 e).
  - assert (0 <= 2 ^ e) by (apply Z.pow_nonneg; lia). nia.
  - apply round_half_even_spec; [lia | apply Z.pow_pos_nonneg; lia].
Qed.

Lemma wei_to_brl_returns (wei : Z) :
  Z.abs wei < 2 ^ 1082 -> exists s, wei_to_brl wei = Ok s.
Proof.
  intros H. destruct (truediv_wei_sign wei H) as (f & Hf & _).
  unfold wei_to_brl. rewrite Hf. cbn [Py.bind]. eauto.
Qed.

(* --------------------------------------------------------------------- *)
(** *** X19 *)

(** X19. [wei_to_brl] raises nothing on any amount of magnitude below
    [2^1082] (every [uint256] amount and every difference of such
    amounts): it returns ["R$ "], a minus sign exactly when the amount is
    negative (also when it rounds to zero hundredths), and a non-negative
    count of hundredths written with thousands separators and two
    decimals; it never prints [inf] or [nan]. *)
Theorem wei_to_brl_returns_an_amount (wei : Z) :
  Z.abs wei < 2 ^ 1082 ->
  exists n,
    0 <= n
    /\ wei_to_brl wei
       = Ok ("R$ " ++ (if Z.ltb wei 0 then "-" else "") ++ point2 true n)%string.
Proof.
  intros Hw. destruct (truediv_wei_sign wei Hw) as (f & Hf & Hsh).
  unfold wei_to_brl. rewrite Hf. cbn [Py.bind].
  destruct Hsh as [-> | (p & e & ->)]; cbn [format_2f].
  - exists 0. split; [lia | reflexivity].
  - exists (hundredths p e). split; [apply hundredths_nonneg | reflexivity].
Qed.

Lemma wei_to_brl_returns_an_amount_witness :
  Z.abs (-1) < 2 ^ 1082
  /\ exists n, 0 <= n /\ wei_to_brl (-1) = Ok ("R$ -" ++ point2 true n)%string.
Proof.
  assert (H : Z.abs (-1) < 2 ^ 1082) by reflexivity.
  split; [exact H|].
  destruct (wei_to_brl_returns_an_amount (-1) H) as (n & Hn & Hr).
  exists n. split; [exact Hn | exact Hr].
Defined.

Lemma uint256_small (n : Z) : uint256 n -> 0 <= n < 2 ^ 256.
Proof. unfold uint256. auto. Qed.

Section ReportFacts.
Context {lib : EthLib}.

(** What [print_standard_report] reads and formats, for an authorization
    and the dictionary of the same call: the sums it recomputes are the
    dictionary's entries, and every value it formats can be formatted. *)
Lemma standard_report_values
    (nfe who : string) (g : Z) (sec : string) (credits : Z) (now : string)
    (self self' : FiscalOracle) (inv : SignedInvoice) (tax : standard_tax) :
  authorize_standard nfe who g sec credits now self = (Ok inv, self') ->
  calculate_standard g sec credits = Ok tax ->
  si_cbs_amount inv + si_ibs_state_amount inv + si_ibs_city_amount inv = total_tax tax
  /\ total_tax tax - si_credit_offset inv = net_tax tax
  /\ si_gross_amount inv - net_tax tax = net_to_seller tax
  /\ sector tax = sec
  /\ (forall x,
        In x [ si_gross_amount inv; si_cbs_amount inv; si_ibs_state_amount inv;
               si_ibs_city_amount inv; total_tax tax; si_credit_offset inv;
               net_tax tax; net_to_seller tax ] ->
        exists s, wei_to_brl x = Ok s)
  /\ exists s, format_number_2f (times_100 (effective_rate tax)) = Ok s.
Proof.
  intros H Htax.
  destruct (authorize_standard_Ok _ _ _ _ _ _ _ _ _ H)
    as (tax' & addr & Htax' & _ & U & _ & F & _).
  assert (tax' = tax) by congruence. subst tax'.
  destruct U as (Ug & Uc & Us & Um & Uo).
  destruct F as (_ & _ & Fg & Fc & Fs & Fm & Fo & _).
  pose proof (calculate_standard_inv _ _ _ _ Htax) as E.
  pose proof (se_total _ _ _ _ E) as Ht. pose proof (se_offset _ _ _ _ E) as Ho.
  pose proof (se_net_tax _ _ _ _ E) as Hn. pose proof (se_net _ _ _ _ E) as Hs.
  apply uint256_small in Ug, Uc, Us, Um, Uo.
  assert (Hbig : 2 ^ 256 * 8 <= 2 ^ 1082) by (vm_compute; discriminate).
  rewrite Fg, Fc, Fs, Fm, Fo.
  split; [lia|]. split; [lia|]. split; [lia|].
  split; [exact (se_sector _ _ _ _ E)|]. split.
  - intros x Hx. apply wei_to_brl_returns. cbn [In] in Hx.
    repeat (destruct Hx as [<- | Hx]; [lia|]). contradiction.
  - pose proof (se_rate _ _ _ _ E) as Hr.
    destruct (g >? 0).
    + destruct Hr as (f & _ & ->). cbn. eauto.
    + rewrite Hr. cbn. eauto.
Qed.

(** The same for [print_simplified_report]. *)
Lemma simplified_report_values
    (nfe who : string) (g : Z) (sec : string) (now : string)
    (self self' : FiscalOracle) (inv : SignedInvoice) (tax : simplified_tax) :
  authorize_simplified nfe who g sec now self = (Ok inv, self') ->
  calculate_simplified g sec = Ok tax ->
  rate_bps inv = s_rate_bps tax
  /\ (s_rate_bps tax = 2650 \/ s_rate_bps tax = 1325 \/ s_rate_bps tax = 0)
  /\ s_sector tax = sec
  /\ (forall x,
        In x [ si_gross_amount inv; s_tax_amount tax; s_net_to_seller tax ] ->
        exists s, wei_to_brl x = Ok s).
Proof.
  intros H Htax.
  destruct (authorize_simplified_Ok _ _ _ _ _ _ _ _ H)
    as (tax' & addr & Htax' & _ & U & _ & F & _).
  assert (tax' = tax) by congruence. subst tax'.
  destruct U as (Ug & _).
  destruct F as (_ & _ & Fg & _ & _ & _ & _ & _ & _ & _ & Fb).
  pose proof (calculate_simplified_inv _ _ _ Htax) as E.
  pose proof (sm_net _ _ _ E) as Hn. pose proof (sm_bps _ _ _ E) as Hb.
  apply uint256_small in Ug.
  destruct (calculate_simplified_returns g sec (uint256_below_float_limit g Ug))
    as (tax' & Htax'' & Hrange).
  assert (tax' = tax) by congruence. subst tax'.
  assert (Hbig : 2 ^ 256 * 8 <= 2 ^ 1082) by (vm_compute; discriminate).
  split; [exact Fb|]. split; [rewrite Hb; apply bps_for_cases|].
  split; [exact (sm_sector _ _ _ E)|].
  rewrite Fg. intros x Hx. apply wei_to_brl_returns. cbn [In] in Hx.
  repeat (destruct Hx as [<- | Hx]; [lia|]). contradiction.
Qed.

(* --------------------------------------------------------------------- *)
(** *** X20 *)


(* --------------------------------------------------------------------- *)
(** *** X21 *)


End ReportFacts.



(* ===================================================================== *)
(** ** 12. The command-line run *)
(* ===================================================================== *)

(** One step of a printing computation that goes on to end with [tail]. *)
Lemma out_bind_step {A : Type} (m : out A) (k : A -> out unit)
      (p : list string) (a : A) (tail : list string) (c n : nat) :
  m = (p, Ok a) -> length p = c ->
  (exists front, k a = (front ++ tail, Ok tt) /\ length front = n) ->
  exists front, out_bind m k = (front ++ tail, Ok tt) /\ length front = (c + n)%nat.
Proof.
  intros -> Hc (front & Hk & Hn). exists (p ++ front). cbn [out_bind].
  rewrite Hk. rewrite <- app_assoc. split; [reflexivity|].
  rewrite length_app. lia.
Qed.

Section RunFacts.
Context {lib : EthLib}.

Lemma call_standard_runs
      (nfe who : string) (g : Z) (sec : string) (credits : Z) (now : string)
      (self : FiscalOracle) (addr : bytes) (tax : standard_tax) :
  address_bytes who = Some addr -> uint256 g -> 0 <= credits ->
  calculate_standard g sec credits = Ok tax ->
  exists inv self',
    call (authorize_standard nfe who g sec credits now) self = ([], Ok (inv, self'))
    /\ signatures_issued self' = signatures_issued self + 1
    /\ exists lines, print_standard_report inv tax = (lines, Ok tt)
                     /\ length lines = 22%nat.
Proof.
  intros Ha Ug Hc Htax.
  destruct (authorize_standard_returns nfe who g sec credits now self addr Ha Ug Hc)
    as (inv & self' & H).
  exists inv, self'. unfold call. rewrite H. split; [reflexivity|].
  destruct (authorize_standard_Ok _ _ _ _ _ _ _ _ _ H)
    as (_ & _ & _ & _ & _ & _ & _ & _ & _ & _ & Hcount).
  split; [exact Hcount|].
  destruct (standard_report_values _ _ _ _ _ _ _ _ _ _ H Htax)
    as (_ & _ & _ & _ & Hfmt & (s9 & Hrate)).
  pose proof (calculate_standard_inv _ _ _ _ Htax) as E.
  unfold print_standard_report. rewrite Hrate.
  destruct (authorize_standard_Ok _ _ _ _ _ _ _ _ _ H)
    as (tax' & _ & Htax' & _ & _ & _ & F & _).
  assert (tax' = tax) by congruence. subst tax'.
  destruct F as (_ & _ & Fg & Fc & Fs & Fm & Fo & _).
  pose proof (se_total _ _ _ _ E) as Ht. pose proof (se_net_tax _ _ _ _ E) as Hn.
  pose proof (se_net _ _ _ _ E) as Hs.
  replace (si_cbs_amount inv + si_ibs_state_amount inv + si_ibs_city_amount inv)
    with (total_tax tax) by lia.
  replace (total_tax tax - si_credit_offset inv) with (net_tax tax) by lia.
  replace (si_gross_amount inv - net_tax tax) with (net_to_seller tax) by lia.
  destruct (Hfmt (si_gross_amount inv) ltac:(cbn; auto)) as (s1 & ->).
  destruct (Hfmt (si_cbs_amount inv) ltac:(cbn; auto)) as (s2 & ->).
  destruct (Hfmt (si_ibs_state_amount inv) ltac:(cbn; auto)) as (s3 & ->).
  destruct (Hfmt (si_ibs_city_amount inv) ltac:(cbn; auto)) as (s4 & ->).
  destruct (Hfmt (total_tax tax) ltac:(cbn; auto 10)) as (s5 & ->).
  destruct (Hfmt (si_credit_offset inv) ltac:(cbn; auto 10)) as (s6 & ->).
  destruct (Hfmt (net_tax tax) ltac:(cbn; auto 10)) as (s7 & ->).
  destruct (Hfmt (net_to_seller tax) ltac:(cbn; auto 10)) as (s8 & ->).
  cbn [prints Py.map Py.bind]. eexists. split; reflexivity.
Qed.

Lemma call_simplified_runs
      (nfe who : string) (g : Z) (sec : string) (now : string)
      (self : FiscalOracle) (addr : bytes) (tax : simplified_tax) :
  address_bytes who = Some addr -> uint256 g ->
  calculate_simplified g sec = Ok tax ->
  exists inv self',
    call (authorize_simplified nfe who g sec now) self = ([], Ok (inv, self'))
    /\ signatures_issued self' = signatures_issued self + 1
    /\ exists lines, print_simplified_report inv tax = (lines, Ok tt)
                     /\ length lines = 18%nat.
Proof.
  intros Ha Ug Htax.
  destruct (authorize_simplified_returns nfe who g sec now self addr Ha Ug)
    as (inv & self' & H).
  exists inv, self'. unfold call. rewrite H. split; [reflexivity|].
  destruct (authorize_simplified_Ok _ _ _ _ _ _ _ _ H)
    as (_ & _ & _ & _ & _ & _ & _ & _ & _ & _ & Hcount).
  split; [exact Hcount|].
  destruct (simplified_report_values _ _ _ _ _ _ _ _ _ H Htax)
    as (Hb & Hcases & _ & Hfmt).
  unfold print_simplified_report. rewrite Hb.
  destruct (Hfmt (si_gross_amount inv) ltac:(cbn; auto)) as (s1 & ->).
  destruct (Hfmt (s_tax_amount tax) ltac:(cbn; auto)) as (s2 & ->).
  destruct (Hfmt (s_net_to_seller tax) ltac:(cbn; auto)) as (s3 & ->).
  assert (Hrate : exists rate,
             Py.map (format_2f false) (int_truediv (s_rate_bps tax) 100) = Ok rate).
  { destruct Hcases as [Hc | [Hc | Hc]]; rewrite Hc; eexists; vm_compute; reflexivity. }
  destruct Hrate as (rate & ->).
  cbn [prints Py.map Py.bind]. eexists. split; reflexivity.
Qed.

(* --------------------------------------------------------------------- *)
(** *** X22 *)

(** X22. A run of [main]. Whatever the random token and the clock
    readings, if the generated key ["0x" + token] is a valid key and the
    demonstration seller address is accepted by the encoder, [main] runs
    to its end without an exception: it makes 134 [print] calls, the five
    authorizations are all issued, and the summary reads
    ["  RESUMO: 5 autorizações emitidas pelo oráculo"] between two rules.
    If the generated key is not valid, the run stops with the
    constructor's exception after the six [print] calls of the header:
    nothing is computed or signed. *)
Theorem main_issues_five_authorizations
    (token_hex now1 now2 now3 now4 now5 : string) :
  (forall a b,
     address_of_key ("0x" ++ token_hex)%string = Some a ->
     address_bytes "0x1234567890123456789012345678901234567890" = Some b ->
     exists front,
       main token_hex now1 now2 now3 now4 now5
       = (front ++ [ ""; double_rule;
                     "  RESUMO: 5 autorizações emitidas pelo oráculo";
                     double_rule; "" ]%string,
          Ok tt)
       /\ length front = 129%nat)
  /\ (address_of_key ("0x" ++ token_hex)%string = None ->
      exists header e,
        main token_hex now1 now2 now3 now4 now5 = (header, Raise e)
        /\ print_header = (header, Ok tt) /\ length header = 6%nat).
Proof.
  split.
  - intros a b Hkey Hseller.
    change 129%nat
      with (6 + (0 + (1 + (1 + (0 + (0 + (22 + (0 + (0 + (22 + (0 + (0 + (22
            + (0 + (0 + (18 + (0 + (0 + (18 + (19 + 0))))))))))))))))))))%nat.
    unfold main. cbv zeta.
    set (seller := "0x1234567890123456789012345678901234567890") in *.
    assert (U1 : uint256 (to_wei_ether 1000)) by (split; [discriminate | reflexivity]).
    assert (U4 : uint256 (to_wei_ether 200)) by (split; [discriminate | reflexivity]).
    assert (C0 : 0 <= 0) by discriminate.
    assert (C2 : 0 <= to_wei_ether 50) by discriminate.
    pose proof (uint256_below_float_limit _ U1) as G1.
    pose proof (uint256_below_float_limit _ U4) as G4.
    (* header and construction *)
    eapply out_bind_step; [reflexivity | reflexivity |].
    eapply out_bind_step.
    { unfold lift, init, from_key. rewrite Hkey. reflexivity. }
    { reflexivity. }
    set (o0 := {| private_key := ("0x" ++ token_hex)%string;
                  account := {| key := ("0x" ++ token_hex)%string; acct_address := a |};
                  address := a;
                  signatures_issued := 0 |}).
    cbn [Py.bind].
    eapply out_bind_step; [reflexivity | reflexivity |].
    eapply out_bind_step; [reflexivity | reflexivity |].
    (* scenario 1 *)
    destruct (calculate_standard_returns (to_wei_ether 1000) "PADRAO" 0 G1)
      as (t1 & Ht1 & _).
    eapply out_bind_step; [unfold lift; rewrite Ht1; reflexivity | reflexivity |].
    destruct (call_standard_runs
                "NFe35260112345678000195550010000000011234567890" seller
                (to_wei_ether 1000) "PADRAO" 0 now1 o0 b t1 Hseller U1 C0 Ht1)
      as (i1 & o1 & Hc1 & Hn1 & l1 & Hr1 & Hl1).
    eapply out_bind_step; [exact Hc1 | reflexivity |].
    eapply out_bind_step; [exact Hr1 | exact Hl1 |].
    (* scenario 2 *)
    destruct (calculate_standard_returns (to_wei_ether 1000) "PADRAO"
                (to_wei_ether 50) G1) as (t2 & Ht2 & _).
    eapply out_bind_step; [unfold lift; rewrite Ht2; reflexivity | reflexivity |].
    destruct (call_standard_runs
                "NFe35260112345678000195550010000000021234567890" seller
                (to_wei_ether 1000) "PADRAO" (to_wei_ether 50) now2 o1 b t2
                Hseller U1 C2 Ht2)
      as (i2 & o2 & Hc2 & Hn2 & l2 & Hr2 & Hl2).
    eapply out_bind_step; [exact Hc2 | reflexivity |].
    eapply out_bind_step; [exact Hr2 | exact Hl2 |].
    (* scenario 3 *)
    destruct (calculate_standard_returns (to_wei_ether 1000) "SAUDE" 0 G1)
      as (t3 & Ht3 & _).
    eapply out_bind_step; [unfold lift; rewrite Ht3; reflexivity | reflexivity |].
    destruct (call_standard_runs
                "NFe35260112345678000195550010000000031234567890" seller
                (to_wei_ether 1000) "SAUDE" 0 now3 o2 b t3 Hseller U1 C0 Ht3)
      as (i3 & o3 & Hc3 & Hn3 & l3 & Hr3 & Hl3).
    eapply out_bind_step; [exact Hc3 | reflexivity |].
    eapply out_bind_step; [exact Hr3 | exact Hl3 |].
    (* scenario 4 *)
    destruct (calculate_simplified_returns (to_wei_ether 200) "PADRAO" G4)
      as (t4 & Ht4 & _).
    eapply out_bind_step; [unfold lift; rewrite Ht4; reflexivity | reflexivity |].
    destruct (call_simplified_runs
                "NFe35260112345678000195650010000000041234567890" seller
                (to_wei_ether 200) "PADRAO" now4 o3 b t4 Hseller U4 Ht4)
      as (i4 & o4 & Hc4 & Hn4 & l4 & Hr4 & Hl4).
    eapply out_bind_step; [exact Hc4 | reflexivity |].
    eapply out_bind_step; [exact Hr4 | exact Hl4 |].
    (* scenario 5 *)
    destruct (calculate_simplified_returns (to_wei_ether 200) "CESTA_BASICA" G4)
      as (t5 & Ht5 & _).
    eapply out_bind_step; [unfold lift; rewrite Ht5; reflexivity | reflexivity |].
    destruct (call_simplified_runs
                "NFe35260112345678000195650010000000051234567890" seller
                (to_wei_ether 200) "CESTA_BASICA" now5 o4 b t5 Hseller U4 Ht5)
      as (i5 & o5 & Hc5 & Hn5 & l5 & Hr5 & Hl5).
    eapply out_bind_step; [exact Hc5 | reflexivity |].
    eapply out_bind_step; [exact Hr5 | exact Hl5 |].
    (* the demonstration and the summary *)
    eapply out_bind_step; [reflexivity | reflexivity |].
    assert (Hfive : signatures_issued o5 = 5).
    { change (signatures_issued o0) with 0 in Hn1. lia. }
    rewrite Hfive. exists []. split; reflexivity.
  - intros Hbad. unfold main.
    exists (fst print_header), ValueError.
    unfold out_bind at 1. change print_header with (fst print_header, Ok tt) at 1.
    cbv iota. unfold out_bind, lift, init, from_key. rewrite Hbad.
    repeat split.
Qed.

End RunFacts.

Lemma main_issues_five_authorizations_witness :
  exists front,
    main (lib := plain_lib) "ab" "t1" "t2" "t3" "t4" "t5"
    = (front ++ [ ""; double_rule;
                  "  RESUMO: 5 autorizações emitidas pelo oráculo";
                  double_rule; "" ]%string,
       Ok tt)
    /\ length front = 129%nat.
Proof.
  exact (proj1 (main_issues_five_authorizations (lib := plain_lib)
                  "ab" "t1" "t2" "t3" "t4" "t5")
           "0xab"%string demo_seller_bytes eq_refl eq_refl).
Defined.
